(** * MySQL grant resource: model and verification of [mysql/resource_grant.go]

    The development embeds the grant model, the statement generator, the
    statement parser, the privilege canonicalizer and the reconciliation
    operations of [resource_grant.go] and settles the properties the
    specification states about them.

    Conventions of the embedding:
    - a Go [string] is the sequence of its code points ([list rune], the
      decoding of a valid UTF-8 string, as a [for _, b := range g] loop sees
      it); a [rune] is a natural number;
    - a Go function returning [(T, error)] returns a sum or a pair here; a
      run-time panic is an outcome of the small monad [M];
    - the database handle is a deterministic server: each reply is a function
      of the requests made so far, and the state threaded through the
      operations is that list of requests. *)

From Stdlib Require Import NArith String Ascii List Bool Arith Lia Permutation.
Import ListNotations.

Set Implicit Arguments.

(* ================================================================= *)
(** ** Runes and strings *)

Definition rune := N.
Definition gostring := list rune.

(** Go string and rune literals. *)
Definition go (s : string) : gostring :=
  map N_of_ascii (list_ascii_of_string s).

Definition rn (s : string) : rune :=
  match s with
  | String a _ => N_of_ascii a
  | EmptyString => 0%N
  end.

(** The double quote character. *)
Definition dquote : rune := 34%N.

Fixpoint streq (a b : gostring) : bool :=
  match a, b with
  | [], [] => true
  | x :: a', y :: b' => N.eqb x y && streq a' b'
  | _, _ => false
  end.

Definition IndexRune (cutset : gostring) (r : rune) : bool :=
  existsb (N.eqb r) cutset.

Fixpoint dropWhile (A : Type) (p : A -> bool) (l : list A) : list A :=
  match l with
  | [] => []
  | x :: l' => if p x then dropWhile p l' else l
  end.

(** The Unicode case tables of Go's [unicode] package, for the runes above
    ASCII: [unicode.To(UpperCase, r)] and [unicode.To(LowerCase, r)]. They are
    data of the Go distribution, not of this repository. *)
Class CaseTables := {
  upperTable : rune -> rune;
  lowerTable : rune -> rune
}.

Module unicode.

Definition MaxASCII : rune := 127%N.

(** [unicode.ToUpper]: ASCII letters are shifted, other ASCII runes are
    kept, the rest goes through the table. *)
Definition ToUpper {T : CaseTables} (r : rune) : rune :=
  if (r <=? MaxASCII)%N then
    if ((rn "a" <=? r) && (r <=? rn "z"))%N then (r - 32)%N else r
  else upperTable r.

Definition ToLower {T : CaseTables} (r : rune) : rune :=
  if (r <=? MaxASCII)%N then
    if ((rn "A" <=? r) && (r <=? rn "Z"))%N then (r + 32)%N else r
  else lowerTable r.

(** [unicode.IsSpace]: the White_Space property. In Latin-1 these are
    tab, newline, vertical tab, form feed, carriage return, space, U+0085
    and U+00A0. *)
Definition IsSpace (r : rune) : bool :=
  (((9 <=? r) && (r <=? 13)) || (r =? 32) || (r =? 133) || (r =? 160)
   || (r =? 5760) || ((8192 <=? r) && (r <=? 8202))
   || (r =? 8232) || (r =? 8233) || (r =? 8239) || (r =? 8287)
   || (r =? 12288))%N.

End unicode.

Module strings.

Fixpoint HasPrefix (s prefix : gostring) : bool :=
  match prefix, s with
  | [], _ => true
  | p :: prefix', x :: s' => N.eqb x p && HasPrefix s' prefix'
  | _ :: _, [] => false
  end.

Definition HasSuffix (s suffix : gostring) : bool :=
  HasPrefix (rev s) (rev suffix).

Definition TrimLeft (s cutset : gostring) : gostring :=
  dropWhile (IndexRune cutset) s.

Definition TrimRight (s cutset : gostring) : gostring :=
  rev (dropWhile (IndexRune cutset) (rev s)).

(** [strings.Trim]: all leading and trailing runes of [cutset] removed. *)
Definition Trim (s cutset : gostring) : gostring :=
  TrimRight (TrimLeft s cutset) cutset.

(** [strings.Split] for a separator of one rune, the only use the program
    makes of it; splitting the empty string gives one empty string. *)
Fixpoint Split (s : gostring) (sep : rune) : list gostring :=
  match s with
  | [] => [[]]
  | x :: s' =>
      if N.eqb x sep then [] :: Split s' sep
      else match Split s' sep with
           | w :: ws => (x :: w) :: ws
           | [] => [[x]]
           end
  end.

Fixpoint Join (elems : list gostring) (sep : gostring) : gostring :=
  match elems with
  | [] => []
  | [e] => e
  | e :: rest => e ++ sep ++ Join rest sep
  end.

Definition ToUpper {T : CaseTables} (s : gostring) : gostring :=
  map unicode.ToUpper s.

Definition ToLower {T : CaseTables} (s : gostring) : gostring :=
  map unicode.ToLower s.

(** [strings.Contains] *)
Fixpoint Contains (s substr : gostring) : bool :=
  HasPrefix s substr ||
  match s with
  | [] => false
  | _ :: s' => Contains s' substr
  end.

End strings.

(** [sort.Strings]: increasing order of the strings compared rune by rune
    (which is the byte order of their UTF-8 encodings). Equal strings are
    indistinguishable, so the sorted list does not depend on the sorting
    algorithm; insertion is used here. *)
Module sort.

Fixpoint le (a b : gostring) : bool :=
  match a, b with
  | [], _ => true
  | _ :: _, [] => false
  | x :: a', y :: b' =>
      if (x <? y)%N then true
      else if (y <? x)%N then false
      else le a' b'
  end.

Fixpoint insert (x : gostring) (l : list gostring) : list gostring :=
  match l with
  | [] => [x]
  | y :: l' => if le x y then x :: l else y :: insert x l'
  end.

Fixpoint Strings (l : list gostring) : list gostring :=
  match l with
  | [] => []
  | x :: l' => insert x (Strings l')
  end.

End sort.

(* ================================================================= *)
(** ** Regular expressions

    Go's [regexp] package matches leftmost-first: among the matches that
    start earliest it returns the one a backtracking search finds first
    (alternatives left to right, repetitions greedy). The patterns of the
    program repeat character classes only, so that is the repetition the
    syntax has. *)

Module regexp.

Inductive Regexp : Type :=
| Empty
| Class (p : rune -> bool)
| Cat (a b : Regexp)
| Alt (a b : Regexp)
| Star (p : rune -> bool)
| Capture (i : nat) (a : Regexp)
| BeginText
| EndText
| WordBoundary.

Definition Plus (p : rune -> bool) : Regexp := Cat (Class p) (Star p).
Definition Quest (a : Regexp) : Regexp := Alt a Empty.

Fixpoint Lit (s : gostring) : Regexp :=
  match s with
  | [] => Empty
  | c :: s' => Cat (Class (N.eqb c)) (Lit s')
  end.

Fixpoint Cats (l : list Regexp) : Regexp :=
  match l with
  | [] => Empty
  | [a] => a
  | a :: l' => Cat a (Cats l')
  end.

(** Character classes of the patterns. *)
Definition chr (c : string) : rune -> bool := N.eqb (rn c).
Definition notchr (c : string) : rune -> bool :=
  fun r => negb (N.eqb (rn c) r).
(** [\s] is [[\t\n\f\r ]]. *)
Definition space (r : rune) : bool :=
  ((r =? 9) || (r =? 10) || (r =? 12) || (r =? 13) || (r =? 32))%N.
(** [\w] is [[0-9A-Za-z_]]. *)
Definition word (r : rune) : bool :=
  (((48 <=? r) && (r <=? 57)) || ((65 <=? r) && (r <=? 90))
   || ((97 <=? r) && (r <=? 122)) || (r =? 95))%N.
(** [.] is any rune but the newline. *)
Definition dot (r : rune) : bool := negb (r =? 10)%N.
(** [[\w\s,]] *)
Definition word_space_comma (r : rune) : bool :=
  word r || space r || (r =? rn ",")%N.
(** A letter under [(?i)]: for the ASCII letters the patterns use (none of
    them k or s) the fold is the other ASCII case. *)
Definition fold (c : rune) : rune -> bool :=
  fun r => N.eqb r c || N.eqb r (c - 32)%N.
Fixpoint LitFold (s : gostring) : Regexp :=
  match s with
  | [] => Empty
  | c :: s' => Cat (Class (fold c)) (LitFold s')
  end.

Definition captures := list (nat * gostring).

Fixpoint submatch (i : nat) (c : captures) : gostring :=
  match c with
  | [] => []
  | (j, w) :: c' => if Nat.eqb i j then w else submatch i c'
  end.

Definition isWordOpt (o : option rune) : bool :=
  match o with Some r => word r | None => false end.

Definition continuation : Type :=
  option rune -> gostring -> captures -> option (gostring * captures).

(** [run a prev s c k]: match [a] at the front of [s], the rune before it
    being [prev] (none at the beginning of the text), then continue with
    [k] on what is left; the first success in priority order. *)
Fixpoint run (a : Regexp) (prev : option rune) (s : gostring)
         (c : captures) (k : continuation) {struct a}
  : option (gostring * captures) :=
  match a with
  | Empty => k prev s c
  | Class p =>
      match s with
      | x :: s' => if p x then k (Some x) s' c else None
      | [] => None
      end
  | Cat a1 a2 =>
      run a1 prev s c (fun prev' s' c' => run a2 prev' s' c' k)
  | Alt a1 a2 =>
      match run a1 prev s c k with
      | Some m => Some m
      | None => run a2 prev s c k
      end
  | Star p =>
      (fix star (prev : option rune) (s : gostring) {struct s} :=
         match s with
         | x :: s' =>
             if p x then
               match star (Some x) s' with
               | Some m => Some m
               | None => k prev s c
               end
             else k prev s c
         | [] => k prev s c
         end) prev s
  | Capture i a1 =>
      run a1 prev s c
          (fun prev' s' c' =>
             k prev' s' ((i, firstn (length s - length s') s) :: c'))
  | BeginText =>
      match prev with None => k prev s c | Some _ => None end
  | EndText =>
      match s with [] => k prev s c | _ :: _ => None end
  | WordBoundary =>
      if xorb (isWordOpt prev) (isWordOpt (hd_error s)) then k prev s c
      else None
  end.

Fixpoint NumSubexp (a : Regexp) : nat :=
  match a with
  | Cat a1 a2 | Alt a1 a2 => NumSubexp a1 + NumSubexp a2
  | Capture _ a1 => S (NumSubexp a1)
  | _ => 0
  end.

Definition accept : continuation := fun _ s c => Some (s, c).

(** The match found at the first position of [s] where there is one. *)
Fixpoint search (a : Regexp) (prev : option rune) (s : gostring)
  : option (gostring * gostring * captures) :=
  match run a prev s [] accept with
  | Some (s', c) => Some (s, s', c)
  | None =>
      match s with
      | [] => None
      | x :: s' => search a (Some x) s'
      end
  end.

(** [FindStringSubmatch]: the text of the match and of each group (empty
    for a group that took no part), or [nil] when there is no match. *)
Definition FindStringSubmatch (a : Regexp) (s : gostring) : list gostring :=
  match search a None s with
  | Some (s0, s', c) =>
      firstn (length s0 - length s') s0
      :: map (fun i => submatch i c) (seq 1 (NumSubexp a))
  | None => []
  end.

Definition MatchString (a : Regexp) (s : gostring) : bool :=
  match search a None s with
  | Some _ => true
  | None => false
  end.

(** [ReplaceAllString] for a pattern that is one character class: every
    rune of the class is a match. *)
Definition ReplaceAllString (p : rune -> bool) (src repl : gostring)
  : gostring :=
  flat_map (fun r => if p r then repl else [r]) src.

End regexp.

Definition index (l : list gostring) (i : nat) : gostring := nth i l [].

(* ================================================================= *)
(** ** Errors *)

(** A Go [error] value: a [*mysql.MySQLError] of the driver, with its number
    and the text its [Error] method gives, or any other error, which only has
    its text ([fmt.Errorf] builds these). A nil [error] is [None]. *)
Inductive error : Type :=
| MySQLError (Number : N) (text : gostring)
| errorString (text : gostring).

Definition Error (e : error) : gostring :=
  match e with
  | MySQLError _ text => text
  | errorString text => text
  end.

(** The result of a Go function returning [(T, error)]. *)
Inductive res (A : Type) : Type :=
| Ok (a : A)
| Err (e : error).
Arguments Ok {A} a.
Arguments Err {A} e.

(** [diag.Diagnostics]: the summaries of the error diagnostics; nil is
    success. *)
Definition Diagnostics := list gostring.

(* ================================================================= *)
(** ** Identities *)

Module UserOrRole.

Inductive t : Type :=
| User (user host : gostring)
| Role (role : gostring).

Definition SQLString (u : t) : gostring :=
  match u with
  | User user host => go "'" ++ user ++ go "'@'" ++ host ++ go "'"
  | Role role => go "'" ++ role ++ go "'"
  end.

(** The [%s] verb of [fmt] on the struct value: its fields in braces. *)
Definition Sprint (u : t) : gostring :=
  match u with
  | User user host => go "{" ++ user ++ go " " ++ host ++ go "}"
  | Role role => go "{" ++ role ++ go "}"
  end.

End UserOrRole.
Export UserOrRole (User, Role).

(* ================================================================= *)
(** ** Grants and their statements *)

Definition ObjectT := gostring.

Definition requireClause {T : CaseTables} (TLSOption : gostring) : gostring :=
  if negb (streq TLSOption []) &&
     negb (streq (strings.ToLower TLSOption) (go "none"))
  then go " REQUIRE " ++ TLSOption
  else [].

Module TablePrivilegeGrant.

Record t : Type := mk {
  Database : gostring;
  Table : gostring;
  Privileges : list gostring;
  Grant : bool;
  UserOrRole : UserOrRole.t;
  TLSOption : gostring
}.

Definition GetDatabase (g : t) : gostring :=
  if negb (streq (Database g) (go "*")) &&
     negb (strings.HasSuffix (Database g) (go "`"))
  then go "`" ++ Database g ++ go "`"
  else Database g.

Definition GetTable (g : t) : gostring :=
  if streq (Table g) (go "*") || streq (Table g) []
  then go "*"
  else go "`" ++ Table g ++ go "`".

Definition GetId (g : t) : gostring :=
  match UserOrRole g with
  | User user host => user ++ go "@" ++ host ++ go ":" ++ GetDatabase g
  | Role role => role ++ go ":" ++ GetDatabase g
  end.

Definition SQLGrantStatement {T : CaseTables} (g : t) : gostring :=
  go "GRANT " ++ strings.Join (Privileges g) (go ", ")
  ++ go " ON " ++ GetDatabase g ++ go "." ++ GetTable g
  ++ go " TO " ++ UserOrRole.SQLString (UserOrRole g)
  ++ requireClause (TLSOption g)
  ++ (if Grant g then go " WITH GRANT OPTION" else []).

Definition SQLPartialRevokePrivilegesStatement (g : t)
           (privilegesToRevoke : list gostring) : gostring :=
  go "REVOKE " ++ strings.Join privilegesToRevoke (go ", ")
  ++ go " ON " ++ GetDatabase g ++ go "." ++ GetTable g
  ++ go " FROM " ++ UserOrRole.SQLString (UserOrRole g)
  ++ (if Grant g then go " WITH GRANT OPTION" else []).

Definition SQLRevokeStatement (g : t) : gostring :=
  go "REVOKE " ++ strings.Join (Privileges g) (go ", ")
  ++ go " ON " ++ GetDatabase g ++ go "." ++ GetTable g
  ++ go " FROM " ++ UserOrRole.SQLString (UserOrRole g)
  ++ (if Grant g then go " WITH GRANT OPTION" else []).

End TablePrivilegeGrant.

Module ProcedurePrivilegeGrant.

Record t : Type := mk {
  Database : gostring;
  ObjectT : ObjectT;
  CallableName : gostring;
  Privileges : list gostring;
  Grant : bool;
  UserOrRole : UserOrRole.t;
  TLSOption : gostring
}.

Definition GetDatabase (g : t) : gostring :=
  if negb (streq (Database g) (go "*")) &&
     negb (strings.HasSuffix (Database g) (go "`"))
  then go "`" ++ Database g ++ go "`"
  else Database g.

Definition GetId (g : t) : gostring :=
  match UserOrRole g with
  | User user host => user ++ go "@" ++ host ++ go ":" ++ GetDatabase g
  | Role role => role ++ go ":" ++ GetDatabase g
  end.

Definition SQLGrantStatement {T : CaseTables} (g : t) : gostring :=
  go "GRANT " ++ strings.Join (Privileges g) (go ", ")
  ++ go " ON " ++ ObjectT g ++ go " " ++ GetDatabase g
  ++ go "." ++ CallableName g
  ++ go " TO " ++ UserOrRole.SQLString (UserOrRole g)
  ++ requireClause (TLSOption g)
  ++ (if Grant g then go " WITH GRANT OPTION" else []).

Definition SQLPartialRevokePrivilegesStatement (g : t)
           (privilegesToRevoke : list gostring) : gostring :=
  go "REVOKE " ++ strings.Join privilegesToRevoke (go ", ")
  ++ go " ON " ++ ObjectT g ++ go " " ++ GetDatabase g
  ++ go "." ++ CallableName g
  ++ go " FROM " ++ UserOrRole.SQLString (UserOrRole g)
  ++ (if Grant g then go " WITH GRANT OPTION" else []).

Definition SQLRevokeStatement (g : t) : gostring :=
  go "REVOKE " ++ strings.Join (Privileges g) (go ", ")
  ++ go " ON " ++ ObjectT g ++ go " " ++ GetDatabase g
  ++ go "." ++ CallableName g
  ++ go " FROM " ++ UserOrRole.SQLString (UserOrRole g)
  ++ (if Grant g then go " WITH GRANT OPTION" else []).

End ProcedurePrivilegeGrant.

Module RoleGrant.

Record t : Type := mk {
  Roles : list gostring;
  Grant : bool;
  UserOrRole : UserOrRole.t;
  TLSOption : gostring
}.

Definition GetId (g : t) : gostring :=
  match UserOrRole g with
  | User user host => user ++ go "@" ++ host
  | Role role => role
  end.

Definition SQLGrantStatement {T : CaseTables} (g : t) : gostring :=
  go "GRANT " ++ strings.Join (Roles g) (go ", ")
  ++ go " TO " ++ UserOrRole.SQLString (UserOrRole g)
  ++ requireClause (TLSOption g)
  ++ (if Grant g then go " WITH ADMIN OPTION" else []).

Definition SQLRevokeStatement (g : t) : gostring :=
  go "REVOKE " ++ strings.Join (Roles g) (go ", ")
  ++ go " FROM " ++ UserOrRole.SQLString (UserOrRole g).

End RoleGrant.

(** The interface [MySQLGrant]: a value of it is a pointer to one of the
    three grant structs (the nil interface is [None] of the option type). *)
Inductive MySQLGrant : Type :=
| TableG (t : TablePrivilegeGrant.t)
| ProcedureG (p : ProcedurePrivilegeGrant.t)
| RoleG (r : RoleGrant.t).

Definition GetId (g : MySQLGrant) : gostring :=
  match g with
  | TableG t => TablePrivilegeGrant.GetId t
  | ProcedureG p => ProcedurePrivilegeGrant.GetId p
  | RoleG r => RoleGrant.GetId r
  end.

Definition SQLGrantStatement {T : CaseTables} (g : MySQLGrant) : gostring :=
  match g with
  | TableG t => TablePrivilegeGrant.SQLGrantStatement t
  | ProcedureG p => ProcedurePrivilegeGrant.SQLGrantStatement p
  | RoleG r => RoleGrant.SQLGrantStatement r
  end.

Definition SQLRevokeStatement (g : MySQLGrant) : gostring :=
  match g with
  | TableG t => TablePrivilegeGrant.SQLRevokeStatement t
  | ProcedureG p => ProcedurePrivilegeGrant.SQLRevokeStatement p
  | RoleG r => RoleGrant.SQLRevokeStatement r
  end.

Definition GetUserOrRole (g : MySQLGrant) : UserOrRole.t :=
  match g with
  | TableG t => TablePrivilegeGrant.UserOrRole t
  | ProcedureG p => ProcedurePrivilegeGrant.UserOrRole p
  | RoleG r => RoleGrant.UserOrRole r
  end.

Definition GrantOption (g : MySQLGrant) : bool :=
  match g with
  | TableG t => TablePrivilegeGrant.Grant t
  | ProcedureG p => ProcedurePrivilegeGrant.Grant p
  | RoleG r => RoleGrant.Grant r
  end.

(** The type assertion [grant.(MySQLGrantWithDatabase)], with the value of
    [GetDatabase] when it holds. *)
Definition MySQLGrantWithDatabase (g : MySQLGrant) : option gostring :=
  match g with
  | TableG t => Some (TablePrivilegeGrant.GetDatabase t)
  | ProcedureG p => Some (ProcedurePrivilegeGrant.GetDatabase p)
  | RoleG _ => None
  end.

(** The type assertion [grant.(MySQLGrantWithTable)], with the value of
    [GetTable] when it holds. *)
Definition MySQLGrantWithTable (g : MySQLGrant) : option gostring :=
  match g with
  | TableG t => Some (TablePrivilegeGrant.GetTable t)
  | ProcedureG _ => None
  | RoleG _ => None
  end.

(** The type assertion [grant.(PrivilegesPartiallyRevocable)], with the
    method [SQLPartialRevokePrivilegesStatement] when it holds. *)
Definition PrivilegesPartiallyRevocable (g : MySQLGrant)
  : option (list gostring -> gostring) :=
  match g with
  | TableG t =>
      Some (TablePrivilegeGrant.SQLPartialRevokePrivilegesStatement t)
  | ProcedureG p =>
      Some (ProcedurePrivilegeGrant.SQLPartialRevokePrivilegesStatement p)
  | RoleG _ => None
  end.

(** [reflect.TypeOf] of a grant. *)
Inductive grantType : Type := PtrTablePrivilegeGrant
                            | PtrProcedurePrivilegeGrant
                            | PtrRoleGrant.

Definition TypeOf (g : MySQLGrant) : grantType :=
  match g with
  | TableG _ => PtrTablePrivilegeGrant
  | ProcedureG _ => PtrProcedurePrivilegeGrant
  | RoleG _ => PtrRoleGrant
  end.

Definition grantType_eqb (a b : grantType) : bool :=
  match a, b with
  | PtrTablePrivilegeGrant, PtrTablePrivilegeGrant => true
  | PtrProcedurePrivilegeGrant, PtrProcedurePrivilegeGrant => true
  | PtrRoleGrant, PtrRoleGrant => true
  | _, _ => false
  end.

(* ================================================================= *)
(** ** The patterns of the program *)

Import regexp.

(** [regexp.MustCompile]: the pattern text of the source and its compiled
    form. *)
Definition MustCompile (pattern : string) (compiled : Regexp) : Regexp :=
  compiled.

Definition kReProcedureWithoutDatabase : Regexp :=
  MustCompile
    "(?i)^(function|procedure) ([^.]*)$"
    (Cats [BeginText;
           Capture 1 (Alt (LitFold (go "function")) (LitFold (go "procedure")));
           Class (chr " ");
           Capture 2 (Star (notchr "."));
           EndText]).

Definition kReProcedureWithDatabase : Regexp :=
  MustCompile
    "(?i)^(function|procedure) ([^.]*)\.([^.]*)$"
    (Cats [BeginText;
           Capture 1 (Alt (LitFold (go "function")) (LitFold (go "procedure")));
           Class (chr " ");
           Capture 2 (Star (notchr "."));
           Class (chr ".");
           Capture 3 (Star (notchr "."));
           EndText]).

Definition reRequire : Regexp :=
  MustCompile
    ".*REQUIRE\s+(.*)"
    (Cats [Star dot; Lit (go "REQUIRE"); Plus space; Capture 1 (Star dot)]).

Definition userHostRegex : Regexp :=
  MustCompile
    "'([^']*)'(@'([^']*)')?"
    (Cats [Class (chr "'");
           Capture 1 (Star (notchr "'"));
           Class (chr "'");
           Quest (Capture 2 (Cats [Class (chr "@");
                                   Class (chr "'");
                                   Capture 3 (Star (notchr "'"));
                                   Class (chr "'")]))]).

Definition roleRegex : Regexp :=
  MustCompile
    "'[^']+'"
    (Cats [Class (chr "'"); Plus (notchr "'"); Class (chr "'")]).

Definition roleGrantRegex : Regexp :=
  MustCompile
    "GRANT\s+([\w\s,]+)\s+TO\s+(.+)"
    (Cats [Lit (go "GRANT"); Plus space;
           Capture 1 (Plus word_space_comma); Plus space;
           Lit (go "TO"); Plus space;
           Capture 2 (Plus dot)]).

Definition reGrant : Regexp :=
  MustCompile
    "\bGRANT OPTION\b|\bADMIN OPTION\b"
    (Alt (Cats [WordBoundary; Lit (go "GRANT OPTION"); WordBoundary])
         (Cats [WordBoundary; Lit (go "ADMIN OPTION"); WordBoundary])).

Definition procedureGrantRegex : Regexp :=
  MustCompile
    "GRANT\s+([\w\s,]+)\s+ON\s+(FUNCTION|PROCEDURE)\s+([\w\s,]+)\s+TO\s+(.+)"
    (Cats [Lit (go "GRANT"); Plus space;
           Capture 1 (Plus word_space_comma); Plus space;
           Lit (go "ON"); Plus space;
           Capture 2 (Alt (Lit (go "FUNCTION")) (Lit (go "PROCEDURE")));
           Plus space;
           Capture 3 (Plus word_space_comma); Plus space;
           Lit (go "TO"); Plus space;
           Capture 4 (Plus dot)]).

Definition tableGrantRegex : Regexp :=
  MustCompile
    "GRANT\s+([\w\s,]+)\s+ON\s+(.+)\s+TO\s+(.+)"
    (Cats [Lit (go "GRANT"); Plus space;
           Capture 1 (Plus word_space_comma); Plus space;
           Lit (go "ON"); Plus space;
           Capture 2 (Plus dot); Plus space;
           Lit (go "TO"); Plus space;
           Capture 3 (Plus dot)]).

(** The pattern of [normalizeColumnOrder]. *)
Definition columnListRegex : Regexp :=
  MustCompile
    "^([^(]*)\((.*)\)$"
    (Cats [BeginText;
           Capture 1 (Star (notchr "("));
           Class (chr "(");
           Capture 2 (Star dot);
           Class (chr ")");
           EndText]).

(** The pattern of [normalizePerms], one character class: space or
    backtick. *)
Definition spaceOrBacktick (r : rune) : bool :=
  N.eqb r (rn " ") || N.eqb r (rn "`").

(* ================================================================= *)
(** ** Privilege canonicalizer and tokenizer *)

Fixpoint removeUselessPerms (grants : list gostring) : list gostring :=
  match grants with
  | [] => []
  | grant :: grants' =>
      if negb (streq grant (go "USAGE"))
      then grant :: removeUselessPerms grants'
      else removeUselessPerms grants'
  end.

(** The loop of [extractPermTypes] over the runes of [g], with its three
    variables. *)
Fixpoint extractPermTypes_loop (g : gostring) (grants : list gostring)
         (inParentheses : bool) (currentWord : gostring) : list gostring :=
  match g with
  | [] => grants ++ [currentWord]
  | b :: g' =>
      if N.eqb b (rn ",") then
        if inParentheses
        then extractPermTypes_loop g' grants inParentheses (currentWord ++ [b])
        else extractPermTypes_loop g' (grants ++ [currentWord]) inParentheses []
      else if N.eqb b (rn "(") then
        extractPermTypes_loop g' grants true (currentWord ++ [b])
      else if N.eqb b (rn ")") then
        extractPermTypes_loop g' grants false (currentWord ++ [b])
      else if unicode.IsSpace b && Nat.eqb (length currentWord) 0 then
        extractPermTypes_loop g' grants inParentheses currentWord
      else
        extractPermTypes_loop g' grants inParentheses (currentWord ++ [b])
  end.

Definition extractPermTypes (g : gostring) : list gostring :=
  extractPermTypes_loop g [] false [].

Definition normalizeColumnOrder (perm : gostring) : gostring :=
  let m := FindStringSubmatch columnListRegex perm in
  if Nat.eqb (length m) 0 || Nat.ltb (length m) 3 then perm
  else
    let parts := strings.Split (index m 2) (rn ",") in
    let parts := map (fun p => strings.Trim p (go "` ")) parts in
    let parts := sort.Strings parts in
    let partsTogether := strings.Join parts (go ", ") in
    index m 1 ++ go "(" ++ partsTogether ++ go ")".

(** The body of the loop of [normalizePerms]. *)
Definition normalizePerm {T : CaseTables} (perm : gostring) : gostring :=
  let permNorm := ReplaceAllString spaceOrBacktick perm [] in
  let permUcase := strings.ToUpper permNorm in
  let permUcase :=
    if streq permUcase (go "ALL") || streq permUcase (go "ALLPRIVILEGES")
    then go "ALL PRIVILEGES"
    else permUcase in
  normalizeColumnOrder permUcase.

Definition normalizePerms {T : CaseTables} (perms : list gostring)
  : list gostring :=
  removeUselessPerms (map normalizePerm perms).

(* ================================================================= *)
(** ** Statement parser *)

Definition failedToParse (grantStr : gostring) : error :=
  errorString (go "failed to parse grant statement: " ++ grantStr).

(** [parseGrantFromRow]: [Ok None] is the pair of two nils returned for a
    [REVOKE] line. *)
Definition parseGrantFromRow {T : CaseTables} (grantStr : gostring)
  : res (option MySQLGrant) :=
  if strings.HasPrefix grantStr (go "REVOKE") then Ok None
  else
    let tlsOption :=
      let requireMatches := FindStringSubmatch reRequire grantStr in
      if Nat.eqb (length requireMatches) 2 then index requireMatches 1
      else [] in
    let userOrRole : option UserOrRole.t :=
      let userHostMatches := FindStringSubmatch userHostRegex grantStr in
      if Nat.eqb (length userHostMatches) 4 then
        let user := strings.Trim (index userHostMatches 1) (go "`' ") in
        let host := strings.Trim (index userHostMatches 3) (go "`' ") in
        Some (User user host)
      else
        let roleMatches := FindStringSubmatch roleRegex grantStr in
        if Nat.eqb (length roleMatches) 1 then
          let role := strings.Trim (index roleMatches 0) (go "`' ") in
          Some (Role role)
        else None in
    match userOrRole with
    | None => Err (failedToParse grantStr)
    | Some userOrRole =>
        let roleMatches := FindStringSubmatch roleGrantRegex grantStr in
        if Nat.eqb (length roleMatches) 3 then
          let rolesStart := strings.Split (index roleMatches 1) (rn ",") in
          let roles :=
            map (fun role => strings.Trim role (go "`@%" ++ [dquote] ++ go " "))
                rolesStart in
          Ok (Some (RoleG
            {| RoleGrant.Roles := roles;
               RoleGrant.Grant := MatchString reGrant grantStr;
               RoleGrant.UserOrRole := userOrRole;
               RoleGrant.TLSOption := tlsOption |}))
        else
          let procedureMatches :=
            FindStringSubmatch procedureGrantRegex grantStr in
          if Nat.eqb (length procedureMatches) 5 then
            let privsStr := index procedureMatches 1 in
            let privileges := extractPermTypes privsStr in
            let privileges := normalizePerms privileges in
            Ok (Some (ProcedureG
              {| ProcedurePrivilegeGrant.Database :=
                   strings.Trim (index procedureMatches 3) (go "`" ++ [dquote]);
                 ProcedurePrivilegeGrant.ObjectT := index procedureMatches 2;
                 ProcedurePrivilegeGrant.CallableName :=
                   strings.Trim (index procedureMatches 3) (go "`" ++ [dquote]);
                 ProcedurePrivilegeGrant.Privileges := privileges;
                 ProcedurePrivilegeGrant.Grant := MatchString reGrant grantStr;
                 ProcedurePrivilegeGrant.UserOrRole := userOrRole;
                 ProcedurePrivilegeGrant.TLSOption := tlsOption |}))
          else
            let tableMatches := FindStringSubmatch tableGrantRegex grantStr in
            if Nat.eqb (length tableMatches) 4 then
              let privsStr := index tableMatches 1 in
              let privileges := extractPermTypes privsStr in
              let privileges := normalizePerms privileges in
              Ok (Some (TableG
                {| TablePrivilegeGrant.Database :=
                     strings.Trim (index tableMatches 2) (go "`" ++ [dquote]);
                   TablePrivilegeGrant.Table :=
                     strings.Trim (index tableMatches 3) (go "`" ++ [dquote]);
                   TablePrivilegeGrant.Privileges := privileges;
                   TablePrivilegeGrant.Grant := MatchString reGrant grantStr;
                   TablePrivilegeGrant.UserOrRole := userOrRole;
                   TablePrivilegeGrant.TLSOption := tlsOption |}))
            else Err (failedToParse grantStr)
    end.

(* ================================================================= *)
(** ** The database and the effects of an operation *)

(** A statement sent to the database: through [db.ExecContext] or through
    [db.QueryContext]. *)
Inductive request : Type :=
| Exec (stmt : gostring)
| Query (stmt : gostring).

(** One row of a result set: what [rows.Scan] gives for it. *)
Definition row := res gostring.

(** [*sql.DB]: the reply of the server to a statement, after the requests
    made so far. *)
Record sqlDB : Type := {
  ExecReply : list request -> gostring -> option error;
  QueryReply : list request -> gostring -> res (list row)
}.

(** An operation ends with a value or panics; it threads the list of the
    requests made so far. *)
Inductive outcome (A : Type) : Type :=
| Done (a : A)
| Panic (msg : gostring).
Arguments Done {A} a.
Arguments Panic {A} msg.

Definition M (A : Type) : Type := list request -> outcome A * list request.

Definition ret {A : Type} (a : A) : M A := fun tr => (Done a, tr).

Definition bind {A B : Type} (m : M A) (f : A -> M B) : M B :=
  fun tr =>
    match m tr with
    | (Done a, tr') => f a tr'
    | (Panic msg, tr') => (Panic msg, tr')
    end.

Definition panic {A : Type} (msg : gostring) : M A := fun tr => (Panic msg, tr).

Declare Scope go_scope.
Delimit Scope go_scope with go.
Notation "x <- m ;; k" := (bind m (fun x => k))
  (at level 61, m at next level, right associativity) : go_scope.
Notation "' pat <- m ;; k" :=
  (bind m (fun x => match x with pat => k end))
  (at level 61, pat pattern, m at next level, right associativity) : go_scope.
Local Open Scope go_scope.

Definition ExecContext (db : sqlDB) (stmt : gostring) : M (option error) :=
  fun tr => (Done (ExecReply db tr stmt), tr ++ [Exec stmt]).

Definition QueryContext (db : sqlDB) (stmt : gostring) : M (res (list row)) :=
  fun tr => (Done (QueryReply db tr stmt), tr ++ [Query stmt]).

(** A method call through an interface value: the nil interface panics. *)
Definition nilDereference : gostring :=
  go "runtime error: invalid memory address or nil pointer dereference".

Definition deref {A : Type} (grant : option A) : M A :=
  match grant with
  | Some g => ret g
  | None => panic nilDereference
  end.

Module diag.

(** [diag.Errorf], the message already formatted. *)
Definition Errorf (msg : gostring) : Diagnostics := [msg].

Definition FromErr (err : error) : Diagnostics := [Error err].

End diag.

(** [fmt.Errorf], the message already formatted. *)
Definition Errorf (msg : gostring) : error := errorString msg.

(* ================================================================= *)
(** ** The resource data of the framework *)

Module schema.

(** [*schema.ResourceData] of the resource [mysql_grant]: its id and the
    value [Get] returns for each attribute (the declared value or the
    default of the schema). A set attribute is the list [Set.List()] gives;
    [privileges_prior] is the value of [privileges] in the prior state,
    the first component of [GetChange]. *)
Record ResourceData : Type := mk {
  Id : gostring;
  user : gostring;
  role : gostring;
  host : gostring;
  database : gostring;
  table : gostring;
  privileges : list gostring;
  privileges_prior : list gostring;
  roles : list gostring;
  grant : bool;
  tls_option : gostring
}.

(** [GetOk] on a string attribute: the value, and whether it is not the
    zero value. *)
Definition GetOk (v : gostring) : gostring * bool :=
  (v, negb (streq v [])).

(** [GetOk] on a set attribute. *)
Definition GetOkSet (v : list gostring) : list gostring * bool :=
  (v, negb (Nat.eqb (length v) 0)).

(** [a.Difference(b).List()]: the elements of [a] that are not in [b]; the
    order of [List()] is a fixed order of the elements, so the list of the
    difference is the list of [a] without those elements. *)
Definition Difference (a b : list gostring) : list gostring :=
  filter (fun x => negb (existsb (streq x) b)) a.

Definition SetId (d : ResourceData) (v : gostring) : ResourceData :=
  mk v (user d) (role d) (host d) (database d) (table d) (privileges d)
     (privileges_prior d) (roles d) (grant d) (tls_option d).

(** [resourceGrant().Data(nil)]: every attribute at its default. *)
Definition Data_nil : ResourceData :=
  mk [] [] [] (go "localhost") [] (go "*") [] [] [] false (go "NONE").

End schema.

Definition setToArray (s : list gostring) : list gostring := s.

Definition parseResourceFromData {T : CaseTables} (d : schema.ResourceData)
  : option MySQLGrant * Diagnostics :=
  let '(userAttr, userOk) := schema.GetOk (schema.user d) in
  let '(hostAttr, hostOk) := schema.GetOk (schema.host d) in
  let '(roleAttr, roleOk) := schema.GetOk (schema.role d) in
  let userOrRole : option UserOrRole.t :=
    if userOk && hostOk && negb (streq userAttr []) && negb (streq hostAttr [])
    then Some (User userAttr hostAttr)
    else if roleOk && negb (streq roleAttr [])
         then Some (Role roleAttr)
         else None in
  match userOrRole with
  | None => (None, diag.Errorf (go "One of user/host or role is required"))
  | Some userOrRole =>
      let database := schema.database d in
      let tlsOption := schema.tls_option d in
      let grantOption := schema.grant d in
      let '(attr, ok) := schema.GetOkSet (schema.roles d) in
      if ok then
        let roles := setToArray attr in
        (Some (RoleG {| RoleGrant.Roles := roles;
                        RoleGrant.Grant := grantOption;
                        RoleGrant.UserOrRole := userOrRole;
                        RoleGrant.TLSOption := tlsOption |}), [])
      else if MatchString kReProcedureWithDatabase database
              || MatchString kReProcedureWithoutDatabase database then
        let '(callableType, database, callableName) :=
          if MatchString kReProcedureWithDatabase database then
            let matches :=
              FindStringSubmatch kReProcedureWithDatabase database in
            (index matches 1, index matches 2, index matches 3)
          else
            let matches :=
              FindStringSubmatch kReProcedureWithoutDatabase database in
            (index matches 1, index matches 2, schema.table d) in
        let privsList := setToArray (schema.privileges d) in
        let privileges := normalizePerms privsList in
        (Some (ProcedureG
           {| ProcedurePrivilegeGrant.Database := database;
              ProcedurePrivilegeGrant.ObjectT := callableType;
              ProcedurePrivilegeGrant.CallableName := callableName;
              ProcedurePrivilegeGrant.Privileges := privileges;
              ProcedurePrivilegeGrant.Grant := grantOption;
              ProcedurePrivilegeGrant.UserOrRole := userOrRole;
              ProcedurePrivilegeGrant.TLSOption := tlsOption |}), [])
      else
        let privsList := setToArray (schema.privileges d) in
        let privileges := normalizePerms privsList in
        (Some (TableG
           {| TablePrivilegeGrant.Database := database;
              TablePrivilegeGrant.Table := schema.table d;
              TablePrivilegeGrant.Privileges := privileges;
              TablePrivilegeGrant.Grant := grantOption;
              TablePrivilegeGrant.UserOrRole := userOrRole;
              TablePrivilegeGrant.TLSOption := tlsOption |}), [])
  end.

(** [setDataFromGrant] copies the values of the grant to the resource
    data. *)
Definition setDataFromGrant (grant : MySQLGrant) (d : schema.ResourceData)
  : schema.ResourceData :=
  let d :=
    match grant with
    | TableG tableGrant =>
        schema.mk (schema.Id d) (schema.user d) (schema.role d) (schema.host d)
          (TablePrivilegeGrant.Database tableGrant)
          (TablePrivilegeGrant.Table tableGrant)
          (TablePrivilegeGrant.Privileges tableGrant)
          (schema.privileges_prior d) (schema.roles d)
          (GrantOption grant)
          (TablePrivilegeGrant.TLSOption tableGrant)
    | ProcedureG procedureGrant =>
        schema.mk (schema.Id d) (schema.user d) (schema.role d) (schema.host d)
          (ProcedurePrivilegeGrant.ObjectT procedureGrant ++ go " "
           ++ ProcedurePrivilegeGrant.Database procedureGrant ++ go "."
           ++ ProcedurePrivilegeGrant.CallableName procedureGrant)
          []
          (ProcedurePrivilegeGrant.Privileges procedureGrant)
          (schema.privileges_prior d) (schema.roles d)
          (GrantOption grant)
          (ProcedurePrivilegeGrant.TLSOption procedureGrant)
    | RoleG roleGrant =>
        schema.mk (schema.Id d) (schema.user d) (schema.role d) (schema.host d)
          (schema.database d) (schema.table d) (schema.privileges d)
          (schema.privileges_prior d)
          (RoleGrant.Roles roleGrant)
          (GrantOption grant)
          (RoleGrant.TLSOption roleGrant)
    end in
  match GetUserOrRole grant with
  | User user host =>
      schema.mk (schema.Id d) user (schema.role d) host
        (schema.database d) (schema.table d) (schema.privileges d)
        (schema.privileges_prior d) (schema.roles d) (schema.grant d)
        (schema.tls_option d)
  | Role role =>
      schema.mk (schema.Id d) (schema.user d) role (schema.host d)
        (schema.database d) (schema.table d) (schema.privileges d)
        (schema.privileges_prior d) (schema.roles d) (schema.grant d)
        (schema.tls_option d)
  end.

(** Modelled from the spec: [getDatabaseFromMeta] and [getVersionFromMeta]
    are functions of the provider, outside this file. The connection layer
    hands the operation a database handle or an error, and a probe tells
    whether the detected version is greater than the threshold 8.0.0; the
    provider configuration [meta] is the pair of these. *)
Record Meta : Type := {
  getDatabaseFromMeta : res sqlDB;
  versionGreaterThan_8_0_0 : bool
}.

Definition supportsRoles (meta : Meta) : bool * option error :=
  let hasRoles := versionGreaterThan_8_0_0 meta in
  (hasRoles, None).

(* ================================================================= *)
(** ** Reconciliation *)

Definition isNonExistingGrant (err : option error) : bool :=
  match err with
  | Some (MySQLError Number _) =>
      (* 1141 = ER_NONEXISTING_GRANT
         1147 = ER_NONEXISTING_TABLE_GRANT
         1403 = ER_NONEXISTING_PROC_GRANT *)
      if ((Number =? 1141) || (Number =? 1147) || (Number =? 1403))%N
      then true
      else false
  | _ => false
  end.

(** The loop of [showUserGrants] over the rows of the result set. *)
Fixpoint showUserGrants_rows {T : CaseTables} (rows : list row)
         (userOrRole : UserOrRole.t) (grants : list MySQLGrant)
  : res (list MySQLGrant) :=
  match rows with
  | [] => Ok grants
  | r :: rows' =>
      match r with
      | Err err =>
          Err (Errorf (go "showUserGrants - reading row failed: " ++ Error err))
      | Ok rawGrant =>
          match parseGrantFromRow rawGrant with
          | Err err => Err err
          | Ok None => showUserGrants_rows rows' userOrRole grants
          | Ok (Some parsedGrant) =>
              if negb (streq (UserOrRole.SQLString (GetUserOrRole parsedGrant))
                             (UserOrRole.SQLString userOrRole))
              then showUserGrants_rows rows' userOrRole grants
              else showUserGrants_rows rows' userOrRole (grants ++ [parsedGrant])
          end
      end
  end.

Definition showUserGrants {T : CaseTables} (db : sqlDB)
           (userOrRole : UserOrRole.t) : M (res (list MySQLGrant)) :=
  let sqlStatement := go "SHOW GRANTS FOR " ++ UserOrRole.SQLString userOrRole in
  reply <- QueryContext db sqlStatement ;;
  let err := match reply with Err err => Some err | Ok _ => None end in
  if isNonExistingGrant err then ret (Ok [])
  else
    match reply with
    | Err err =>
        ret (Err (Errorf (go "showUserGrants - getting grants failed: "
                          ++ Error err)))
    | Ok rows => ret (showUserGrants_rows rows userOrRole [])
    end.

(** The loop of [hasConflictingGrants] over the live grants. *)
Fixpoint hasConflictingGrants_loop (desiredGrant : MySQLGrant)
         (allGrants : list MySQLGrant) : bool :=
  match allGrants with
  | [] => false
  | dbGrant :: allGrants' =>
      if negb (Bool.eqb (GrantOption desiredGrant) (GrantOption dbGrant))
      then hasConflictingGrants_loop desiredGrant allGrants'
      else if grantType_eqb (TypeOf desiredGrant) (TypeOf dbGrant)
           then true
           else hasConflictingGrants_loop desiredGrant allGrants'
  end.

Definition hasConflictingGrants {T : CaseTables} (db : sqlDB)
           (desiredGrant : option MySQLGrant) : M (bool * option error) :=
  desired <- deref desiredGrant ;;
  r <- showUserGrants db (GetUserOrRole desired) ;;
  match r with
  | Err err =>
      ret (false, Some (Errorf (go "showGrant - getting all grants failed: "
                                ++ Error err)))
  | Ok allGrants => ret (hasConflictingGrants_loop desired allGrants, None)
  end.

Definition ReadGrant {T : CaseTables} (d : schema.ResourceData) (meta : Meta)
  : M (Diagnostics * schema.ResourceData) :=
  match getDatabaseFromMeta meta with
  | Err err =>
      ret (diag.Errorf (go "failed getting database from Meta: " ++ Error err),
           d)
  | Ok db =>
      let '(grant, diagErr) := parseResourceFromData d in
      match diagErr with
      | _ :: _ => ret (diagErr, d)
      | [] =>
          g <- deref grant ;;
          r <- showUserGrants db (GetUserOrRole g) ;;
          match r with
          | Err err =>
              ret (diag.Errorf (go "showGrant - getting all grants failed: "
                                ++ Error err), d)
          | Ok allGrants =>
              if Nat.eqb (length allGrants) 0
              then ret ([], schema.SetId d [])
              else ret ([], setDataFromGrant g d)
          end
      end
  end.

Definition isRoleGrant (grant : option MySQLGrant) : bool :=
  match grant with
  | Some (RoleG _) => true
  | _ => false
  end.

Definition CreateGrant {T : CaseTables} (d : schema.ResourceData) (meta : Meta)
  : M (Diagnostics * schema.ResourceData) :=
  match getDatabaseFromMeta meta with
  | Err err => ret (diag.FromErr err, d)
  | Ok db =>
      let err : option error := None in
      let '(grant, diagErr) := parseResourceFromData d in
      match err with
      | Some _ => ret (diagErr, d)
      | None =>
          let '(hasRolesSupport, err) := supportsRoles meta in
          match err with
          | Some err =>
              ret (diag.Errorf (go "failed getting role support: "
                                ++ Error err), d)
          | None =>
              if isRoleGrant grant && negb hasRolesSupport then
                ret (diag.Errorf
                       (go "role grants are not supported by this version of MySQL"),
                     d)
              else
                '(hasConflicts, err) <- hasConflictingGrants db grant ;;
                match err with
                | Some err =>
                    ret (diag.Errorf (go "failed showing grants: "
                                      ++ Error err), d)
                | None =>
                    if hasConflicts : bool then
                      g <- deref grant ;;
                      ret (diag.Errorf
                             (go "user/role "
                              ++ UserOrRole.Sprint (GetUserOrRole g)
                              ++ go " already has unmanaged grant - import it first"),
                           d)
                    else
                      g <- deref grant ;;
                      let stmtSQL := SQLGrantStatement g in
                      err <- ExecContext db stmtSQL ;;
                      match err with
                      | Some err =>
                          ret (diag.Errorf (go "Error running SQL (" ++ stmtSQL
                                            ++ go "): " ++ Error err), d)
                      | None =>
                          let d := schema.SetId d (GetId g) in
                          ReadGrant d meta
                      end
                end
          end
      end
  end.

Definition updatePrivileges {T : CaseTables} (db : sqlDB)
           (d : schema.ResourceData) (grant : MySQLGrant) : M (option error) :=
  let oldPrivs := schema.privileges_prior d in
  let newPrivs := schema.privileges d in
  let grantIfs := schema.Difference newPrivs oldPrivs in
  let revokeIfs := schema.Difference oldPrivs newPrivs in
  (* Do a partial revoke of anything that has been removed *)
  returned <-
    (if Nat.ltb 0 (length revokeIfs) then
       let revokes := revokeIfs in
       match PrivilegesPartiallyRevocable grant with
       | None =>
           ret (Some (Errorf
                  (go "grant does not support partial privilege revokes")))
       | Some SQLPartialRevokePrivilegesStatement =>
           let sqlCommand := SQLPartialRevokePrivilegesStatement revokes in
           ExecContext db sqlCommand
       end
     else ret None) ;;
  match returned with
  | Some err => ret (Some err)
  | None =>
      (* Do a full grant if anything has been added *)
      if Nat.ltb 0 (length grantIfs) then
        let sqlCommand := SQLGrantStatement grant in
        ExecContext db sqlCommand
      else ret None
  end.

Definition HasChange_privileges (d : schema.ResourceData) : bool :=
  negb (if list_eq_dec (list_eq_dec N.eq_dec)
             (schema.privileges_prior d) (schema.privileges d)
        then true else false).

Definition UpdateGrant {T : CaseTables} (d : schema.ResourceData) (meta : Meta)
  : M Diagnostics :=
  match getDatabaseFromMeta meta with
  | Err err => ret (diag.FromErr err)
  | Ok db =>
      if HasChange_privileges d then
        let '(grant, diagErr) := parseResourceFromData d in
        match diagErr with
        | _ :: _ => ret diagErr
        | [] =>
            g <- deref grant ;;
            err <- updatePrivileges db d g ;;
            match err with
            | Some err =>
                ret (diag.Errorf (go "failed updating privileges: "
                                  ++ Error err))
            | None => ret []
            end
        end
      else ret []
  end.

Definition DeleteGrant {T : CaseTables} (d : schema.ResourceData) (meta : Meta)
  : M Diagnostics :=
  match getDatabaseFromMeta meta with
  | Err err => ret (diag.FromErr err)
  | Ok db =>
      let err : option error := None in
      let '(grant, diagErr) := parseResourceFromData d in
      match err with
      | Some _ => ret diagErr
      | None =>
          g <- deref grant ;;
          let sqlStatement := SQLRevokeStatement g in
          err <- ExecContext db sqlStatement ;;
          match err with
          | Some e =>
              if negb (isNonExistingGrant err)
              then ret (diag.Errorf (go "error revoking ALL (" ++ sqlStatement
                                     ++ go "): " ++ Error e))
              else ret []
          | None => ret []
          end
      end
  end.

(** The loop of [ImportGrant] over the live grants: the first grant that
    passes the three tests. *)
Fixpoint ImportGrant_loop (grants : list MySQLGrant) (grantOption : bool)
         (database table : gostring) : option MySQLGrant :=
  match grants with
  | [] => None
  | grant :: grants' =>
      if negb (Bool.eqb (GrantOption grant) grantOption) then
        ImportGrant_loop grants' grantOption database table
      else if match MySQLGrantWithDatabase grant with
              | None => negb (streq database [])
              | Some GetDatabase => negb (streq GetDatabase database)
              end then
        ImportGrant_loop grants' grantOption database table
      else if match MySQLGrantWithTable grant with
              | None => negb (streq table [])
              | Some GetTable => negb (streq GetTable table)
              end then
        ImportGrant_loop grants' grantOption database table
      else Some grant
  end.

Definition ImportGrant {T : CaseTables} (d : schema.ResourceData) (meta : Meta)
  : M (res (list schema.ResourceData)) :=
  let userHostDatabaseTable := strings.Split (schema.Id d) (rn "@") in
  if negb (Nat.eqb (length userHostDatabaseTable) 4)
     && negb (Nat.eqb (length userHostDatabaseTable) 5) then
    ret (Err (Errorf (go "wrong ID format " ++ schema.Id d
                      ++ go " - expected user@host@database@table (and optionally ending @ to signify grant option) where some parts can be empty)")))
  else
    let user := index userHostDatabaseTable 0 in
    let host := index userHostDatabaseTable 1 in
    let database := index userHostDatabaseTable 2 in
    let table := index userHostDatabaseTable 3 in
    let grantOption := Nat.eqb (length userHostDatabaseTable) 5 in
    let userOrRole := User user host in
    match getDatabaseFromMeta meta with
    | Err err => ret (Err err)
    | Ok db =>
        r <- showUserGrants db userOrRole ;;
        match r with
        | Err err => ret (Err err)
        | Ok grants =>
            match ImportGrant_loop grants grantOption database table with
            | Some grant =>
                let res := schema.Data_nil in
                ret (Ok [setDataFromGrant grant res])
            | None => ret (Ok [])
            end
        end
    end.

(* ================================================================= *)
(** * Definitions of the verification *)

(** ** Instances for the closed examples *)

(** The case tables that leave every rune above ASCII alone: an instance for
    the closed examples, whose texts are ASCII. *)
Definition asciiTables : CaseTables :=
  {| upperTable := fun r => r; lowerTable := fun r => r |}.

(** A server that accepts every statement and has no rows. *)
Definition acceptAll : sqlDB :=
  {| ExecReply := fun _ _ => None; QueryReply := fun _ _ => Ok [] |}.

(** A server that rejects every statement with the given error. *)
Definition rejectAll (err : error) : sqlDB :=
  {| ExecReply := fun _ _ => Some err; QueryReply := fun _ _ => Err err |}.

(** An error of the driver that is none of the nonexistent-grant ones. *)
Definition accessDenied : error :=
  MySQLError 1045 (go "Error 1045: Access denied for user").

(** ** The scenarios of the specification *)

(** The login of the scenarios. *)
Definition bob : UserOrRole.t := User (go "bob") (go "%").

(** The table grant of the round-trip and of the import scenario. *)
Definition G : TablePrivilegeGrant.t :=
  {| TablePrivilegeGrant.Database := go "app";
     TablePrivilegeGrant.Table := go "users";
     TablePrivilegeGrant.Privileges := [go "SELECT"; go "INSERT"];
     TablePrivilegeGrant.Grant := false;
     TablePrivilegeGrant.UserOrRole := bob;
     TablePrivilegeGrant.TLSOption := [] |}.

(** The resource data of the diff scenario, from SELECT, INSERT to SELECT,
    UPDATE, and the grant declared by it. *)
Definition dDiff : schema.ResourceData :=
  schema.mk (go "bob@%:`app`") (go "bob") [] (go "%") (go "app") (go "users")
            [go "SELECT"; go "UPDATE"] [go "SELECT"; go "INSERT"] [] false
            (go "NONE").

Definition gDiff : MySQLGrant :=
  TableG {| TablePrivilegeGrant.Database := go "app";
            TablePrivilegeGrant.Table := go "users";
            TablePrivilegeGrant.Privileges := [go "SELECT"; go "UPDATE"];
            TablePrivilegeGrant.Grant := false;
            TablePrivilegeGrant.UserOrRole := bob;
            TablePrivilegeGrant.TLSOption := go "NONE" |}.

(** The conflict scenario: a server whose live grants of the login are one
    table grant without grant option, the resource data of another table
    grant of the same login, the grant declared by it, and the live grant as
    the parser reads it. *)
Definition dbConflict : sqlDB :=
  {| ExecReply := fun _ _ => None;
     QueryReply := fun _ _ =>
       Ok [Ok (go "GRANT SELECT ON `app`.`users` TO 'bob'@'%'")] |}.

Definition dConflict : schema.ResourceData :=
  schema.mk [] (go "bob") [] (go "%") (go "shop") (go "orders")
            [go "INSERT"] [] [] false (go "NONE").

Definition gConflict : MySQLGrant :=
  TableG {| TablePrivilegeGrant.Database := go "shop";
            TablePrivilegeGrant.Table := go "orders";
            TablePrivilegeGrant.Privileges := [go "INSERT"];
            TablePrivilegeGrant.Grant := false;
            TablePrivilegeGrant.UserOrRole := bob;
            TablePrivilegeGrant.TLSOption := go "NONE" |}.

Definition liveConflict : MySQLGrant :=
  TableG {| TablePrivilegeGrant.Database := go "app`.`users";
            TablePrivilegeGrant.Table := go "'bob'@'%'";
            TablePrivilegeGrant.Privileges := [go "SELECT"];
            TablePrivilegeGrant.Grant := false;
            TablePrivilegeGrant.UserOrRole := bob;
            TablePrivilegeGrant.TLSOption := [] |}.

(** ** The tokenizer of the specification *)

(** The tokenizer as the specification words it: the string is cut at the
    commas that stand outside a parenthesized list, the parenthesis state
    being one boolean ... *)
Fixpoint splitOutsideParentheses (g : gostring) (inParentheses : bool)
  : list gostring :=
  match g with
  | [] => [[]]
  | b :: g' =>
      if N.eqb b (rn ",") && negb inParentheses then
        [] :: splitOutsideParentheses g' inParentheses
      else
        let inParentheses' :=
          if N.eqb b (rn "(") then true
          else if N.eqb b (rn ")") then false
          else inParentheses in
        match splitOutsideParentheses g' inParentheses' with
        | w :: ws => (b :: w) :: ws
        | [] => [[b]]
        end
  end.

(** ... and the white space at the start of each token is discarded. *)
Definition tokenize (g : gostring) : list gostring :=
  map (dropWhile unicode.IsSpace) (splitOutsideParentheses g false).

(** What the word under construction becomes when the rest of its token is
    [w]: leading white space of [w] is dropped only while the word is still
    empty. *)
Definition complete (currentWord w : gostring) : gostring :=
  match currentWord with
  | [] => dropWhile unicode.IsSpace w
  | _ :: _ => currentWord ++ w
  end.

(** ** Predicates and closed forms *)

(** The test of the loop of [hasConflictingGrants]: same grant option flag
    and same type. *)
Definition sameShape (desiredGrant dbGrant : MySQLGrant) : bool :=
  Bool.eqb (GrantOption desiredGrant) (GrantOption dbGrant)
  && grantType_eqb (TypeOf desiredGrant) (TypeOf dbGrant).

Fixpoint takeWhile (A : Type) (p : A -> bool) (l : list A) : list A :=
  match l with
  | [] => []
  | x :: l' => if p x then x :: takeWhile p l' else []
  end.

(** What the pattern of [normalizeColumnOrder] finds in a privilege: the
    text before the first opening parenthesis and the text between it and
    the closing parenthesis that ends the privilege, when that text has no
    newline. *)
Definition columnList (perm : gostring) : option (gostring * gostring) :=
  match dropWhile (notchr "(") perm with
  | _ :: rest =>
      match rev rest with
      | y :: m =>
          if forallb dot (rev m) then
            if chr ")" y then Some (takeWhile (notchr "(") perm, rev m)
            else None
          else None
      | [] => None
      end
  | [] => None
  end.

(** A list of strings in the order of [sort.Strings]. *)
Inductive sorted : list gostring -> Prop :=
| sorted_nil : sorted []
| sorted_one x : sorted [x]
| sorted_cons x y l : sort.le x y = true -> sorted (y :: l) -> sorted (x :: y :: l).

(** A rune as the first steps of [normalizePerm] leave it: no space, no
    backtick, and its own upper case. *)
Definition canonical {T : CaseTables} (r : rune) : Prop :=
  spaceOrBacktick r = false /\ unicode.ToUpper r = r.

Definition Canonical {T : CaseTables} (s : gostring) : Prop :=
  forall r, In r s -> canonical r.

(* ================================================================= *)
(** * Definitions for the further properties *)

(** ** Requests and resource data *)

(** The number of occurrences of a rune in a string. *)
Fixpoint Count (s : gostring) (r : rune) : nat :=
  match s with
  | [] => 0
  | x :: s' => (if N.eqb x r then 1 else 0) + Count s' r
  end.

(** The requests of an operation are executions of statements only. *)
Definition onlyExecs (requests : list request) : Prop :=
  forall q, In q requests -> exists stmt, q = Exec stmt.

(** The identity a resource declares: the user and the host when both are
    given, else the role when it is given. *)
Definition declaredIdentity (d : schema.ResourceData) : option UserOrRole.t :=
  if negb (streq (schema.user d) []) && negb (streq (schema.host d) [])
  then Some (User (schema.user d) (schema.host d))
  else if negb (streq (schema.role d) [])
       then Some (Role (schema.role d))
       else None.

(** The one query of the live grants of an identity. *)
Definition showGrantsFor (userOrRole : UserOrRole.t) : request :=
  Query (go "SHOW GRANTS FOR " ++ UserOrRole.SQLString userOrRole).


(** The TLS option of a grant, of whatever kind. *)
Definition tlsOptionOf (g : MySQLGrant) : gostring :=
  match g with
  | TableG t => TablePrivilegeGrant.TLSOption t
  | ProcedureG p => ProcedurePrivilegeGrant.TLSOption p
  | RoleG r => RoleGrant.TLSOption r
  end.

(** ** Resources and servers of the closed examples *)

(** A resource owned by the role [editor], and a server that lists a grant
    of that role. *)
Definition dRole : schema.ResourceData :=
  schema.mk (go "editor:*") [] (go "editor") (go "localhost") (go "*") (go "*")
            [go "SELECT"] [] [] false (go "NONE").

Definition dbRole : sqlDB :=
  {| ExecReply := fun _ _ => None;
     QueryReply := fun _ _ => Ok [Ok (go "GRANT SELECT ON *.* TO 'editor'")] |}.


(** A resource that declares a role membership. *)
Definition dMember : schema.ResourceData :=
  schema.mk [] (go "bob") [] (go "%") [] (go "*") [] [] [go "editor"] false
            (go "NONE").



(** A table grant with the grant option and a TLS requirement. *)
Definition gRequire : MySQLGrant :=
  TableG {| TablePrivilegeGrant.Database := go "app";
            TablePrivilegeGrant.Table := go "users";
            TablePrivilegeGrant.Privileges := [go "SELECT"];
            TablePrivilegeGrant.Grant := true;
            TablePrivilegeGrant.UserOrRole := bob;
            TablePrivilegeGrant.TLSOption := go "SSL" |}.

(** ** Patterns compared by their matches *)

(** The continuation [k2] succeeds wherever [k1] does, whatever the groups
    recorded so far. *)
Definition succeedsWhere (k1 k2 : continuation) : Prop :=
  forall prev s c1 c2, k1 prev s c1 <> None -> k2 prev s c2 <> None.

(** The pattern [b] matches, with a continuation that succeeds wherever
    the other does, wherever [a] matches. *)
Definition covers (a b : Regexp) : Prop :=
  forall k1 k2,
    succeedsWhere k1 k2 ->
    succeedsWhere (fun prev s c => run a prev s c k1)
                  (fun prev s c => run b prev s c k2).

(** Every rune the pattern can consume is of the class [p]. *)
Fixpoint classesWithin (p : rune -> bool) (a : Regexp) : Prop :=
  match a with
  | Class q | Star q => forall r, q r = true -> p r = true
  | Cat a1 a2 | Alt a1 a2 => classesWithin p a1 /\ classesWithin p a2
  | Capture _ a1 => classesWithin p a1
  | Empty | BeginText | EndText | WordBoundary => True
  end.

(** The match of the pattern does not look at the rune before it. *)
Definition prevFree (a : Regexp) : Prop :=
  forall prev prev' s c k, run a prev s c k = run a prev' s c k.

(** ** Privileges that are one token *)

(** The parenthesis state of the tokenizer after the runes of [w], when
    none of them is a comma outside parentheses. *)
Fixpoint parenthesesAfter (w : gostring) (inParentheses : bool)
  : option bool :=
  match w with
  | [] => Some inParentheses
  | b :: w' =>
      if N.eqb b (rn ",") && negb inParentheses then None
      else parenthesesAfter w'
             (if N.eqb b (rn "(") then true
              else if N.eqb b (rn ")") then false
              else inParentheses)
  end.

(** A privilege that the tokenizer reads as one token: its commas are in
    parentheses, its last parenthesis is closed, and it does not start with
    white space. *)
Definition oneToken (w : gostring) : bool :=
  match parenthesesAfter w false with
  | Some false => true
  | _ => false
  end
  && match w with
     | [] => true
     | b :: _ => negb (unicode.IsSpace b)
     end.

(** ** The text of a group *)

(** Every group numbered [i] of the pattern consumes runes of the class
    [p] only. *)
Fixpoint groupsWithin (i : nat) (p : rune -> bool) (a : Regexp) : Prop :=
  match a with
  | Cat a1 a2 | Alt a1 a2 => groupsWithin i p a1 /\ groupsWithin i p a2
  | Capture j a1 => (j = i -> classesWithin p a1) /\ groupsWithin i p a1
  | Empty | Class _ | Star _ | BeginText | EndText | WordBoundary => True
  end.

(** The text recorded for the group [i] is made of runes of the class. *)
Definition capturedWithin (i : nat) (p : rune -> bool) (c : captures) : Prop :=
  forallb p (submatch i c) = true.

(** ** Tactics *)

(** An operation that ended with a diagnostic or a panic did not end
    without one. *)
Ltac failed_outcome H :=
  unfold diag.FromErr, diag.Errorf in H; discriminate H.

(** The comparisons of runes of a goal, as propositions. *)
Ltac order_of_runes :=
  repeat match goal with
         | H : (_ <? _)%N = true |- _ => apply N.ltb_lt in H
         | H : (_ <? _)%N = false |- _ => apply N.ltb_ge in H
         end.

(* ================================================================= *)
(** * Facts about the library functions *)

(** ** Strings and lists *)

Lemma streq_refl (a : gostring) : streq a a = true.
Proof.
  induction a as [|x a IH]; simpl; [reflexivity|].
  now rewrite N.eqb_refl, IH.
Qed.

Lemma streq_eq (a b : gostring) : streq a b = true <-> a = b.
Proof.
  split.
  - revert b. induction a as [|x a IH]; intros [|y b] H; simpl in H;
      try discriminate; [reflexivity|].
    apply andb_true_iff in H. destruct H as [H1 H2].
    apply N.eqb_eq in H1. apply IH in H2. now subst.
  - intros ->. apply streq_refl.
Qed.

Lemma streq_neq (a b : gostring) : streq a b = false <-> a <> b.
Proof.
  split.
  - intros H E. apply streq_eq in E. congruence.
  - intros H. destruct (streq a b) eqn:E; [|reflexivity].
    apply streq_eq in E. contradiction.
Qed.

Lemma HasPrefix_app (s rest : gostring) : strings.HasPrefix (s ++ rest) s = true.
Proof.
  induction s as [|x s IH]; simpl; [now destruct rest|].
  now rewrite N.eqb_refl.
Qed.

Lemma Contains_app (before s after : gostring) :
  strings.Contains (before ++ s ++ after) s = true.
Proof.
  induction before as [|x before IH].
  - cbn [app]. pose proof (HasPrefix_app s after) as H.
    destruct (s ++ after); cbn [strings.Contains]; now rewrite H.
  - cbn [app strings.Contains]. rewrite IH. apply orb_true_r.
Qed.

Lemma length_pos_iff (A : Type) (l : list A) :
  Nat.ltb 0 (length l) = true <-> l <> [].
Proof.
  destruct l; simpl; split; intros H; try easy.
Qed.

Lemma length_pos_false (A : Type) (l : list A) :
  l = [] -> Nat.ltb 0 (length l) = false.
Proof. now intros ->. Qed.

Lemma takeWhile_dropWhile (A : Type) (p : A -> bool) (l : list A) :
  takeWhile p l ++ dropWhile p l = l.
Proof.
  induction l as [|x l IH]; simpl; [reflexivity|].
  destruct (p x); simpl; [now rewrite IH|reflexivity].
Qed.

Lemma takeWhile_forallb (A : Type) (p : A -> bool) (l : list A) :
  forallb p (takeWhile p l) = true.
Proof.
  induction l as [|x l IH]; simpl; [reflexivity|].
  destruct (p x) eqn:E; simpl; [now rewrite E|reflexivity].
Qed.

Lemma dropWhile_head (A : Type) (p : A -> bool) (l : list A) x l' :
  dropWhile p l = x :: l' -> p x = false.
Proof.
  induction l as [|y l IH]; simpl; [discriminate|].
  destruct (p y) eqn:E; [exact IH|].
  intros H. inversion H. now subst.
Qed.

Lemma dropWhile_app_stop (A : Type) (p : A -> bool) (l : list A) x l' :
  forallb p l = true -> p x = false -> dropWhile p (l ++ x :: l') = x :: l'.
Proof.
  intros Hl Hx. induction l as [|y l IH]; simpl in *.
  - now rewrite Hx.
  - apply andb_true_iff in Hl. destruct Hl as [Hy Hl]. rewrite Hy. auto.
Qed.

Lemma dropWhile_none (A : Type) (p : A -> bool) (l : list A) :
  forallb (fun x => negb (p x)) l = true -> dropWhile p l = l.
Proof.
  destruct l as [|x l]; simpl; [reflexivity|].
  intros H. apply andb_true_iff in H. destruct H as [H _].
  apply negb_true_iff in H. now rewrite H.
Qed.

Lemma dropWhile_id (A : Type) (p : A -> bool) (l : list A) :
  (forall x, In x l -> p x = false) -> dropWhile p l = l.
Proof.
  destruct l as [|x l]; intros H; cbn [dropWhile]; [reflexivity|].
  rewrite (H x); [reflexivity|now left].
Qed.

Lemma firstn_length_app (A : Type) (l r : list A) :
  firstn (length (l ++ r) - length r) (l ++ r) = l.
Proof.
  rewrite length_app, Nat.add_sub.
  rewrite firstn_app, Nat.sub_diag, firstn_all. simpl. apply app_nil_r.
Qed.

Lemma Split_In (sep : rune) (s w : gostring) (r : rune) :
  In w (strings.Split s sep) -> In r w -> In r s.
Proof.
  revert w. induction s as [|x s IH]; intros w Hw Hr.
  - destruct Hw as [<-|[]]. destruct Hr.
  - cbn [strings.Split] in Hw. destruct (N.eqb x sep).
    + destruct Hw as [<-|Hw]; [destruct Hr|]. right. eauto.
    + destruct (strings.Split s sep) as [|w0 ws].
      * destruct Hw as [<-|[]]. destruct Hr as [<-|[]]. now left.
      * destruct Hw as [<-|Hw].
        -- destruct Hr as [<-|Hr]; [now left|]. right.
           apply (IH w0); [now left|assumption].
        -- right. apply (IH w); [now right|assumption].
Qed.

Lemma Split_not_nil (sep : rune) (s : gostring) : strings.Split s sep <> [].
Proof.
  destruct s as [|x s]; cbn [strings.Split]; [discriminate|].
  destruct (N.eqb x sep); [discriminate|].
  destruct (strings.Split s sep); discriminate.
Qed.

Lemma Split_no_sep (sep : rune) (s w : gostring) :
  In w (strings.Split s sep) -> ~ In sep w.
Proof.
  revert w. induction s as [|x s IH]; intros w Hw.
  - destruct Hw as [<-|[]]. intros [].
  - cbn [strings.Split] in Hw. destruct (N.eqb x sep) eqn:E.
    + destruct Hw as [<-|Hw]; [intros []|]. auto.
    + apply N.eqb_neq in E.
      destruct (strings.Split s sep) as [|w0 ws].
      * destruct Hw as [<-|[]]. intros [H|[]]. congruence.
      * destruct Hw as [<-|Hw].
        -- intros [H|H]; [congruence|]. apply (IH w0); [now left|assumption].
        -- apply IH. now right.
Qed.

Lemma Split_one (sep : rune) (w : gostring) :
  ~ In sep w -> strings.Split w sep = [w].
Proof.
  induction w as [|x w IH]; intros H; cbn [strings.Split]; [reflexivity|].
  destruct (N.eqb x sep) eqn:E.
  - apply N.eqb_eq in E. subst x. exfalso. apply H. now left.
  - rewrite IH; [reflexivity|]. intros Hin. apply H. now right.
Qed.

Lemma Split_app (sep : rune) (w rest : gostring) :
  ~ In sep w ->
  strings.Split (w ++ sep :: rest) sep = w :: strings.Split rest sep.
Proof.
  induction w as [|x w IH]; intros H; cbn [app strings.Split].
  - now rewrite N.eqb_refl.
  - destruct (N.eqb x sep) eqn:E.
    + apply N.eqb_eq in E. subst x. exfalso. apply H. now left.
    + rewrite IH; [reflexivity|]. intros Hin. apply H. now right.
Qed.

Lemma Join_cons (e : gostring) (rest : list gostring) (sep : gostring) :
  rest <> [] ->
  strings.Join (e :: rest) sep = e ++ sep ++ strings.Join rest sep.
Proof. destruct rest; [congruence|reflexivity]. Qed.

(** Joining with a comma and splitting at the commas gives the parts back,
    when there is a part and no part has a comma. *)
Lemma Split_Join (sep : rune) (parts : list gostring) :
  parts <> [] ->
  (forall w, In w parts -> ~ In sep w) ->
  strings.Split (strings.Join parts [sep]) sep = parts.
Proof.
  induction parts as [|e parts IH]; intros Hne Hparts; [congruence|].
  destruct parts as [|e' parts].
  - cbn [strings.Join]. apply Split_one. apply Hparts. now left.
  - rewrite Join_cons by discriminate. cbn [app].
    rewrite Split_app by (apply Hparts; now left).
    rewrite IH; [reflexivity|discriminate|].
    intros w Hw. apply Hparts. now right.
Qed.

Lemma Join_In (parts : list gostring) (sep : gostring) (r : rune) :
  In r (strings.Join parts sep) ->
  In r sep \/ exists w, In w parts /\ In r w.
Proof.
  induction parts as [|e parts IH]; intros H; [destruct H|].
  destruct parts as [|e' parts].
  - right. exists e. split; [now left|assumption].
  - rewrite Join_cons in H by discriminate.
    apply in_app_or in H. destruct H as [H|H].
    + right. exists e. split; [now left|assumption].
    + apply in_app_or in H. destruct H as [H|H]; [now left|].
      destruct (IH H) as [H'|(w & Hw & Hr)]; [now left|].
      right. exists w. split; [now right|assumption].
Qed.

(** Trimming a string that has no rune of the cutset changes nothing. *)
Lemma Trim_id (s cutset : gostring) :
  (forall r, In r s -> IndexRune cutset r = false) ->
  strings.Trim s cutset = s.
Proof.
  intros H. unfold strings.Trim, strings.TrimRight, strings.TrimLeft.
  rewrite (@dropWhile_id _ (IndexRune cutset) s H).
  rewrite (@dropWhile_id _ (IndexRune cutset) (rev s));
    [apply rev_involutive|].
  intros r Hr. apply H. now apply in_rev.
Qed.

Lemma ReplaceAllString_id (p : rune -> bool) (s : gostring) :
  (forall r, In r s -> p r = false) ->
  regexp.ReplaceAllString p s [] = s.
Proof.
  unfold regexp.ReplaceAllString.
  induction s as [|x s IH]; intros H; cbn [flat_map]; [reflexivity|].
  rewrite (H x) by now left. rewrite IH; [reflexivity|].
  intros r Hr. apply H. now right.
Qed.

Lemma ReplaceAllString_In (p : rune -> bool) (s : gostring) (r : rune) :
  In r (regexp.ReplaceAllString p s []) -> In r s /\ p r = false.
Proof.
  unfold regexp.ReplaceAllString. rewrite in_flat_map.
  intros (x & Hx & Hr). destruct (p x) eqn:E; [destruct Hr|].
  destruct Hr as [<-|[]]. now split.
Qed.

Lemma ReplaceAllString_app (p : rune -> bool) (a b : gostring) :
  regexp.ReplaceAllString p (a ++ b) []
  = regexp.ReplaceAllString p a [] ++ regexp.ReplaceAllString p b [].
Proof. unfold regexp.ReplaceAllString. apply flat_map_app. Qed.

(* ================================================================= *)
(** ** The sort *)

Lemma sort_le_total (a b : gostring) : sort.le a b = false -> sort.le b a = true.
Proof.
  revert b. induction a as [|x a IH]; intros [|y b]; cbn [sort.le];
    try easy.
  destruct (x <? y)%N eqn:Exy; [discriminate|].
  destruct (y <? x)%N eqn:Eyx; [reflexivity|]. apply IH.
Qed.

Lemma insert_sorted (x : gostring) (l : list gostring) :
  sorted l -> sorted (sort.insert x l).
Proof.
  induction 1 as [|y|y z l Hyz Hl IH]; cbn [sort.insert].
  - constructor.
  - destruct (sort.le x y) eqn:E.
    + constructor; [assumption|constructor].
    + constructor; [now apply sort_le_total|constructor].
  - destruct (sort.le x y) eqn:E.
    + constructor; [assumption|]. now constructor.
    + cbn [sort.insert] in IH. destruct (sort.le x z) eqn:E'.
      * constructor; [now apply sort_le_total|assumption].
      * constructor; assumption.
Qed.

Lemma Strings_sorted (l : list gostring) : sorted (sort.Strings l).
Proof.
  induction l as [|x l IH]; cbn [sort.Strings];
    [constructor|now apply insert_sorted].
Qed.

Lemma Strings_of_sorted (l : list gostring) : sorted l -> sort.Strings l = l.
Proof.
  induction 1 as [|y|y z l Hyz Hl IH]; try reflexivity.
  cbn [sort.Strings] in *. rewrite IH. cbn [sort.insert]. now rewrite Hyz.
Qed.

Lemma insert_In (x y : gostring) (l : list gostring) :
  In y (sort.insert x l) <-> y = x \/ In y l.
Proof.
  induction l as [|z l IH]; cbn [sort.insert].
  - simpl. intuition.
  - destruct (sort.le x z); simpl; [intuition|].
    rewrite IH. simpl. intuition.
Qed.

Lemma Strings_In (y : gostring) (l : list gostring) :
  In y (sort.Strings l) <-> In y l.
Proof.
  induction l as [|x l IH]; cbn [sort.Strings]; [reflexivity|].
  rewrite insert_In, IH. simpl. intuition.
Qed.

Lemma Strings_not_nil (l : list gostring) : l <> [] -> sort.Strings l <> [].
Proof.
  destruct l as [|x l]; [congruence|]. intros _ H.
  assert (Hin : In x (sort.Strings (x :: l))) by (apply Strings_In; now left).
  rewrite H in Hin. destruct Hin.
Qed.

(* ================================================================= *)
(** ** The matcher *)

Module regexp_facts.

Import regexp.

Lemma run_Cat a b prev s c k :
  run (Cat a b) prev s c k
  = run a prev s c (fun prev' s' c' => run b prev' s' c' k).
Proof. reflexivity. Qed.

Lemma run_Capture i a prev s c k :
  run (Capture i a) prev s c k
  = run a prev s c
        (fun prev' s' c' =>
           k prev' s' ((i, firstn (length s - length s') s) :: c')).
Proof. reflexivity. Qed.

Lemma run_BeginText s c k : run BeginText None s c k = k None s c.
Proof. reflexivity. Qed.

Lemma run_Class p prev s c k :
  run (Class p) prev s c k
  = match s with
    | x :: s' => if p x then k (Some x) s' c else None
    | [] => None
    end.
Proof. reflexivity. Qed.

Lemma run_Star_nil p prev c k : run (Star p) prev [] c k = k prev [] c.
Proof. reflexivity. Qed.

Lemma run_Star_cons p prev x s c k :
  run (Star p) prev (x :: s) c k
  = if p x then
      match run (Star p) (Some x) s c k with
      | Some m => Some m
      | None => k prev (x :: s) c
      end
    else k prev (x :: s) c.
Proof. reflexivity. Qed.

(** A repetition followed by something that cannot start with a rune of the
    class takes all the runes of the class. *)
Lemma run_Star_commit p k :
  (forall pv x s c, p x = true -> k pv (x :: s) c = None) ->
  forall s prev c,
    exists pv, run (Star p) prev s c k = k pv (dropWhile p s) c.
Proof.
  intros Hk. induction s as [|x s IH]; intros prev c.
  - exists prev. reflexivity.
  - rewrite run_Star_cons. cbn [dropWhile].
    destruct (p x) eqn:E.
    + destruct (IH (Some x) c) as (pv & ->). exists pv.
      rewrite (Hk prev x s c E). now destruct (k pv (dropWhile p s) c).
    + exists prev. reflexivity.
Qed.

(** A repetition followed by something that accepts exactly one rune and
    the end of the text takes all the runes but the last. *)
Lemma run_Star_last p k h :
  (forall pv s c, k pv s c = match s with [x] => h x c | _ => None end) ->
  forall s prev c,
    run (Star p) prev s c k
    = match rev s with
      | [] => None
      | x :: m => if forallb p (rev m) then h x c else None
      end.
Proof.
  intros Hk. induction s as [|x s IH]; intros prev c.
  - rewrite run_Star_nil, Hk. reflexivity.
  - rewrite run_Star_cons, IH, Hk. cbn [rev].
    destruct (rev s) as [|y m] eqn:Erev.
    + apply (f_equal (@rev _)) in Erev. rewrite rev_involutive in Erev.
      subst s. cbn. now destruct (p x).
    + assert (Hs : s = rev m ++ [y]).
      { apply (f_equal (@rev _)) in Erev. now rewrite rev_involutive in Erev. }
      cbn [app]. rewrite rev_app_distr. cbn [rev app forallb].
      destruct s as [|z s]; [now destruct (rev m)|].
      destruct (p x); cbn [andb]; [|reflexivity].
      now destruct (if forallb p (rev m) then h y c else None).
Qed.

(** A pattern that starts with the beginning of the text matches nowhere
    else. *)
Lemma search_BeginText a s x : search (Cat BeginText a) (Some x) s = None.
Proof.
  revert x. induction s as [|y s IH]; intros x; cbn; [reflexivity|apply IH].
Qed.

End regexp_facts.

Lemma search_None (a : regexp.Regexp) (prev : option rune) (s : gostring) :
  regexp.search a prev s = None ->
  regexp.run a prev s [] regexp.accept = None
  /\ match s with
     | [] => True
     | x :: s' => regexp.search a (Some x) s' = None
     end.
Proof.
  destruct s as [|x s]; cbn [regexp.search];
    destruct (regexp.run a prev _ [] regexp.accept) as [[s' c]|];
    try discriminate; auto.
Qed.

Lemma search_run_None (a : regexp.Regexp) (s : gostring) :
  forall prev,
    regexp.run a prev s [] regexp.accept = None ->
    match s with
    | [] => True
    | x :: s' => regexp.search a (Some x) s' = None
    end ->
    regexp.search a prev s = None.
Proof.
  intros prev Hrun Hrest. destruct s as [|x s]; cbn [regexp.search];
    now rewrite Hrun.
Qed.

Lemma FindStringSubmatch_length (a : regexp.Regexp) (s : gostring) :
  regexp.search a None s = None /\ regexp.FindStringSubmatch a s = []
  \/ length (regexp.FindStringSubmatch a s) = S (regexp.NumSubexp a).
Proof.
  unfold regexp.FindStringSubmatch.
  destruct (regexp.search a None s) as [[[s0 s'] c]|]; [right|now left].
  cbn [length]. now rewrite length_map, length_seq.
Qed.

(* ================================================================= *)
(** ** The patterns of the program *)

Lemma FindStringSubmatch_columnListRegex (perm : gostring) :
  FindStringSubmatch columnListRegex perm
  = match columnList perm with
    | Some (name, columns) => [perm; name; columns]
    | None => []
    end.
Proof.
  unfold FindStringSubmatch.
  assert (Hrun :
    run columnListRegex None perm [] accept
    = match columnList perm with
      | Some (name, columns) => Some ([], [(2, columns); (1, name)])
      | None => None
      end).
  { unfold columnListRegex, MustCompile. cbn [Cats].
    rewrite regexp_facts.run_Cat, regexp_facts.run_BeginText.
    rewrite regexp_facts.run_Cat, regexp_facts.run_Capture.
    match goal with |- run (Star _) None perm [] ?k = _ =>
      destruct (@regexp_facts.run_Star_commit (notchr "(") k) with
        (s := perm) (prev := @None rune) (c := @nil (nat * gostring))
        as (pv & ->)
    end.
    { intros pv x s c Hx. cbv beta.
      rewrite regexp_facts.run_Cat, regexp_facts.run_Class.
      unfold notchr in Hx. unfold chr.
      apply negb_true_iff in Hx. now rewrite Hx. }
    unfold columnList.
    pose proof (takeWhile_dropWhile (notchr "(") perm) as Hsplit.
    destruct (dropWhile (notchr "(") perm) as [|x rest] eqn:Edrop;
      [reflexivity|].
    assert (Hx : chr "(" x = true).
    { apply dropWhile_head in Edrop. unfold notchr in Edrop.
      now apply negb_false_iff in Edrop. }
    rewrite regexp_facts.run_Cat, regexp_facts.run_Class, Hx.
    rewrite regexp_facts.run_Cat, regexp_facts.run_Capture.
    assert (Hname : firstn (length perm - length (x :: rest)) perm
                    = takeWhile (notchr "(") perm).
    { rewrite <- Hsplit at 1 2. apply firstn_length_app. }
    rewrite Hname.
    rewrite (@regexp_facts.run_Star_last dot _
               (fun y c => if chr ")" y
                           then Some ([], (2, firstn (length rest - 1) rest) :: c)
                           else None)).
    2:{ intros pv' s c. destruct s as [|y [|z s]]; try reflexivity.
        cbv beta. rewrite regexp_facts.run_Cat, regexp_facts.run_Class.
        now destruct (chr ")" y). }
    destruct (rev rest) as [|y m] eqn:Erev; [reflexivity|].
    assert (Hrest : rest = rev m ++ [y]).
    { apply (f_equal (@rev _)) in Erev. now rewrite rev_involutive in Erev. }
    destruct (forallb dot (rev m)); [|reflexivity].
    destruct (chr ")" y); [|reflexivity].
    rewrite Hrest at 1 2.
    change 1 with (length [y]). rewrite firstn_length_app. reflexivity. }
  assert (Hsearch :
    search columnListRegex None perm
    = match columnList perm with
      | Some (name, columns) => Some (perm, [], [(2, columns); (1, name)])
      | None => None
      end).
  { destruct perm as [|x perm'].
    - cbn [search]. rewrite Hrun. now destruct (columnList []) as [[? ?]|].
    - cbn [search]. rewrite Hrun.
      destruct (columnList (x :: perm')) as [[? ?]|]; [reflexivity|].
      apply regexp_facts.search_BeginText. }
  rewrite Hsearch. destruct (columnList perm) as [[name columns]|];
    [|reflexivity].
  replace (length perm - length (@nil rune)) with (length perm)
    by (cbn [length]; lia).
  rewrite firstn_all. reflexivity.
Qed.

Lemma columnList_Some (perm name columns : gostring) :
  columnList perm = Some (name, columns) ->
  perm = name ++ rn "(" :: columns ++ [rn ")"]
  /\ forallb (notchr "(") name = true
  /\ forallb dot columns = true.
Proof.
  unfold columnList. intros H.
  pose proof (takeWhile_dropWhile (notchr "(") perm) as Hsplit.
  destruct (dropWhile (notchr "(") perm) as [|x rest] eqn:Edrop;
    [discriminate|].
  assert (Hx : x = rn "(").
  { apply dropWhile_head in Edrop. unfold notchr in Edrop.
    apply negb_false_iff, N.eqb_eq in Edrop. now subst. }
  destruct (rev rest) as [|y m] eqn:Erev; [discriminate|].
  assert (Hrest : rest = rev m ++ [y]).
  { apply (f_equal (@rev _)) in Erev. now rewrite rev_involutive in Erev. }
  destruct (forallb dot (rev m)) eqn:Hdot; [|discriminate].
  destruct (chr ")" y) eqn:Hy; [|discriminate].
  inversion H. subst name columns. clear H.
  apply N.eqb_eq in Hy. subst x y rest.
  split; [now rewrite Hsplit|].
  split; [apply takeWhile_forallb|assumption].
Qed.

Lemma columnList_intro (name columns : gostring) :
  forallb (notchr "(") name = true ->
  forallb dot columns = true ->
  columnList (name ++ rn "(" :: columns ++ [rn ")"]) = Some (name, columns).
Proof.
  intros Hname Hcols. unfold columnList.
  pose proof (takeWhile_dropWhile (notchr "(")
                (name ++ rn "(" :: columns ++ [rn ")"])) as Hsplit.
  assert (Hdrop : dropWhile (notchr "(") (name ++ rn "(" :: columns ++ [rn ")"])
                  = rn "(" :: columns ++ [rn ")"])
    by (now apply dropWhile_app_stop).
  rewrite Hdrop in *.
  rewrite rev_app_distr. cbn [rev app]. rewrite rev_involutive, Hcols.
  apply app_inv_tail in Hsplit. rewrite Hsplit. reflexivity.
Qed.

(** Where the login pattern does not match, the role pattern does not
    either: the host part of the login pattern is optional. *)
Lemma run_userHostRegex_roleRegex (prev : option rune) (s : gostring) :
  regexp.run userHostRegex prev s [] regexp.accept = None ->
  regexp.run roleRegex prev s [] regexp.accept = None.
Proof.
  unfold userHostRegex, roleRegex, MustCompile, Plus, Quest. cbn [Cats].
  rewrite !regexp_facts.run_Cat, !regexp_facts.run_Class.
  destruct s as [|x s1]; [reflexivity|].
  destruct (chr "'" x); [|reflexivity].
  rewrite regexp_facts.run_Cat, regexp_facts.run_Capture.
  match goal with |- run (Star _) (Some x) s1 [] ?k = _ -> _ =>
    destruct (@regexp_facts.run_Star_commit (notchr "'") k) with
      (s := s1) (prev := Some x) (c := @nil (nat * gostring))
      as (pv & ->)
  end.
  { intros pv y s c Hy. cbv beta.
    rewrite regexp_facts.run_Cat, regexp_facts.run_Class.
    unfold notchr in Hy. unfold chr.
    apply negb_true_iff in Hy. now rewrite Hy. }
  cbv beta. rewrite regexp_facts.run_Cat, regexp_facts.run_Class.
  intros Huser.
  rewrite regexp_facts.run_Cat, regexp_facts.run_Cat, regexp_facts.run_Class.
  destruct s1 as [|y s2]; [reflexivity|].
  destruct (notchr "'" y) eqn:Ey; [|reflexivity].
  cbn [dropWhile] in Huser. rewrite Ey in Huser.
  match goal with |- run (Star _) (Some y) s2 [] ?k = _ =>
    destruct (@regexp_facts.run_Star_commit (notchr "'") k) with
      (s := s2) (prev := Some y) (c := @nil (nat * gostring))
      as (pv' & ->)
  end.
  { intros pv' z s c Hz. cbv beta. rewrite regexp_facts.run_Class.
    unfold notchr in Hz. unfold chr.
    apply negb_true_iff in Hz. now rewrite Hz. }
  cbv beta. rewrite regexp_facts.run_Class.
  destruct (dropWhile (notchr "'") s2) as [|z s3]; [reflexivity|].
  destruct (chr "'" z); [|reflexivity].
  exfalso. cbn [run] in Huser.
  match type of Huser with
  | match ?m with Some _ => _ | None => _ end = None =>
      destruct m; discriminate Huser
  end.
Qed.

Lemma search_userHostRegex_roleRegex (s : gostring) :
  forall prev,
    regexp.search userHostRegex prev s = None ->
    regexp.search roleRegex prev s = None.
Proof.
  induction s as [|x s IH]; intros prev H; apply search_None in H;
    destruct H as [Hrun Hrest]; apply search_run_None;
    auto using run_userHostRegex_roleRegex.
Qed.

(* ================================================================= *)
(** * The claims *)

(** ** Round trip of a table grant *)

(** C1. The generator renders [G] as the statement of the specification, but
    parsing that statement back does not give [G]: the object reference is
    not split, the database is the whole reference [app`.`users] and the
    table is the identity text after [TO]. It is so for every row parsed
    into a table grant: its database is the second group of the table
    pattern, the object reference, and its table the third, the identity. *)
Theorem render_then_parse_G (T : CaseTables) :
  SQLGrantStatement (TableG G)
  = go "GRANT SELECT, INSERT ON `app`.`users` TO 'bob'@'%'"
  /\ FindStringSubmatch tableGrantRegex
       (go "GRANT SELECT, INSERT ON `app`.`users` TO 'bob'@'%'")
     = [go "GRANT SELECT, INSERT ON `app`.`users` TO 'bob'@'%'";
        go "SELECT, INSERT"; go "`app`.`users`"; go "'bob'@'%'"]
  /\ parseGrantFromRow (go "GRANT SELECT, INSERT ON `app`.`users` TO 'bob'@'%'")
     = Ok (Some (TableG
         {| TablePrivilegeGrant.Database := go "app`.`users";
            TablePrivilegeGrant.Table := go "'bob'@'%'";
            TablePrivilegeGrant.Privileges := [go "SELECT"; go "INSERT"];
            TablePrivilegeGrant.Grant := false;
            TablePrivilegeGrant.UserOrRole := bob;
            TablePrivilegeGrant.TLSOption := [] |}))
  /\ parseGrantFromRow (SQLGrantStatement (TableG G)) <> Ok (Some (TableG G))
  /\ (forall grantStr t,
        parseGrantFromRow grantStr = Ok (Some (TableG t)) ->
        let tableMatches := FindStringSubmatch tableGrantRegex grantStr in
        TablePrivilegeGrant.Database t
        = strings.Trim (index tableMatches 2) (go "`" ++ [dquote])
        /\ TablePrivilegeGrant.Table t
           = strings.Trim (index tableMatches 3) (go "`" ++ [dquote])).
Proof.
  split; [vm_compute; reflexivity|].
  split; [vm_compute; reflexivity|].
  split; [vm_compute; reflexivity|].
  split; [vm_compute; intros H; discriminate H|].
  intros grantStr t H tableMatches. unfold parseGrantFromRow in H.
  fold tableMatches in H.
  destruct (strings.HasPrefix grantStr (go "REVOKE")); [discriminate H|].
  destruct (if Nat.eqb (length (FindStringSubmatch userHostRegex grantStr)) 4
            then _ else _) as [userOrRole|]; [|discriminate H].
  destruct (Nat.eqb (length (FindStringSubmatch roleGrantRegex grantStr)) 3);
    [discriminate H|].
  destruct (Nat.eqb (length (FindStringSubmatch procedureGrantRegex grantStr))
                    5); [discriminate H|].
  destruct (Nat.eqb (length tableMatches) 4); [|discriminate H].
  inversion H. split; reflexivity.
Qed.

(* ================================================================= *)
(** ** Role-membership rows *)

(** C2, as the specification states it, fails: the line with two quoted
    role names is not parsed as a role-membership grant. The list after
    [GRANT] must start with a word character, a space or a comma, so none of
    the three statement patterns matches and the parse is an error. *)
Lemma parse_quoted_roles_fails :
  parseGrantFromRow (T := asciiTables)
    (go "GRANT 'editor', 'viewer' TO 'bob'@'%'")
  = Err (failedToParse (go "GRANT 'editor', 'viewer' TO 'bob'@'%'"))
  /\ FindStringSubmatch roleGrantRegex
       (go "GRANT 'editor', 'viewer' TO 'bob'@'%'") = [].
Proof.
  split; vm_compute; reflexivity.
Qed.

(** C2, amended. The line with the two role names unquoted is parsed as the
    role-membership grant of the specification. In general a line that the
    login pattern and the role-membership pattern match is a role-membership
    grant, whatever the other two statement patterns say: its roles are the
    pieces of the first group between commas, each trimmed of backtick, at
    sign, percent, double quote and space. *)
Theorem parse_role_membership (T : CaseTables) :
  parseGrantFromRow (go "GRANT editor, viewer TO 'bob'@'%'")
  = Ok (Some (RoleG {| RoleGrant.Roles := [go "editor"; go "viewer"];
                       RoleGrant.Grant := false;
                       RoleGrant.UserOrRole := bob;
                       RoleGrant.TLSOption := [] |}))
  /\ FindStringSubmatch roleGrantRegex (go "GRANT editor, viewer TO 'bob'@'%'")
     = [go "GRANT editor, viewer TO 'bob'@'%'"; go "editor, viewer";
        go "'bob'@'%'"]
  /\ (forall grantStr,
        let userHostMatches := FindStringSubmatch userHostRegex grantStr in
        let roleMatches := FindStringSubmatch roleGrantRegex grantStr in
        let requireMatches := FindStringSubmatch reRequire grantStr in
        strings.HasPrefix grantStr (go "REVOKE") = false ->
        length userHostMatches = 4 ->
        length roleMatches = 3 ->
        parseGrantFromRow grantStr
        = Ok (Some (RoleG
            {| RoleGrant.Roles :=
                 map (fun role =>
                        strings.Trim role (go "`@%" ++ [dquote] ++ go " "))
                     (strings.Split (index roleMatches 1) (rn ","));
               RoleGrant.Grant := MatchString reGrant grantStr;
               RoleGrant.UserOrRole :=
                 User (strings.Trim (index userHostMatches 1) (go "`' "))
                      (strings.Trim (index userHostMatches 3) (go "`' "));
               RoleGrant.TLSOption :=
                 if Nat.eqb (length requireMatches) 2
                 then index requireMatches 1 else [] |}))).
Proof.
  split; [vm_compute; reflexivity|].
  split; [vm_compute; reflexivity|].
  intros grantStr userHostMatches roleMatches requireMatches Hrevoke Huser
         Hrole.
  unfold parseGrantFromRow. rewrite Hrevoke.
  fold userHostMatches roleMatches requireMatches.
  rewrite Huser, Hrole. reflexivity.
Qed.

(* ================================================================= *)
(** ** Import matching *)

Lemma TablePrivilegeGrant_GetDatabase_not_app (t : TablePrivilegeGrant.t) :
  streq (TablePrivilegeGrant.GetDatabase t) (go "app") = false.
Proof.
  unfold TablePrivilegeGrant.GetDatabase.
  destruct (negb (streq (TablePrivilegeGrant.Database t) (go "*")) &&
            negb (strings.HasSuffix (TablePrivilegeGrant.Database t) (go "`")))
    eqn:E.
  - reflexivity.
  - apply streq_neq. intros H. rewrite H in E. discriminate E.
Qed.

Lemma ProcedurePrivilegeGrant_GetDatabase_not_app
      (p : ProcedurePrivilegeGrant.t) :
  streq (ProcedurePrivilegeGrant.GetDatabase p) (go "app") = false.
Proof.
  unfold ProcedurePrivilegeGrant.GetDatabase.
  destruct (negb (streq (ProcedurePrivilegeGrant.Database p) (go "*")) &&
            negb (strings.HasSuffix (ProcedurePrivilegeGrant.Database p)
                                    (go "`")))
    eqn:E.
  - reflexivity.
  - apply streq_neq. intros H. rewrite H in E. discriminate E.
Qed.

(** C3. With the import identifier of the specification the scan compares
    the database filter [app] with the rendered database of each grant,
    which is [*] or ends with a backtick: no live grant matches, the table
    grant on database [app], table [users] without grant option included.
    That grant is found under the back-quoted filters only. *)
Theorem import_unquoted_database_matches_nothing (T : CaseTables) :
  strings.Split (go "bob@%@app@users") (rn "@")
  = [go "bob"; go "%"; go "app"; go "users"]
  /\ (forall grants grantOption table,
         ImportGrant_loop grants grantOption (go "app") table = None)
  /\ ImportGrant_loop [TableG G] false (go "app") (go "users") = None
  /\ ImportGrant_loop [TableG G] false (go "`app`") (go "`users`")
     = Some (TableG G)
  /\ (forall user role host database table privileges prior roles grant
             tls_option meta tr,
         let d := schema.mk (go "bob@%@app@users") user role host database
                            table privileges prior roles grant tls_option in
         match fst (ImportGrant d meta tr) with
         | Done (Ok imported) => imported = []
         | Done (Err _) => True
         | Panic _ => False
         end).
Proof.
  assert (Hall : forall grants grantOption table,
             ImportGrant_loop grants grantOption (go "app") table = None).
  { intros grants grantOption table.
    induction grants as [|grant grants IH]; [reflexivity|].
    cbn [ImportGrant_loop].
    destruct (negb (Bool.eqb (GrantOption grant) grantOption)); [exact IH|].
    destruct grant as [t|p|r]; cbn [MySQLGrantWithDatabase].
    - now rewrite TablePrivilegeGrant_GetDatabase_not_app.
    - now rewrite ProcedurePrivilegeGrant_GetDatabase_not_app.
    - exact IH. }
  split; [reflexivity|].
  split; [exact Hall|].
  split; [apply Hall|].
  split; [reflexivity|].
  intros user role host database table privileges prior roles grant
         tls_option meta tr d.
  unfold ImportGrant. cbn [schema.Id d].
  change (strings.Split (go "bob@%@app@users") (rn "@"))
    with [go "bob"; go "%"; go "app"; go "users"].
  cbn [length Nat.eqb negb andb index nth].
  destruct (getDatabaseFromMeta meta) as [db|err]; [|exact I].
  unfold bind.
  destruct (showUserGrants db (User (go "bob") (go "%")) tr) as [[r|msg] tr']
    eqn:E.
  - destruct r as [grants|err]; [|exact I].
    rewrite Hall. reflexivity.
  - unfold showUserGrants, bind, QueryContext in E.
    destruct (isNonExistingGrant _) in E; [discriminate E|].
    destruct (QueryReply db tr _) in E; discriminate E.
Qed.

(* ================================================================= *)
(** ** Privilege diff on update *)

Lemma Difference_In (a b : list gostring) (x : gostring) :
  In x (schema.Difference a b) <-> In x a /\ ~ In x b.
Proof.
  unfold schema.Difference. rewrite filter_In, negb_true_iff.
  split; intros [Ha Hb]; split; try assumption.
  - intros Hin. assert (existsb (streq x) b = true); [|congruence].
    apply existsb_exists. exists x. split; [assumption|apply streq_refl].
  - destruct (existsb (streq x) b) eqn:E; [|reflexivity].
    apply existsb_exists in E. destruct E as (y & Hy & E).
    apply streq_eq in E. subst y. contradiction.
Qed.

(** C4. [updatePrivileges] computes the added and the removed privileges.
    When some are removed it sends one partial revoke of exactly the removed
    ones, or fails without a statement when the grant has no partial revoke;
    a revoke the database rejects ends the update. Then, when some are
    added, it sends the grant statement of the grant, with all its
    privileges. In the scenario of the specification the two statements are
    the revoke of INSERT and the grant of SELECT, UPDATE. *)
Theorem updatePrivileges_diff (T : CaseTables) :
  forall db d grant tr,
    let old := schema.privileges_prior d in
    let new := schema.privileges d in
    let added := schema.Difference new old in
    let removed := schema.Difference old new in
    let run := updatePrivileges db d grant tr in
    (forall p, In p added <-> In p new /\ ~ In p old)
    /\ (forall p, In p removed <-> In p old /\ ~ In p new)
    /\ (removed = [] -> added = [] -> run = (Done None, tr))
    /\ (removed = [] -> added <> [] ->
        run = (Done (ExecReply db tr (SQLGrantStatement grant)),
               tr ++ [Exec (SQLGrantStatement grant)]))
    /\ (removed <> [] -> PrivilegesPartiallyRevocable grant = None ->
        run = (Done (Some (Errorf
                 (go "grant does not support partial privilege revokes"))),
               tr))
    /\ (forall partialRevoke,
          removed <> [] ->
          PrivilegesPartiallyRevocable grant = Some partialRevoke ->
          let revoke := partialRevoke removed in
          (forall err, ExecReply db tr revoke = Some err ->
                       run = (Done (Some err), tr ++ [Exec revoke]))
          /\ (ExecReply db tr revoke = None -> added = [] ->
              run = (Done None, tr ++ [Exec revoke]))
          /\ (ExecReply db tr revoke = None -> added <> [] ->
              run = (Done (ExecReply db (tr ++ [Exec revoke])
                                     (SQLGrantStatement grant)),
                     tr ++ [Exec revoke; Exec (SQLGrantStatement grant)])))
    /\ (forall t,
          PrivilegesPartiallyRevocable (TableG t)
          = Some (fun privilegesToRevoke =>
               go "REVOKE " ++ strings.Join privilegesToRevoke (go ", ")
               ++ go " ON " ++ TablePrivilegeGrant.GetDatabase t
               ++ go "." ++ TablePrivilegeGrant.GetTable t
               ++ go " FROM "
               ++ UserOrRole.SQLString (TablePrivilegeGrant.UserOrRole t)
               ++ (if TablePrivilegeGrant.Grant t
                   then go " WITH GRANT OPTION" else []))
          /\ SQLGrantStatement (TableG t)
             = go "GRANT "
               ++ strings.Join (TablePrivilegeGrant.Privileges t) (go ", ")
               ++ go " ON " ++ TablePrivilegeGrant.GetDatabase t
               ++ go "." ++ TablePrivilegeGrant.GetTable t
               ++ go " TO "
               ++ UserOrRole.SQLString (TablePrivilegeGrant.UserOrRole t)
               ++ requireClause (TablePrivilegeGrant.TLSOption t)
               ++ (if TablePrivilegeGrant.Grant t
                   then go " WITH GRANT OPTION" else []))
    /\ updatePrivileges acceptAll dDiff gDiff []
       = (Done None,
          [Exec (go "REVOKE INSERT ON `app`.`users` FROM 'bob'@'%'");
           Exec (go "GRANT SELECT, UPDATE ON `app`.`users` TO 'bob'@'%'")]).
Proof.
  intros db d grant tr old new added removed run.
  split; [intros p; apply Difference_In|].
  split; [intros p; apply Difference_In|].
  assert (Hrun : run = updatePrivileges db d grant tr) by reflexivity.
  unfold updatePrivileges, bind in Hrun.
  fold old new in Hrun. fold added removed in Hrun.
  split; [|split; [|split; [|split; [|split]]]].
  - intros Hr Ha. rewrite Hrun.
    rewrite (length_pos_false Hr), (length_pos_false Ha). reflexivity.
  - intros Hr Ha. rewrite Hrun.
    rewrite (length_pos_false Hr).
    apply length_pos_iff in Ha. cbn [ret]. rewrite Ha. reflexivity.
  - intros Hr Hp. rewrite Hrun.
    apply length_pos_iff in Hr. rewrite Hr, Hp. reflexivity.
  - intros partialRevoke Hr Hp revoke.
    apply length_pos_iff in Hr.
    rewrite Hr, Hp in Hrun. unfold ExecContext in Hrun. fold revoke in Hrun.
    split; [|split].
    + intros err He. rewrite Hrun, He. reflexivity.
    + intros He Ha. rewrite Hrun, He, (length_pos_false Ha). reflexivity.
    + intros He Ha. rewrite Hrun, He.
      apply length_pos_iff in Ha. rewrite Ha.
      rewrite <- app_assoc. reflexivity.
  - intros t. split; reflexivity.
  - vm_compute. reflexivity.
Qed.

(** The diff scenario, from the theorem. *)
Lemma updatePrivileges_diff_scenario :
  updatePrivileges (T := asciiTables) acceptAll dDiff gDiff []
  = (Done None,
     [Exec (go "REVOKE INSERT ON `app`.`users` FROM 'bob'@'%'");
      Exec (go "GRANT SELECT, UPDATE ON `app`.`users` TO 'bob'@'%'")]).
Proof.
  destruct (@updatePrivileges_diff asciiTables acceptAll dDiff gDiff [])
    as (_ & _ & _ & _ & _ & H & _).
  destruct (H (TablePrivilegeGrant.SQLPartialRevokePrivilegesStatement
                 {| TablePrivilegeGrant.Database := go "app";
                    TablePrivilegeGrant.Table := go "users";
                    TablePrivilegeGrant.Privileges :=
                      [go "SELECT"; go "UPDATE"];
                    TablePrivilegeGrant.Grant := false;
                    TablePrivilegeGrant.UserOrRole := bob;
                    TablePrivilegeGrant.TLSOption := go "NONE" |}))
    as (_ & _ & H3).
  - vm_compute. discriminate.
  - reflexivity.
  - apply H3.
    + reflexivity.
    + vm_compute. discriminate.
Defined.

(* ================================================================= *)
(** ** Conflict detection *)

Lemma grantType_eqb_eq (a b : grantType) :
  grantType_eqb a b = true <-> a = b.
Proof. destruct a, b; simpl; split; intros H; try easy. Qed.

Lemma hasConflictingGrants_loop_existsb (desiredGrant : MySQLGrant)
      (allGrants : list MySQLGrant) :
  hasConflictingGrants_loop desiredGrant allGrants
  = existsb (sameShape desiredGrant) allGrants.
Proof.
  induction allGrants as [|dbGrant allGrants IH]; [reflexivity|].
  cbn [hasConflictingGrants_loop existsb]. unfold sameShape at 1.
  destruct (Bool.eqb (GrantOption desiredGrant) (GrantOption dbGrant));
    cbn [negb andb orb]; [|exact IH].
  destruct (grantType_eqb (TypeOf desiredGrant) (TypeOf dbGrant));
    cbn [orb]; [reflexivity|exact IH].
Qed.

Lemma hasConflictingGrants_loop_true (desiredGrant : MySQLGrant)
      (allGrants : list MySQLGrant) :
  hasConflictingGrants_loop desiredGrant allGrants = true <->
  exists dbGrant,
    In dbGrant allGrants
    /\ GrantOption dbGrant = GrantOption desiredGrant
    /\ TypeOf dbGrant = TypeOf desiredGrant.
Proof.
  rewrite hasConflictingGrants_loop_existsb, existsb_exists.
  split; intros (dbGrant & Hin & H); exists dbGrant; (split; [assumption|]).
  - apply andb_true_iff in H. destruct H as [H1 H2].
    apply Bool.eqb_prop in H1. apply grantType_eqb_eq in H2. now split.
  - destruct H as [H1 H2]. unfold sameShape.
    rewrite H1, H2, Bool.eqb_reflx. simpl. now apply grantType_eqb_eq.
Qed.

(** C5. Once the live grants of the identity of the desired grant are
    retrieved, a conflict is reported exactly when one of them has the grant
    option flag and the type of the desired grant; databases and tables are
    not looked at. When create finds a conflict it fails with the error that
    tells to import first, and the only request made is the query of the
    live grants: no statement is executed. *)
Theorem conflict_detection (T : CaseTables) :
  forall db desiredGrant tr allGrants tr',
    showUserGrants db (GetUserOrRole desiredGrant) tr
    = (Done (Ok allGrants), tr') ->
    let conflict := existsb (sameShape desiredGrant) allGrants in
    hasConflictingGrants db (Some desiredGrant) tr
    = (Done (conflict, None), tr')
    /\ (conflict = true <->
        exists dbGrant,
          In dbGrant allGrants
          /\ GrantOption dbGrant = GrantOption desiredGrant
          /\ TypeOf dbGrant = TypeOf desiredGrant)
    /\ tr' = tr ++ [Query (go "SHOW GRANTS FOR "
                           ++ UserOrRole.SQLString (GetUserOrRole desiredGrant))]
    /\ (forall d meta,
          getDatabaseFromMeta meta = Ok db ->
          parseResourceFromData d = (Some desiredGrant, []) ->
          isRoleGrant (Some desiredGrant)
          && negb (versionGreaterThan_8_0_0 meta) = false ->
          conflict = true ->
          CreateGrant d meta tr
          = (Done (diag.Errorf
                     (go "user/role "
                      ++ UserOrRole.Sprint (GetUserOrRole desiredGrant)
                      ++ go " already has unmanaged grant - import it first"),
                   d),
             tr')).
Proof.
  intros db desiredGrant tr allGrants tr' Hshow conflict.
  assert (Hconf : hasConflictingGrants db (Some desiredGrant) tr
                  = (Done (conflict, None), tr')).
  { unfold hasConflictingGrants, bind, deref, ret. rewrite Hshow.
    now rewrite hasConflictingGrants_loop_existsb. }
  split; [exact Hconf|].
  split.
  { unfold conflict. rewrite <- hasConflictingGrants_loop_existsb.
    apply hasConflictingGrants_loop_true. }
  split.
  { unfold showUserGrants, bind, QueryContext in Hshow.
    destruct (isNonExistingGrant _) in Hshow.
    - now inversion Hshow.
    - destruct (QueryReply db tr _) in Hshow; now inversion Hshow. }
  intros d meta Hdb Hparse Hroles Hc.
  unfold CreateGrant. rewrite Hdb, Hparse. unfold supportsRoles.
  rewrite Hroles. unfold bind at 1. rewrite Hconf, Hc. reflexivity.
Qed.

(** The conflict scenario, from the theorem. *)
Lemma conflict_detection_scenario :
  hasConflictingGrants (T := asciiTables) dbConflict (Some gConflict) []
  = (Done (true, None), [Query (go "SHOW GRANTS FOR 'bob'@'%'")])
  /\ CreateGrant (T := asciiTables) dConflict
       {| getDatabaseFromMeta := Ok dbConflict;
          versionGreaterThan_8_0_0 := true |} []
     = (Done (diag.Errorf
                (go "user/role {bob %} already has unmanaged grant - import it first"),
              dConflict),
        [Query (go "SHOW GRANTS FOR 'bob'@'%'")]).
Proof.
  destruct (@conflict_detection asciiTables dbConflict gConflict []
              [liveConflict] [Query (go "SHOW GRANTS FOR 'bob'@'%'")])
    as (H1 & _ & _ & H4).
  - vm_compute. reflexivity.
  - split.
    + exact H1.
    + apply H4; vm_compute; reflexivity.
Defined.

(* ================================================================= *)
(** ** Nonexistent grants and other database errors *)

Lemma isNonExistingGrant_true (err : option error) :
  isNonExistingGrant err = true <->
  exists Number text,
    err = Some (MySQLError Number text)
    /\ (Number = 1141 \/ Number = 1147 \/ Number = 1403)%N.
Proof.
  split.
  - destruct err as [[Number text|text]|]; simpl; try discriminate.
    destruct ((Number =? 1141) || (Number =? 1147) || (Number =? 1403))%N
      eqn:E; [|discriminate].
    intros _. exists Number, text. split; [reflexivity|].
    apply orb_true_iff in E. destruct E as [E|E].
    + apply orb_true_iff in E. destruct E as [E|E]; apply N.eqb_eq in E; auto.
    + apply N.eqb_eq in E. auto.
  - intros (Number & text & -> & [H|[H|H]]); subst Number; reflexivity.
Qed.

(** C6, as the specification states it, fails on the retrieval of the live
    grants: a query that fails with another error than the three
    nonexistent-grant ones is a hard failure, but its text does not carry
    the statement. *)
Lemma show_grants_failure_omits_statement :
  exists err,
    showUserGrants (T := asciiTables) (rejectAll accessDenied) bob []
    = (Done (Err err), [Query (go "SHOW GRANTS FOR 'bob'@'%'")])
    /\ isNonExistingGrant (Some accessDenied) = false
    /\ strings.Contains (Error err) (go "SHOW GRANTS FOR 'bob'@'%'") = false.
Proof.
  eexists. split; [|split].
  - vm_compute. reflexivity.
  - reflexivity.
  - vm_compute. reflexivity.
Qed.

(** C6, amended. A revoke that fails with error 1141, 1147 or 1403 makes
    delete succeed, and a query of the live grants that fails with one of
    them gives the empty list. Any other error of the revoke makes delete
    fail with a diagnostic that carries the statement and the error; any
    other error of the query makes the retrieval fail with an error that
    carries the text of the database error (not the statement). *)
Theorem nonexistent_grant_is_success (T : CaseTables) :
  forall db tr,
    (forall err,
        isNonExistingGrant err = true <->
        exists Number text,
          err = Some (MySQLError Number text)
          /\ (Number = 1141 \/ Number = 1147 \/ Number = 1403)%N)
    /\ (forall d meta grant err,
          getDatabaseFromMeta meta = Ok db ->
          fst (parseResourceFromData d) = Some grant ->
          let sqlStatement := SQLRevokeStatement grant in
          ExecReply db tr sqlStatement = Some err ->
          (isNonExistingGrant (Some err) = true ->
           DeleteGrant d meta tr = (Done [], tr ++ [Exec sqlStatement]))
          /\ (isNonExistingGrant (Some err) = false ->
              let summary := go "error revoking ALL (" ++ sqlStatement
                             ++ go "): " ++ Error err in
              DeleteGrant d meta tr
              = (Done (diag.Errorf summary), tr ++ [Exec sqlStatement])
              /\ strings.Contains summary sqlStatement = true))
    /\ (forall userOrRole err,
          let sqlStatement :=
            go "SHOW GRANTS FOR " ++ UserOrRole.SQLString userOrRole in
          QueryReply db tr sqlStatement = Err err ->
          (isNonExistingGrant (Some err) = true ->
           showUserGrants db userOrRole tr
           = (Done (Ok []), tr ++ [Query sqlStatement]))
          /\ (isNonExistingGrant (Some err) = false ->
              showUserGrants db userOrRole tr
              = (Done (Err (Errorf
                   (go "showUserGrants - getting grants failed: "
                    ++ Error err))),
                 tr ++ [Query sqlStatement]))).
Proof.
  intros db tr.
  split; [exact isNonExistingGrant_true|].
  split.
  - intros d meta grant err Hdb Hparse sqlStatement Hexec.
    assert (Hrun : DeleteGrant d meta tr
                   = (if negb (isNonExistingGrant (Some err))
                      then Done (diag.Errorf
                             (go "error revoking ALL (" ++ sqlStatement
                              ++ go "): " ++ Error err))
                      else Done [],
                      tr ++ [Exec sqlStatement])).
    { unfold DeleteGrant. rewrite Hdb.
      destruct (parseResourceFromData d) as [g diagErr].
      cbn [fst] in Hparse. subst g.
      unfold bind, deref, ret, ExecContext. fold sqlStatement.
      rewrite Hexec.
      destruct (isNonExistingGrant (Some err)); reflexivity. }
    split; intros Hne; rewrite Hrun, Hne; cbn [negb]; [reflexivity|].
    split; [reflexivity|].
    apply (Contains_app (go "error revoking ALL (") sqlStatement
                        (go "): " ++ Error err)).
  - intros userOrRole err sqlStatement Hquery.
    unfold showUserGrants, bind, QueryContext. fold sqlStatement.
    rewrite Hquery.
    split; intros Hne; rewrite Hne; reflexivity.
Qed.

(** An idempotent delete, from the theorem: the revoke is rejected with
    error 1141 and delete succeeds. *)
Lemma nonexistent_grant_delete_scenario :
  DeleteGrant (T := asciiTables) dConflict
    {| getDatabaseFromMeta :=
         Ok (rejectAll (MySQLError 1141 (go "Error 1141: There is no such grant")));
       versionGreaterThan_8_0_0 := true |} []
  = (Done [], [Exec (go "REVOKE INSERT ON `shop`.`orders` FROM 'bob'@'%'")]).
Proof.
  destruct (@nonexistent_grant_is_success asciiTables
              (rejectAll (MySQLError 1141 (go "Error 1141: There is no such grant")))
              [])
    as (_ & H & _).
  destruct (H dConflict
              {| getDatabaseFromMeta :=
                   Ok (rejectAll (MySQLError 1141
                                    (go "Error 1141: There is no such grant")));
                 versionGreaterThan_8_0_0 := true |}
              gConflict
              (MySQLError 1141 (go "Error 1141: There is no such grant")))
    as (H1 & _).
  - reflexivity.
  - vm_compute. reflexivity.
  - reflexivity.
  - apply H1. reflexivity.
Defined.

(* ================================================================= *)
(** ** Validation failures in create and delete *)

(** C7. When neither a user with a host nor a role is supplied the parse of
    the resource data returns the validation failure, but create and delete
    test the error of the connection instead of that diagnostic: they go on
    with a nil grant and panic at its first method call, before any statement
    is sent. Read tests the diagnostic and returns it. The first resource
    data has no user and no role, the second a user without a host. *)
Theorem create_delete_panic_without_identity (T : CaseTables) :
  forall Id host user database table privileges prior roles grant tls_option
         db hasRoles tr,
    let meta := {| getDatabaseFromMeta := Ok db;
                   versionGreaterThan_8_0_0 := hasRoles |} in
    let d1 := schema.mk Id [] [] host database table privileges prior roles
                        grant tls_option in
    let d2 := schema.mk Id user [] [] database table privileges prior roles
                        grant tls_option in
    let required := diag.Errorf (go "One of user/host or role is required") in
    (parseResourceFromData d1 = (None, required)
     /\ CreateGrant d1 meta tr = (Panic nilDereference, tr)
     /\ DeleteGrant d1 meta tr = (Panic nilDereference, tr)
     /\ ReadGrant d1 meta tr = (Done (required, d1), tr))
    /\
    (parseResourceFromData d2 = (None, required)
     /\ CreateGrant d2 meta tr = (Panic nilDereference, tr)
     /\ DeleteGrant d2 meta tr = (Panic nilDereference, tr)
     /\ ReadGrant d2 meta tr = (Done (required, d2), tr)).
Proof.
  intros Id host user database table privileges prior roles grant tls_option
         db hasRoles tr meta d1 d2 required.
  assert (H1 : parseResourceFromData d1 = (None, required)) by reflexivity.
  assert (H2 : parseResourceFromData d2 = (None, required)).
  { unfold parseResourceFromData, d2. cbn.
    now rewrite !andb_false_r. }
  split; (split; [assumption|]).
  - unfold CreateGrant, DeleteGrant, ReadGrant. cbn [getDatabaseFromMeta meta].
    rewrite H1. repeat split; reflexivity.
  - unfold CreateGrant, DeleteGrant, ReadGrant. cbn [getDatabaseFromMeta meta].
    rewrite H2. repeat split; reflexivity.
Qed.

(* ================================================================= *)
(** ** The identity of a parsed row *)

(** No row is parsed into a grant owned by a role. *)
Lemma parseGrantFromRow_never_role (T : CaseTables) (grantStr : gostring)
      (grant : MySQLGrant) :
  parseGrantFromRow grantStr = Ok (Some grant) ->
  exists user host, GetUserOrRole grant = User user host.
Proof.
  unfold parseGrantFromRow.
  destruct (strings.HasPrefix grantStr (go "REVOKE")); [discriminate|].
  destruct (Nat.eqb (length (FindStringSubmatch userHostRegex grantStr)) 4)
    eqn:Euser.
  - destruct (Nat.eqb (length (FindStringSubmatch roleGrantRegex grantStr)) 3).
    { intros H. inversion H. cbn. eauto. }
    destruct (Nat.eqb (length (FindStringSubmatch procedureGrantRegex grantStr))
                      5).
    { intros H. inversion H. cbn. eauto. }
    destruct (Nat.eqb (length (FindStringSubmatch tableGrantRegex grantStr)) 4).
    { intros H. inversion H. cbn. eauto. }
    discriminate.
  - destruct (FindStringSubmatch_length userHostRegex grantStr)
      as [[Hnone _]|Hlen].
    + apply search_userHostRegex_roleRegex in Hnone.
      unfold FindStringSubmatch at 1. rewrite Hnone. cbn. discriminate.
    + rewrite Hlen in Euser. discriminate Euser.
Qed.

(** C8. A row whose identity is a bare quoted name is owned by a login
    identity with an empty host: the login pattern makes the host part
    optional, so it matches the bare name and the role pattern is never
    tried. No row at all is parsed into a grant owned by a role. *)
Theorem parse_bare_name_is_login (T : CaseTables) :
  parseGrantFromRow (go "GRANT SELECT ON *.* TO 'myrole'")
  = Ok (Some (TableG
      {| TablePrivilegeGrant.Database := go "*.*";
         TablePrivilegeGrant.Table := go "'myrole'";
         TablePrivilegeGrant.Privileges := [go "SELECT"];
         TablePrivilegeGrant.Grant := false;
         TablePrivilegeGrant.UserOrRole := User (go "myrole") [];
         TablePrivilegeGrant.TLSOption := [] |}))
  /\ FindStringSubmatch userHostRegex (go "GRANT SELECT ON *.* TO 'myrole'")
     = [go "'myrole'"; go "myrole"; []; []]
  /\ (forall grantStr,
        FindStringSubmatch userHostRegex grantStr = [] ->
        FindStringSubmatch roleRegex grantStr = [])
  /\ (forall grantStr grant,
        parseGrantFromRow grantStr = Ok (Some grant) ->
        exists user host, GetUserOrRole grant = User user host).
Proof.
  split; [vm_compute; reflexivity|].
  split; [vm_compute; reflexivity|].
  split.
  - intros grantStr H.
    destruct (FindStringSubmatch_length userHostRegex grantStr)
      as [[Hnone _]|Hlen].
    + apply search_userHostRegex_roleRegex in Hnone.
      unfold FindStringSubmatch. now rewrite Hnone.
    + rewrite H in Hlen. discriminate Hlen.
  - intros grantStr grant. apply parseGrantFromRow_never_role.
Qed.

(* ================================================================= *)
(** ** Canonicalization is idempotent *)

Lemma normalizeColumnOrder_columnList (perm : gostring) :
  normalizeColumnOrder perm
  = match columnList perm with
    | Some (name, columns) =>
        name ++ go "("
        ++ strings.Join
             (sort.Strings
                (map (fun p => strings.Trim p (go "` "))
                     (strings.Split columns (rn ","))))
             (go ", ")
        ++ go ")"
    | None => perm
    end.
Proof.
  unfold normalizeColumnOrder. rewrite FindStringSubmatch_columnListRegex.
  destruct (columnList perm) as [[name columns]|]; reflexivity.
Qed.

Lemma streq_with_parenthesis (s lit : gostring) :
  In (rn "(") s -> ~ In (rn "(") lit -> streq s lit = false.
Proof.
  intros Hs Hlit. apply streq_neq. intros ->. contradiction.
Qed.

Section Idempotence.

Context {T : CaseTables}.

(** What the proof needs of the case table of the Go distribution: mapping
    to upper case twice is mapping once, and no rune above ASCII has a space
    or a backtick as its upper case. *)
Hypothesis upper_idempotent :
  forall r, (unicode.MaxASCII < r)%N ->
            unicode.ToUpper (upperTable r) = upperTable r.

Hypothesis upper_not_blank :
  forall r, (unicode.MaxASCII < r)%N -> spaceOrBacktick (upperTable r) = false.

Lemma ToUpper_canonical (r : rune) :
  spaceOrBacktick r = false -> canonical (unicode.ToUpper r).
Proof.
  intros Hr. unfold canonical, unicode.ToUpper.
  destruct (r <=? unicode.MaxASCII)%N eqn:Eascii.
  - change (rn "a") with 97%N. change (rn "z") with 122%N.
    destruct ((97 <=? r) && (r <=? 122))%N eqn:Elower.
    + apply andb_true_iff in Elower. destruct Elower as [H1 H2].
      apply N.leb_le in H1, H2.
      assert (Hle : (r - 32 <=? unicode.MaxASCII)%N = true)
        by (apply N.leb_le; unfold unicode.MaxASCII; lia).
      assert (Hnot : (97 <=? r - 32)%N = false) by (apply N.leb_gt; lia).
      rewrite Hle, Hnot. cbn [andb]. split; [|reflexivity].
      unfold spaceOrBacktick. change (rn " ") with 32%N.
      change (rn "`") with 96%N.
      apply orb_false_iff. split; apply N.eqb_neq; lia.
    + rewrite Eascii, Elower. now split.
  - apply N.leb_gt in Eascii. split.
    + now apply upper_not_blank.
    + now apply upper_idempotent.
Qed.

Lemma Canonical_first_steps (perm : gostring) :
  Canonical (strings.ToUpper (ReplaceAllString spaceOrBacktick perm [])).
Proof.
  intros r Hr. unfold strings.ToUpper in Hr. apply in_map_iff in Hr.
  destruct Hr as (x & <- & Hx). apply ReplaceAllString_In in Hx.
  apply ToUpper_canonical. apply Hx.
Qed.

Lemma Canonical_ReplaceAllString (s : gostring) :
  Canonical s -> ReplaceAllString spaceOrBacktick s [] = s.
Proof. intros H. apply ReplaceAllString_id. intros r Hr. now apply H. Qed.

Lemma Canonical_ToUpper (s : gostring) : Canonical s -> strings.ToUpper s = s.
Proof.
  intros H. unfold strings.ToUpper. rewrite <- (map_id s) at 2.
  apply map_ext_in. intros r Hr. now apply H.
Qed.

Lemma Canonical_Trim (s : gostring) :
  Canonical s -> strings.Trim s (go "` ") = s.
Proof.
  intros H. apply Trim_id. intros r Hr. destruct (H r Hr) as [Hsp _].
  unfold spaceOrBacktick in Hsp. apply orb_false_iff in Hsp.
  destruct Hsp as [H1 H2]. unfold IndexRune.
  change (go "` ") with [rn "`"; rn " "]. cbn [existsb].
  now rewrite H1, H2.
Qed.

Lemma Canonical_app (a b : gostring) :
  Canonical a -> Canonical b -> Canonical (a ++ b).
Proof.
  intros Ha Hb r Hr. apply in_app_or in Hr. destruct Hr; auto.
Qed.

Lemma canonical_punctuation (r : rune) :
  In r (go "(,)") -> canonical r.
Proof.
  intros [<-|[<-|[<-|[]]]]; split; reflexivity.
Qed.

Lemma Canonical_Join_comma (parts : list gostring) :
  (forall w, In w parts -> Canonical w) ->
  Canonical (strings.Join parts (go ",")).
Proof.
  intros H r Hr. apply Join_In in Hr. destruct Hr as [Hr|(w & Hw & Hr)].
  - apply canonical_punctuation. destruct Hr as [<-|[]]. right. now left.
  - now apply (H w).
Qed.

(** Removing the spaces of the rejoined column list gives the list joined
    with bare commas. *)
Lemma ReplaceAllString_Join (parts : list gostring) :
  (forall w, In w parts -> Canonical w) ->
  ReplaceAllString spaceOrBacktick (strings.Join parts (go ", ")) []
  = strings.Join parts (go ",").
Proof.
  induction parts as [|e parts IH]; intros H; [reflexivity|].
  destruct parts as [|e' parts].
  - cbn [strings.Join]. apply Canonical_ReplaceAllString. apply H. now left.
  - rewrite !Join_cons by discriminate.
    rewrite !ReplaceAllString_app.
    rewrite Canonical_ReplaceAllString by (apply H; now left).
    rewrite IH by (intros w Hw; apply H; now right).
    reflexivity.
Qed.

(** One privilege: the body of the loop of [normalizePerms] is
    idempotent. *)
Lemma normalizePerm_idempotent (perm : gostring) :
  normalizePerm (normalizePerm perm) = normalizePerm perm.
Proof.
  unfold normalizePerm at 2 3.
  pose proof (Canonical_first_steps perm) as Hcanon.
  set (permUcase := strings.ToUpper (ReplaceAllString spaceOrBacktick perm []))
    in *.
  destruct (streq permUcase (go "ALL") || streq permUcase (go "ALLPRIVILEGES"))
    eqn:Eall.
  - assert (H : normalizeColumnOrder (go "ALL PRIVILEGES") = go "ALL PRIVILEGES")
      by (vm_compute; reflexivity).
    rewrite H. vm_compute. reflexivity.
  - rewrite normalizeColumnOrder_columnList.
    destruct (columnList permUcase) as [[name columns]|] eqn:Ecolumns.
    + destruct (@columnList_Some _ _ _ Ecolumns) as (Hperm & Hname & Hcolumns).
      assert (Hcname : Canonical name).
      { intros r Hr. apply Hcanon. rewrite Hperm. apply in_or_app. now left. }
      assert (Hccolumns : Canonical columns).
      { intros r Hr. apply Hcanon. rewrite Hperm. apply in_or_app. right.
        right. apply in_or_app. now left. }
      assert (Hpieces : forall w, In w (strings.Split columns (rn ",")) ->
                                  Canonical w).
      { intros w Hw r Hr. apply Hccolumns. eapply Split_In; eassumption. }
      assert (Htrim : map (fun p => strings.Trim p (go "` "))
                          (strings.Split columns (rn ","))
                      = strings.Split columns (rn ",")).
      { rewrite <- (map_id (strings.Split columns (rn ","))) at 2.
        apply map_ext_in. intros w Hw. apply Canonical_Trim. now apply Hpieces. }
      rewrite Htrim.
      set (parts := sort.Strings (strings.Split columns (rn ","))).
      assert (Hparts : forall w, In w parts -> Canonical w).
      { intros w Hw. apply Hpieces. now apply Strings_In. }
      assert (Hnosep : forall w, In w parts -> ~ In (rn ",") w).
      { intros w Hw. unfold parts in Hw. apply (proj1 (Strings_In _ _)) in Hw.
        eapply Split_no_sep; eassumption. }
      assert (Hne : parts <> []).
      { apply Strings_not_nil, Split_not_nil. }
      unfold normalizePerm.
      (* spaces removed *)
      rewrite !ReplaceAllString_app.
      rewrite (@Canonical_ReplaceAllString name Hcname).
      rewrite (@ReplaceAllString_Join parts Hparts).
      change (ReplaceAllString spaceOrBacktick (go "(") []) with (go "(").
      change (ReplaceAllString spaceOrBacktick (go ")") []) with (go ")").
      set (joined := strings.Join parts (go ",")).
      assert (Hcjoined : Canonical joined) by now apply Canonical_Join_comma.
      assert (Hcall : Canonical (name ++ go "(" ++ joined ++ go ")")).
      { apply Canonical_app; [assumption|].
        apply Canonical_app.
        { intros r [<-|[]]. apply canonical_punctuation. now left. }
        apply Canonical_app; [assumption|].
        intros r [<-|[]]. apply canonical_punctuation. right. right. now left. }
      (* upper case *)
      rewrite (@Canonical_ToUpper _ Hcall).
      (* not the alias of all privileges *)
      assert (Hin : In (rn "(") (name ++ go "(" ++ joined ++ go ")")).
      { apply in_or_app. right. now left. }
      rewrite (@streq_with_parenthesis _ (go "ALL") Hin),
              (@streq_with_parenthesis _ (go "ALLPRIVILEGES") Hin);
        try (intros Hlit; cbn in Hlit; intuition discriminate).
      cbn [orb].
      (* the column list again *)
      rewrite normalizeColumnOrder_columnList.
      change (name ++ go "(" ++ joined ++ go ")")
        with (name ++ rn "(" :: joined ++ [rn ")"]).
      rewrite columnList_intro; [|assumption|].
      2:{ apply forallb_forall. intros r Hr. apply Join_In in Hr.
          destruct Hr as [[<-|[]]|(w & Hw & Hr)]; [reflexivity|].
          apply (proj1 (forallb_forall _ _) Hcolumns).
          unfold parts in Hw. apply (proj1 (Strings_In _ _)) in Hw.
          eapply Split_In; eassumption. }
      unfold joined. change (go ",") with [rn ","].
      rewrite (@Split_Join (rn ",") parts Hne Hnosep).
      assert (Htrim' : map (fun p => strings.Trim p (go "` ")) parts = parts).
      { rewrite <- (map_id parts) at 2. apply map_ext_in.
        intros w Hw. apply Canonical_Trim. now apply Hparts. }
      rewrite Htrim'.
      unfold parts at 1.
      rewrite (@Strings_of_sorted _ (Strings_sorted (strings.Split columns (rn ",")))).
      reflexivity.
    + unfold normalizePerm.
      rewrite (@Canonical_ReplaceAllString _ Hcanon), (@Canonical_ToUpper _ Hcanon).
      rewrite Eall, normalizeColumnOrder_columnList, Ecolumns. reflexivity.
Qed.

Lemma normalizePerms_twice (perms : list gostring) :
  normalizePerms (normalizePerms perms) = normalizePerms perms.
Proof.
  unfold normalizePerms.
  induction perms as [|perm perms IH]; [reflexivity|].
  cbn [map removeUselessPerms].
  destruct (negb (streq (normalizePerm perm) (go "USAGE"))) eqn:E.
  - cbn [map removeUselessPerms].
    rewrite normalizePerm_idempotent, E, IH. reflexivity.
  - exact IH.
Qed.

End Idempotence.

(** C9. Canonicalizing a canonicalized privilege list changes nothing, for
    every list of privileges, the alias of all privileges and the rejoined
    column lists included. The statement is under what the Unicode case
    table of the Go distribution provides: upper case is idempotent, and no
    rune above ASCII becomes a space or a backtick. *)
Theorem normalizePerms_idempotent (T : CaseTables) :
  (forall r, (unicode.MaxASCII < r)%N ->
             unicode.ToUpper (upperTable r) = upperTable r) ->
  (forall r, (unicode.MaxASCII < r)%N ->
             spaceOrBacktick (upperTable r) = false) ->
  forall perms,
    normalizePerms (normalizePerms perms) = normalizePerms perms.
Proof.
  intros Hidem Hblank perms. now apply normalizePerms_twice.
Qed.

Lemma asciiTables_upper_idempotent (r : rune) :
  (unicode.MaxASCII < r)%N ->
  @unicode.ToUpper asciiTables (@upperTable asciiTables r)
  = @upperTable asciiTables r.
Proof.
  intros H. cbn [upperTable asciiTables]. unfold unicode.ToUpper.
  apply N.leb_gt in H. now rewrite H.
Qed.

Lemma asciiTables_upper_not_blank (r : rune) :
  (unicode.MaxASCII < r)%N ->
  spaceOrBacktick (@upperTable asciiTables r) = false.
Proof.
  intros H. cbn [upperTable asciiTables]. unfold unicode.MaxASCII in H.
  unfold spaceOrBacktick. change (rn " ") with 32%N. change (rn "`") with 96%N.
  apply orb_false_iff. split; apply N.eqb_neq; lia.
Qed.

(** The idempotence on a list with the alias, a column list to reorder, the
    placeholder and quoted names. *)
Lemma normalizePerms_idempotent_example :
  let perms := [go "all"; go "select (`b`, a)"; go "USAGE"; go "Insert"] in
  normalizePerms (T := asciiTables) perms
  = [go "ALL PRIVILEGES"; go "SELECT(A, B)"; go "INSERT"]
  /\ normalizePerms (T := asciiTables) (normalizePerms (T := asciiTables) perms)
     = normalizePerms (T := asciiTables) perms.
Proof.
  split.
  - vm_compute. reflexivity.
  - apply (@normalizePerms_idempotent asciiTables
             asciiTables_upper_idempotent asciiTables_upper_not_blank).
Defined.

(* ================================================================= *)
(** ** The tokenizer *)

Lemma splitOutsideParentheses_cons (g : gostring) (b : bool) :
  exists w ws, splitOutsideParentheses g b = w :: ws.
Proof.
  revert b. induction g as [|x g IH]; intros b; cbn [splitOutsideParentheses].
  - now exists [], [].
  - destruct (N.eqb x (rn ",") && negb b).
    + do 2 eexists; reflexivity.
    + match goal with |- context [splitOutsideParentheses g ?b'] =>
        destruct (IH b') as (w & ws & ->) end.
      do 2 eexists; reflexivity.
Qed.

Lemma complete_snoc (currentWord w : gostring) (b : rune) :
  complete (currentWord ++ [b]) w = currentWord ++ b :: w.
Proof.
  destruct currentWord; simpl; [reflexivity|].
  now rewrite <- app_assoc.
Qed.

Lemma complete_cons (currentWord w : gostring) (b : rune) :
  (unicode.IsSpace b && Nat.eqb (length currentWord) 0) = false ->
  complete currentWord (b :: w) = currentWord ++ b :: w.
Proof.
  destruct currentWord; simpl; [|reflexivity].
  rewrite andb_true_r. now intros ->.
Qed.

Lemma extractPermTypes_loop_spec (g : gostring) :
  forall grants inParentheses currentWord,
    extractPermTypes_loop g grants inParentheses currentWord
    = grants ++
      match splitOutsideParentheses g inParentheses with
      | w :: ws => complete currentWord w :: map (dropWhile unicode.IsSpace) ws
      | [] => []
      end.
Proof.
  induction g as [|b g IH]; intros grants inP cur.
  - simpl. destruct cur; simpl; [reflexivity|]. now rewrite app_nil_r.
  - cbn [extractPermTypes_loop splitOutsideParentheses].
    destruct (N.eqb b (rn ",")) eqn:Ecomma.
    + apply N.eqb_eq in Ecomma. subst b.
      destruct inP; cbn [andb negb].
      * rewrite IH.
        change (N.eqb (rn ",") (rn "(")) with false.
        change (N.eqb (rn ",") (rn ")")) with false. cbv iota.
        destruct (splitOutsideParentheses_cons g true) as (w & ws & ->).
        rewrite complete_snoc, complete_cons by reflexivity. reflexivity.
      * rewrite IH, <- app_assoc.
        destruct (splitOutsideParentheses_cons g false) as (w & ws & ->).
        simpl. f_equal. f_equal.
        destruct cur; simpl; [reflexivity|]. now rewrite app_nil_r.
    + cbn [andb].
      destruct (N.eqb b (rn "(")) eqn:Eopen.
      * rewrite IH.
        destruct (splitOutsideParentheses_cons g true) as (w & ws & ->).
        apply N.eqb_eq in Eopen. subst b.
        rewrite complete_snoc, complete_cons by reflexivity. reflexivity.
      * destruct (N.eqb b (rn ")")) eqn:Eclose.
        -- rewrite IH.
           destruct (splitOutsideParentheses_cons g false) as (w & ws & ->).
           apply N.eqb_eq in Eclose. subst b.
           rewrite complete_snoc, complete_cons by reflexivity. reflexivity.
        -- destruct (unicode.IsSpace b && Nat.eqb (length cur) 0) eqn:Esp.
           ++ rewrite IH.
              destruct (splitOutsideParentheses_cons g inP) as (w & ws & ->).
              apply andb_true_iff in Esp. destruct Esp as [Esp Elen].
              destruct cur; [|discriminate]. simpl. now rewrite Esp.
           ++ rewrite IH.
              destruct (splitOutsideParentheses_cons g inP) as (w & ws & ->).
              rewrite complete_snoc. now rewrite (complete_cons _ _ _ Esp).
Qed.

(** C10. The tokenizer cuts its argument at the commas outside parentheses
    (one boolean of parenthesis state) and drops the white space at the
    start of each token; on the example it gives the two tokens of the
    specification. *)
Theorem extractPermTypes_tokenize :
  (forall g, extractPermTypes g = tokenize g)
  /\ extractPermTypes (go "SELECT (a,b), INSERT")
     = [go "SELECT (a,b)"; go "INSERT"].
Proof.
  split.
  - intros g. unfold extractPermTypes, tokenize.
    rewrite extractPermTypes_loop_spec. simpl.
    destruct (splitOutsideParentheses_cons g false) as (w & ws & ->).
    reflexivity.
  - vm_compute. reflexivity.
Qed.

(* ================================================================= *)
(** * Further properties of the code *)

(* ================================================================= *)
(** ** Retrieval of the live grants *)

Lemma showUserGrants_rows_invariant (T : CaseTables)
      (P : MySQLGrant -> Prop) (userOrRole : UserOrRole.t) :
  (forall rawGrant parsedGrant,
      parseGrantFromRow rawGrant = Ok (Some parsedGrant) ->
      streq (UserOrRole.SQLString (GetUserOrRole parsedGrant))
            (UserOrRole.SQLString userOrRole) = true ->
      P parsedGrant) ->
  forall rows grants result,
    (forall g, In g grants -> P g) ->
    showUserGrants_rows rows userOrRole grants = Ok result ->
    forall g, In g result -> P g.
Proof.
  intros HP. induction rows as [|r rows IH]; intros grants result Hacc Hrun.
  - cbn in Hrun. inversion Hrun. now subst.
  - cbn [showUserGrants_rows] in Hrun.
    destruct r as [rawGrant|err]; [|discriminate Hrun].
    destruct (parseGrantFromRow rawGrant) as [[parsedGrant|]|err] eqn:Eparse;
      [| |discriminate Hrun].
    + destruct (streq (UserOrRole.SQLString (GetUserOrRole parsedGrant))
                      (UserOrRole.SQLString userOrRole)) eqn:Esame;
        cbn [negb] in Hrun.
      * apply (IH (grants ++ [parsedGrant]) result); [|exact Hrun].
        intros g Hg. apply in_app_or in Hg. destruct Hg as [Hg|[<-|[]]].
        -- now apply Hacc.
        -- now apply (HP rawGrant).
      * apply (IH _ _ Hacc Hrun).
    + apply (IH _ _ Hacc Hrun).
Qed.

Lemma showUserGrants_result (T : CaseTables) db userOrRole tr out tr' :
  showUserGrants db userOrRole tr = (out, tr') ->
  tr' = tr ++ [Query (go "SHOW GRANTS FOR " ++ UserOrRole.SQLString userOrRole)]
  /\ exists r, out = Done r
     /\ (forall grants, r = Ok grants ->
           grants = []
           \/ exists rows,
               QueryReply db tr
                 (go "SHOW GRANTS FOR " ++ UserOrRole.SQLString userOrRole)
               = Ok rows
               /\ showUserGrants_rows rows userOrRole [] = Ok grants).
Proof.
  unfold showUserGrants, bind, QueryContext, ret.
  destruct (isNonExistingGrant _).
  - intros H. inversion H. split; [reflexivity|].
    eexists. split; [reflexivity|]. intros grants Hg. inversion Hg. now left.
  - destruct (QueryReply db tr _) as [rows|err] eqn:Ereply;
      intros H; inversion H; (split; [reflexivity|]);
      eexists; (split; [reflexivity|]); intros grants Hg.
    + right. exists rows. now split.
    + discriminate Hg.
Qed.

(** X1. The live grants retrieved for an identity all render to that
    identity (rows of another identity, which some servers add, are
    dropped), and the retrieval makes one request, the query of the
    grants. *)
Theorem showUserGrants_only_requested_identity (T : CaseTables) :
  forall db userOrRole tr grants tr',
    showUserGrants db userOrRole tr = (Done (Ok grants), tr') ->
    (forall g, In g grants ->
               UserOrRole.SQLString (GetUserOrRole g)
               = UserOrRole.SQLString userOrRole)
    /\ tr' = tr ++ [Query (go "SHOW GRANTS FOR "
                           ++ UserOrRole.SQLString userOrRole)].
Proof.
  intros db userOrRole tr grants tr' H.
  apply showUserGrants_result in H. destruct H as (Htr & r & Hr & Hgrants).
  split; [|exact Htr].
  inversion Hr. subst r.
  destruct (Hgrants grants eq_refl) as [->|(rows & _ & Hrows)];
    [intros g []|].
  refine (@showUserGrants_rows_invariant T
            (fun g => UserOrRole.SQLString (GetUserOrRole g)
                      = UserOrRole.SQLString userOrRole)
            userOrRole _ rows [] grants _ Hrows).
  - intros rawGrant parsedGrant _ Hsame. now apply streq_eq.
  - intros g [].
Qed.

(** The retrieval with the rows of two identities: the row of the other
    host is dropped. *)
Lemma showUserGrants_only_requested_identity_example :
  (forall g,
      In g [TableG {| TablePrivilegeGrant.Database := go "*.*";
                      TablePrivilegeGrant.Table := go "'bob'@'%'";
                      TablePrivilegeGrant.Privileges := [go "SELECT"];
                      TablePrivilegeGrant.Grant := false;
                      TablePrivilegeGrant.UserOrRole := bob;
                      TablePrivilegeGrant.TLSOption := [] |}] ->
      UserOrRole.SQLString (GetUserOrRole g) = UserOrRole.SQLString bob)
  /\ [Query (go "SHOW GRANTS FOR 'bob'@'%'")]
     = [] ++ [Query (go "SHOW GRANTS FOR " ++ UserOrRole.SQLString bob)].
Proof.
  apply (@showUserGrants_only_requested_identity asciiTables
           {| ExecReply := fun _ _ => None;
              QueryReply := fun _ _ =>
                Ok [Ok (go "GRANT SELECT ON *.* TO 'bob'@'%'");
                    Ok (go "GRANT INSERT ON *.* TO 'bob'@'10.0.0.1'")] |}
           bob []).
  vm_compute. reflexivity.
Defined.

(* ================================================================= *)
(** ** The grant a resource declares *)

Lemma parseResourceFromData_None (T : CaseTables) (d : schema.ResourceData) :
  declaredIdentity d = None ->
  parseResourceFromData d
  = (None, diag.Errorf (go "One of user/host or role is required")).
Proof.
  unfold declaredIdentity, parseResourceFromData, schema.GetOk.
  set (idUser := negb (streq (schema.user d) [])).
  set (idHost := negb (streq (schema.host d) [])).
  set (idRole := negb (streq (schema.role d) [])).
  destruct idUser, idHost, idRole; cbn [andb]; intros H;
    try discriminate H; reflexivity.
Qed.

Lemma parseResourceFromData_Some (T : CaseTables) (d : schema.ResourceData)
      (userOrRole : UserOrRole.t) :
  declaredIdentity d = Some userOrRole ->
  exists grant,
    parseResourceFromData d = (Some grant, [])
    /\ GetUserOrRole grant = userOrRole
    /\ GrantOption grant = schema.grant d
    /\ (schema.roles d <> [] ->
        grant = RoleG {| RoleGrant.Roles := schema.roles d;
                         RoleGrant.Grant := schema.grant d;
                         RoleGrant.UserOrRole := userOrRole;
                         RoleGrant.TLSOption := schema.tls_option d |})
    /\ (schema.roles d = [] -> TypeOf grant <> PtrRoleGrant).
Proof.
  unfold declaredIdentity, parseResourceFromData, schema.GetOk.
  set (idUser := negb (streq (schema.user d) [])).
  set (idHost := negb (streq (schema.host d) [])).
  set (idRole := negb (streq (schema.role d) [])).
  assert (Huser : idUser && idHost && idUser && idHost = idUser && idHost)
    by (destruct idUser, idHost; reflexivity).
  assert (Hrole : idRole && idRole = idRole) by (destruct idRole; reflexivity).
  rewrite Huser, Hrole. clear Huser Hrole.
  intros H. rewrite H. clear H.
  unfold schema.GetOkSet, setToArray.
  destruct (schema.roles d) as [|role0 roles0] eqn:Eroles;
    cbn [length Nat.eqb negb].
  - destruct (MatchString kReProcedureWithDatabase (schema.database d)
              || MatchString kReProcedureWithoutDatabase (schema.database d)).
    + destruct (MatchString kReProcedureWithDatabase (schema.database d));
        eexists; (split; [reflexivity|]); cbn;
        repeat split; try congruence; discriminate.
    + eexists. split; [reflexivity|]. cbn.
      repeat split; try congruence; discriminate.
  - eexists. split; [reflexivity|]. cbn.
    repeat split; try congruence.
Qed.

(** X2. The declared grant and the diagnostics exclude each other: without
    an identity there is no grant and one diagnostic; with one there is a
    grant owned by it and no diagnostic, the user with its host taking
    precedence over the role, and the grant is a role-membership grant
    whenever roles are declared, whatever the database attribute says. *)
Theorem parseResourceFromData_identity (T : CaseTables) :
  forall d,
    (declaredIdentity d = None
     /\ parseResourceFromData d
        = (None, diag.Errorf (go "One of user/host or role is required")))
    \/ exists userOrRole grant,
        declaredIdentity d = Some userOrRole
        /\ parseResourceFromData d = (Some grant, [])
        /\ GetUserOrRole grant = userOrRole
        /\ GrantOption grant = schema.grant d
        /\ (schema.roles d <> [] ->
            grant = RoleG {| RoleGrant.Roles := schema.roles d;
                             RoleGrant.Grant := schema.grant d;
                             RoleGrant.UserOrRole := userOrRole;
                             RoleGrant.TLSOption := schema.tls_option d |})
        /\ (schema.roles d = [] -> TypeOf grant <> PtrRoleGrant).
Proof.
  intros d. destruct (declaredIdentity d) as [userOrRole|] eqn:Eid.
  - right. destruct (parseResourceFromData_Some T d Eid) as (grant & H).
    exists userOrRole, grant. split; [reflexivity|exact H].
  - left. split; [reflexivity|]. now apply parseResourceFromData_None.
Qed.

(* ================================================================= *)
(** ** Import *)

Lemma Split_length (s : gostring) (sep : rune) :
  length (strings.Split s sep) = S (Count s sep).
Proof.
  induction s as [|x s IH]; [reflexivity|].
  cbn [strings.Split Count]. destruct (N.eqb x sep).
  - cbn [length]. now rewrite IH.
  - destruct (strings.Split s sep) as [|w ws]; cbn [length] in *;
      [discriminate IH|exact IH].
Qed.

(** X3. An import identifier that has neither three nor four at signs is
    refused with the format error, before the connection is used and
    without a request. *)
Theorem ImportGrant_wrong_format (T : CaseTables) :
  forall d meta tr,
    Count (schema.Id d) (rn "@") <> 3 ->
    Count (schema.Id d) (rn "@") <> 4 ->
    ImportGrant d meta tr
    = (Done (Err (Errorf
         (go "wrong ID format " ++ schema.Id d
          ++ go " - expected user@host@database@table (and optionally ending @ to signify grant option) where some parts can be empty)"))),
       tr).
Proof.
  intros d meta tr H3 H4. unfold ImportGrant.
  rewrite Split_length.
  destruct (Count (schema.Id d) (rn "@")) as [|[|[|[|[|n]]]]];
    try reflexivity; congruence.
Qed.

(** An identifier with two at signs is refused. *)
Lemma ImportGrant_wrong_format_example :
  ImportGrant (T := asciiTables)
    (schema.SetId schema.Data_nil (go "bob@%@app"))
    {| getDatabaseFromMeta := Ok acceptAll; versionGreaterThan_8_0_0 := true |}
    []
  = (Done (Err (Errorf
       (go "wrong ID format bob@%@app - expected user@host@database@table (and optionally ending @ to signify grant option) where some parts can be empty)"))),
     []).
Proof.
  apply (@ImportGrant_wrong_format asciiTables
           (schema.SetId schema.Data_nil (go "bob@%@app"))); cbn; discriminate.
Defined.

(** X4. An import never executes a statement and never panics: it makes no
    request or the one query of the grants of the login named by the first
    two parts of the identifier, and it imports at most one resource. *)
Theorem ImportGrant_footprint (T : CaseTables) :
  forall d meta tr,
    exists result,
      fst (ImportGrant d meta tr) = Done result
      /\ (snd (ImportGrant d meta tr) = tr
          \/ snd (ImportGrant d meta tr)
             = tr ++ [Query (go "SHOW GRANTS FOR "
                             ++ UserOrRole.SQLString
                                  (User (index (strings.Split (schema.Id d) (rn "@")) 0)
                                        (index (strings.Split (schema.Id d) (rn "@")) 1)))])
      /\ (forall imported, result = Ok imported -> length imported <= 1).
Proof.
  intros d meta tr. unfold ImportGrant.
  destruct (negb (Nat.eqb (length (strings.Split (schema.Id d) (rn "@"))) 4)
            && negb (Nat.eqb (length (strings.Split (schema.Id d) (rn "@"))) 5)).
  { eexists. split; [reflexivity|]. split; [now left|]. discriminate. }
  destruct (getDatabaseFromMeta meta) as [db|err].
  2:{ eexists. split; [reflexivity|]. split; [now left|]. discriminate. }
  unfold bind.
  destruct (showUserGrants db _ tr) as [out tr'] eqn:Eshow.
  apply showUserGrants_result in Eshow. destruct Eshow as (-> & r & -> & _).
  destruct r as [grants|err].
  - destruct (ImportGrant_loop grants _ _ _); eexists;
      (split; [reflexivity|]); (split; [now right|]);
      intros imported H; inversion H; cbn; lia.
  - eexists. split; [reflexivity|]. split; [now right|]. discriminate.
Qed.

(* ================================================================= *)
(** ** Read *)

Lemma parseResourceFromData_SetId (T : CaseTables) (d : schema.ResourceData)
      (v : gostring) :
  parseResourceFromData (schema.SetId d v) = parseResourceFromData d.
Proof. reflexivity. Qed.

Lemma parseResourceFromData_cases (T : CaseTables) (d : schema.ResourceData) :
  (exists grant, parseResourceFromData d = (Some grant, []))
  \/ parseResourceFromData d
     = (None, diag.Errorf (go "One of user/host or role is required")).
Proof.
  destruct (declaredIdentity d) as [userOrRole|] eqn:Eid.
  - left. destruct (parseResourceFromData_Some T d Eid) as (grant & H & _).
    now exists grant.
  - right. now apply parseResourceFromData_None.
Qed.

Lemma ReadGrant_declared (T : CaseTables) d meta db grant tr :
  getDatabaseFromMeta meta = Ok db ->
  parseResourceFromData d = (Some grant, []) ->
  exists diags d',
    ReadGrant d meta tr
    = (Done (diags, d'), tr ++ [showGrantsFor (GetUserOrRole grant)])
    /\ (diags <> [] -> d' = d)
    /\ (diags = [] -> d' = schema.SetId d [] \/ d' = setDataFromGrant grant d).
Proof.
  intros Hdb Hparse. unfold ReadGrant. rewrite Hdb, Hparse.
  unfold bind, deref, ret. cbn beta iota.
  destruct (showUserGrants db (GetUserOrRole grant) tr) as [out tr1] eqn:Eshow.
  apply showUserGrants_result in Eshow. destruct Eshow as (-> & r & -> & _).
  destruct r as [allGrants|err].
  - destruct (Nat.eqb (length allGrants) 0); do 2 eexists;
      (split; [reflexivity|]); split; try congruence; intros _; tauto.
  - do 2 eexists. split; [reflexivity|]. split; [reflexivity|].
    unfold diag.Errorf. discriminate.
Qed.

(** X5. A read never panics and never executes a statement: it makes no
    request, or the one query of the live grants of the declared identity.
    When it returns a diagnostic the resource data are untouched. When it
    returns none, the resource data are either marked as absent or
    overwritten with the grant the resource itself declares: no attribute
    of a live grant is ever copied into the resource. *)
Theorem ReadGrant_footprint (T : CaseTables) :
  forall d meta tr,
    exists diags d',
      fst (ReadGrant d meta tr) = Done (diags, d')
      /\ (diags <> [] -> d' = d)
      /\ (snd (ReadGrant d meta tr) = tr /\ diags <> []
          \/ exists grant,
              parseResourceFromData d = (Some grant, [])
              /\ snd (ReadGrant d meta tr)
                 = tr ++ [showGrantsFor (GetUserOrRole grant)]
              /\ (diags = [] ->
                  d' = schema.SetId d [] \/ d' = setDataFromGrant grant d)).
Proof.
  intros d meta tr.
  destruct (getDatabaseFromMeta meta) as [db|err] eqn:Edb.
  - destruct (parseResourceFromData_cases T d) as [[grant Hparse]|Hparse].
    + destruct (@ReadGrant_declared T d meta db grant tr Edb Hparse)
        as (diags & d' & Hread & Hdiag & Hdone).
      exists diags, d'. rewrite Hread. cbn [fst snd].
      split; [reflexivity|]. split; [exact Hdiag|].
      right. exists grant. now repeat split.
    + unfold ReadGrant. rewrite Edb, Hparse. do 2 eexists.
      split; [reflexivity|]. split; [reflexivity|].
      left. split; [reflexivity|discriminate].
  - unfold ReadGrant. rewrite Edb. do 2 eexists.
    split; [reflexivity|]. split; [reflexivity|].
    left. split; [reflexivity|discriminate].
Qed.

(* ================================================================= *)
(** ** The declared grant written back *)

Lemma parseResourceFromData_inv (T : CaseTables) (d : schema.ResourceData)
      (grant : MySQLGrant) :
  parseResourceFromData d = (Some grant, []) ->
  exists userOrRole,
    declaredIdentity d = Some userOrRole
    /\ match grant with
       | TableG t =>
           schema.roles d = []
           /\ MatchString kReProcedureWithDatabase (schema.database d)
              || MatchString kReProcedureWithoutDatabase (schema.database d)
              = false
           /\ t = {| TablePrivilegeGrant.Database := schema.database d;
                     TablePrivilegeGrant.Table := schema.table d;
                     TablePrivilegeGrant.Privileges :=
                       normalizePerms (schema.privileges d);
                     TablePrivilegeGrant.Grant := schema.grant d;
                     TablePrivilegeGrant.UserOrRole := userOrRole;
                     TablePrivilegeGrant.TLSOption := schema.tls_option d |}
       | ProcedureG p =>
           schema.roles d = []
           /\ MatchString kReProcedureWithDatabase (schema.database d)
              || MatchString kReProcedureWithoutDatabase (schema.database d)
              = true
           /\ ProcedurePrivilegeGrant.Privileges p
              = normalizePerms (schema.privileges d)
       | RoleG r =>
           schema.roles d <> []
           /\ r = {| RoleGrant.Roles := schema.roles d;
                     RoleGrant.Grant := schema.grant d;
                     RoleGrant.UserOrRole := userOrRole;
                     RoleGrant.TLSOption := schema.tls_option d |}
       end.
Proof.
  intros Hparse. destruct (declaredIdentity d) as [userOrRole|] eqn:Eid.
  2:{ rewrite (parseResourceFromData_None T d Eid) in Hparse.
      discriminate Hparse. }
  exists userOrRole. split; [reflexivity|].
  revert Eid Hparse.
  unfold declaredIdentity, parseResourceFromData, schema.GetOk.
  set (idUser := negb (streq (schema.user d) [])).
  set (idHost := negb (streq (schema.host d) [])).
  set (idRole := negb (streq (schema.role d) [])).
  assert (Huser : idUser && idHost && idUser && idHost = idUser && idHost)
    by (destruct idUser, idHost; reflexivity).
  assert (Hrole : idRole && idRole = idRole) by (destruct idRole; reflexivity).
  rewrite Huser, Hrole. clear Huser Hrole.
  intros H. rewrite H. clear H.
  unfold schema.GetOkSet, setToArray.
  destruct (schema.roles d) as [|role0 roles0] eqn:Eroles;
    cbn [length Nat.eqb negb].
  - destruct (MatchString kReProcedureWithDatabase (schema.database d)
              || MatchString kReProcedureWithoutDatabase (schema.database d))
      eqn:Ematch.
    + destruct (MatchString kReProcedureWithDatabase (schema.database d));
        intros Hparse; inversion Hparse; cbn; now repeat split.
    + intros Hparse; inversion Hparse. now repeat split.
  - intros Hparse. inversion Hparse. split; [discriminate|reflexivity].
Qed.






Section Stability.

Context {T : CaseTables}.

Hypothesis upper_idempotent :
  forall r, (unicode.MaxASCII < r)%N ->
            unicode.ToUpper (upperTable r) = upperTable r.

Hypothesis upper_not_blank :
  forall r, (unicode.MaxASCII < r)%N -> spaceOrBacktick (upperTable r) = false.


End Stability.



(* ================================================================= *)
(** ** Create *)

(** X8. A resource that declares roles is refused by create on a server
    whose version does not support roles, before any request is made. *)
Theorem CreateGrant_roles_unsupported (T : CaseTables) :
  forall d meta db userOrRole tr,
    getDatabaseFromMeta meta = Ok db ->
    versionGreaterThan_8_0_0 meta = false ->
    declaredIdentity d = Some userOrRole ->
    schema.roles d <> [] ->
    CreateGrant d meta tr
    = (Done (diag.Errorf
               (go "role grants are not supported by this version of MySQL"),
             d),
       tr).
Proof.
  intros d meta db userOrRole tr Hdb Hversion Hid Hroles.
  destruct (parseResourceFromData_Some T d Hid)
    as (grant & Hparse & _ & _ & Hrole & _).
  unfold CreateGrant, supportsRoles. rewrite Hdb, Hparse, Hversion.
  rewrite (Hrole Hroles). reflexivity.
Qed.

(** The membership of [editor] for [bob] on a server before 8.0.0. *)
Lemma CreateGrant_roles_unsupported_example :
  CreateGrant (T := asciiTables) dMember
    {| getDatabaseFromMeta := Ok acceptAll; versionGreaterThan_8_0_0 := false |}
    []
  = (Done (diag.Errorf
             (go "role grants are not supported by this version of MySQL"),
           dMember),
     []).
Proof.
  apply (@CreateGrant_roles_unsupported asciiTables dMember
           {| getDatabaseFromMeta := Ok acceptAll;
              versionGreaterThan_8_0_0 := false |}
           acceptAll bob []).
  - reflexivity.
  - reflexivity.
  - reflexivity.
  - discriminate.
Defined.

Lemma hasConflictingGrants_result (T : CaseTables) db grant tr :
  exists r,
    hasConflictingGrants db (Some grant) tr
    = (Done r, tr ++ [showGrantsFor (GetUserOrRole grant)]).
Proof.
  unfold hasConflictingGrants, bind, deref, ret.
  destruct (showUserGrants db (GetUserOrRole grant) tr) as [out tr1] eqn:Eshow.
  apply showUserGrants_result in Eshow. destruct Eshow as (-> & r & -> & _).
  destruct r; eexists; reflexivity.
Qed.

(** X9. Create makes its requests in one order: the query of the live
    grants of the declared identity, then the grant statement of the
    declared grant, then the query of the read that follows; it stops after
    none, one, two or three of them and executes no other statement. When it
    returns no diagnostic all three were made, and the resource is left
    either with the id of the declared grant or, when the second query
    lists no grant of the identity, with an empty id. *)
Theorem CreateGrant_footprint (T : CaseTables) :
  forall d meta tr,
    exists out requests,
      CreateGrant d meta tr = (out, tr ++ requests)
      /\ (requests = []
          \/ exists grant,
              parseResourceFromData d = (Some grant, [])
              /\ (requests = [showGrantsFor (GetUserOrRole grant)]
                  \/ requests = [showGrantsFor (GetUserOrRole grant);
                                 Exec (SQLGrantStatement grant)]
                  \/ requests = [showGrantsFor (GetUserOrRole grant);
                                 Exec (SQLGrantStatement grant);
                                 showGrantsFor (GetUserOrRole grant)]))
      /\ (forall d',
            out = Done ([], d') ->
            exists grant,
              parseResourceFromData d = (Some grant, [])
              /\ requests = [showGrantsFor (GetUserOrRole grant);
                             Exec (SQLGrantStatement grant);
                             showGrantsFor (GetUserOrRole grant)]
              /\ (d' = schema.SetId d []
                  \/ d' = setDataFromGrant grant
                            (schema.SetId d (GetId grant)))).
Proof.
  intros d meta tr. unfold CreateGrant.
  destruct (getDatabaseFromMeta meta) as [db|err] eqn:Edb.
  2:{ eexists. exists []. rewrite app_nil_r. split; [reflexivity|].
      split; [now left|]. intros d' H. failed_outcome H. }
  destruct (parseResourceFromData_cases T d) as [[grant Hparse]|Hparse];
    rewrite Hparse; unfold supportsRoles; cbn beta iota.
  2:{ eexists. exists []. rewrite app_nil_r. split; [reflexivity|].
      split; [now left|]. intros d' H. discriminate H. }
  destruct (isRoleGrant (Some grant) && negb (versionGreaterThan_8_0_0 meta)).
  { eexists. exists []. rewrite app_nil_r. split; [reflexivity|].
    split; [now left|]. intros d' H. failed_outcome H. }
  unfold bind at 1.
  destruct (hasConflictingGrants_result T db grant tr) as ([hasConflicts err] & ->).
  destruct err as [err|].
  { eexists. exists [showGrantsFor (GetUserOrRole grant)].
    split; [reflexivity|].
    split; [right; exists grant; split; [reflexivity|now left]|].
    intros d' H. failed_outcome H. }
  destruct hasConflicts.
  { eexists. exists [showGrantsFor (GetUserOrRole grant)].
    split; [reflexivity|].
    split; [right; exists grant; split; [reflexivity|now left]|].
    intros d' H. failed_outcome H. }
  unfold bind, deref, ret, ExecContext. cbn beta iota.
  destruct (ExecReply db _ (SQLGrantStatement grant)) as [err|].
  { eexists.
    exists [showGrantsFor (GetUserOrRole grant); Exec (SQLGrantStatement grant)].
    rewrite <- (app_assoc tr). split; [reflexivity|].
    split; [right; exists grant; split; [reflexivity|right; now left]|].
    intros d' H. failed_outcome H. }
  destruct (@ReadGrant_declared T (schema.SetId d (GetId grant)) meta db grant
              ((tr ++ [showGrantsFor (GetUserOrRole grant)])
                 ++ [Exec (SQLGrantStatement grant)]) Edb Hparse)
    as (diags & d0 & Hread & _ & Hdone).
  exists (Done (diags, d0)).
  exists [showGrantsFor (GetUserOrRole grant); Exec (SQLGrantStatement grant);
          showGrantsFor (GetUserOrRole grant)].
  split.
  { unfold showGrantsFor in Hread |- *. rewrite Hread.
    now rewrite <- !(app_assoc tr). }
  split; [right; exists grant; split; [reflexivity|right; now right]|].
  intros d' H. inversion H. subst diags d0.
  exists grant. split; [reflexivity|]. split; [reflexivity|].
  destruct (Hdone eq_refl) as [->| ->]; [now left|now right].
Qed.

Lemma CreateGrant_success_read (T : CaseTables) d meta tr d' tr' :
  CreateGrant d meta tr = (Done ([], d'), tr') ->
  exists grant tr2,
    parseResourceFromData d = (Some grant, [])
    /\ ReadGrant (schema.SetId d (GetId grant)) meta tr2 = (Done ([], d'), tr').
Proof.
  unfold CreateGrant.
  destruct (getDatabaseFromMeta meta) as [db|err] eqn:Edb;
    [|intros H; failed_outcome H].
  destruct (parseResourceFromData_cases T d) as [[grant Hparse]|Hparse];
    rewrite Hparse; unfold supportsRoles; cbn beta iota;
    [|intros H; discriminate H].
  destruct (isRoleGrant (Some grant) && negb (versionGreaterThan_8_0_0 meta));
    [intros H; failed_outcome H|].
  unfold bind at 1.
  destruct (hasConflictingGrants_result T db grant tr) as ([hasConflicts err] & ->).
  destruct err as [err|]; [intros H; failed_outcome H|].
  destruct hasConflicts; [intros H; failed_outcome H|].
  unfold bind, deref, ret, ExecContext. cbn beta iota.
  destruct (ExecReply db _ (SQLGrantStatement grant)) as [err|];
    [intros H; failed_outcome H|].
  intros H. exists grant. eexists. split; [reflexivity|exact H].
Qed.

(* ================================================================= *)
(** ** Resources owned by a role *)

Lemma SQLString_User_Role (user host role : gostring) :
  UserOrRole.SQLString (User user host) = UserOrRole.SQLString (Role role) ->
  In (rn "'") role.
Proof.
  unfold UserOrRole.SQLString. intros H.
  apply app_inv_head in H. rewrite !app_assoc in H.
  apply (app_inj_tail ((user ++ go "'@'") ++ host) role (rn "'") (rn "'")) in H.
  destruct H as [<- _].
  apply in_or_app. left. apply in_or_app. right. now left.
Qed.

(** X10. For a role whose name has no single quote, the retrieval of the
    live grants never returns a grant: every parsed row is owned by a login,
    whose rendering differs from the role's, and is dropped. So a read of a
    resource owned by such a role that succeeds always clears the id of the
    resource, whatever the server holds, and so does a create that
    succeeds, after its statement was executed. *)
Theorem role_owned_resource_reads_absent (T : CaseTables) :
  forall role,
    ~ In (rn "'") role ->
    (forall db tr grants tr',
        showUserGrants db (Role role) tr = (Done (Ok grants), tr') ->
        grants = [])
    /\ (forall d meta tr d' tr',
          declaredIdentity d = Some (Role role) ->
          ReadGrant d meta tr = (Done ([], d'), tr') ->
          d' = schema.SetId d [])
    /\ (forall d meta tr d' tr',
          declaredIdentity d = Some (Role role) ->
          CreateGrant d meta tr = (Done ([], d'), tr') ->
          d' = schema.SetId d []).
Proof.
  intros role Hquote.
  assert (Hshow : forall db tr grants tr',
             showUserGrants db (Role role) tr = (Done (Ok grants), tr') ->
             grants = []).
  { intros db tr grants tr' H.
    apply showUserGrants_result in H. destruct H as (_ & r & Hr & Hgrants).
    inversion Hr. subst r.
    destruct (Hgrants grants eq_refl) as [->|(rows & _ & Hrows)];
      [reflexivity|].
    destruct grants as [|g grants]; [reflexivity|]. exfalso.
    refine (@showUserGrants_rows_invariant T (fun _ => False) (Role role)
              _ rows [] (g :: grants) _ Hrows g (or_introl eq_refl)).
    - intros rawGrant parsedGrant Hparse Hsame.
      apply parseGrantFromRow_never_role in Hparse.
      destruct Hparse as (user & host & Hid). rewrite Hid in Hsame.
      apply streq_eq, SQLString_User_Role in Hsame. contradiction.
    - intros g' []. }
  assert (Hread : forall d meta tr d' tr',
             declaredIdentity d = Some (Role role) ->
             ReadGrant d meta tr = (Done ([], d'), tr') ->
             d' = schema.SetId d []);
    [|split; [exact Hshow|split; [exact Hread|]];
      intros d meta tr d' tr' Hid Hcreate;
      apply CreateGrant_success_read in Hcreate;
      destruct Hcreate as (grant & tr2 & _ & Hcreate);
      now apply Hread in Hcreate].
  intros d meta tr d' tr' Hid Hread.
  unfold ReadGrant in Hread.
  destruct (getDatabaseFromMeta meta) as [db|err]; [|discriminate Hread].
  destruct (parseResourceFromData_Some T d Hid) as (grant & Hparse & Howner & _).
  rewrite Hparse in Hread. cbn [deref] in Hread.
  unfold bind, ret in Hread. cbn beta iota in Hread.
  rewrite Howner in Hread.
  destruct (showUserGrants db (Role role) tr) as [[[grants|err]|msg] tr1]
    eqn:Eshow; try discriminate Hread.
  apply Hshow in Eshow. subst grants. cbn in Hread. now inversion Hread.
Qed.

(** The read of a resource owned by the role [editor], on a server that
    lists a grant of it: the id is cleared. *)
Lemma role_owned_resource_reads_absent_example :
  exists d',
    ReadGrant (T := asciiTables) dRole
      {| getDatabaseFromMeta := Ok dbRole; versionGreaterThan_8_0_0 := true |}
      []
    = (Done ([], d'), [Query (go "SHOW GRANTS FOR 'editor'")])
    /\ d' = schema.SetId dRole [].
Proof.
  eexists. split.
  - vm_compute. reflexivity.
  - assert (Hquote : ~ In (rn "'") (go "editor"))
      by (cbn; intuition discriminate).
    apply (proj1 (proj2 (@role_owned_resource_reads_absent asciiTables
                           (go "editor") Hquote))
             dRole
             {| getDatabaseFromMeta := Ok dbRole;
                versionGreaterThan_8_0_0 := true |}
             [] _ [Query (go "SHOW GRANTS FOR 'editor'")]).
    + reflexivity.
    + vm_compute. reflexivity.
Defined.


(* ================================================================= *)
(** ** Update *)

Lemma updatePrivileges_result (T : CaseTables) db d grant tr :
  exists err requests,
    updatePrivileges db d grant tr = (Done err, tr ++ requests)
    /\ onlyExecs requests /\ length requests <= 2.
Proof.
  unfold updatePrivileges, bind, ret, ExecContext, onlyExecs.
  destruct (Nat.ltb 0 (length (schema.Difference (schema.privileges_prior d)
                                                 (schema.privileges d)))).
  - destruct (PrivilegesPartiallyRevocable grant) as [partialRevoke|].
    + destruct (ExecReply db tr _) as [err|].
      * do 2 eexists. split; [reflexivity|]. split; [|cbn; lia].
        intros q [<-|[]]. eauto.
      * destruct (Nat.ltb 0 (length (schema.Difference (schema.privileges d)
                                       (schema.privileges_prior d)))).
        -- eexists. exists [Exec (partialRevoke
                                    (schema.Difference (schema.privileges_prior d)
                                                       (schema.privileges d)));
                            Exec (SQLGrantStatement grant)].
           rewrite <- (app_assoc tr). split; [reflexivity|]. split; [|cbn; lia].
           intros q [<-|[<-|[]]]; eauto.
        -- do 2 eexists. split; [reflexivity|]. split; [|cbn; lia].
           intros q [<-|[]]. eauto.
    + eexists. exists []. rewrite app_nil_r. split; [reflexivity|].
      split; [intros q []|cbn; lia].
  - destruct (Nat.ltb 0 (length (schema.Difference (schema.privileges d)
                                   (schema.privileges_prior d)))).
    + do 2 eexists. split; [reflexivity|]. split; [|cbn; lia].
      intros q [<-|[]]. eauto.
    + eexists. exists []. rewrite app_nil_r. split; [reflexivity|].
      split; [intros q []|cbn; lia].
Qed.

(** X11. An update never panics and never queries: it executes at most two
    statements and nothing else. When the privileges did not change it
    makes no request and, the connection given, returns no diagnostic,
    whatever else changed in the resource; when no identity is declared it
    makes no request either. *)
Theorem UpdateGrant_footprint (T : CaseTables) :
  forall d meta tr,
    exists diags requests,
      UpdateGrant d meta tr = (Done diags, tr ++ requests)
      /\ onlyExecs requests
      /\ length requests <= 2
      /\ (declaredIdentity d = None -> requests = [])
      /\ (schema.privileges_prior d = schema.privileges d ->
          requests = []
          /\ (forall db, getDatabaseFromMeta meta = Ok db -> diags = [])).
Proof.
  intros d meta tr. unfold UpdateGrant.
  assert (Hnone : forall diags : Diagnostics,
             exists diags' requests,
               (Done diags, tr) = (Done diags', tr ++ requests)
               /\ onlyExecs requests /\ length requests <= 2
               /\ requests = [] /\ diags' = diags).
  { intros diags. exists diags, []. rewrite app_nil_r.
    split; [reflexivity|]. split; [intros q []|]. split; [cbn; lia|]. tauto. }
  destruct (getDatabaseFromMeta meta) as [db|err] eqn:Edb.
  2:{ destruct (Hnone (diag.FromErr err))
        as (diags & requests & H1 & H2 & H3 & H4 & _).
      exists diags, requests.
      split; [exact H1|]. split; [exact H2|]. split; [exact H3|].
      split; [intros _; exact H4|]. intros _. split; [exact H4|].
      intros db Hdb. discriminate Hdb. }
  unfold HasChange_privileges.
  destruct (list_eq_dec (list_eq_dec N.eq_dec) (schema.privileges_prior d)
                        (schema.privileges d)) as [Hsame|Hchange];
    cbn [negb].
  { destruct (Hnone []) as (diags & requests & H1 & H2 & H3 & H4 & H5).
    exists diags, requests.
    split; [exact H1|]. split; [exact H2|]. split; [exact H3|].
    split; [intros _; exact H4|]. intros _. split; [exact H4|].
    intros db' _. exact H5. }
  destruct (parseResourceFromData_cases T d) as [[grant Hparse]|Hparse];
    rewrite Hparse.
  2:{ destruct (Hnone (diag.Errorf (go "One of user/host or role is required")))
        as (diags & requests & H1 & H2 & H3 & H4 & _).
      exists diags, requests.
      split; [exact H1|]. split; [exact H2|]. split; [exact H3|].
      split; [intros _; exact H4|]. intros Hsame. contradiction. }
  unfold bind, deref, ret. cbn beta iota.
  destruct (@updatePrivileges_result T db d grant tr)
    as (err & requests & -> & Hexecs & Hlen).
  destruct (parseResourceFromData_inv T d Hparse) as (userOrRole & Hid & _).
  destruct err as [err|]; do 2 eexists; (split; [reflexivity|]);
    (split; [exact Hexecs|]); (split; [exact Hlen|]);
    (split; [intros Hnoid; congruence|intros Hsame; contradiction]).
Qed.

(* ================================================================= *)
(** ** Delete *)

(** X12. With a connection and a declared identity, a delete makes one
    request, the revoke statement of the declared grant, and never queries.
    It returns no diagnostic exactly when the server accepts the statement
    or answers that the grant does not exist. *)
Theorem DeleteGrant_one_statement (T : CaseTables) :
  forall d meta db userOrRole tr,
    getDatabaseFromMeta meta = Ok db ->
    declaredIdentity d = Some userOrRole ->
    exists grant diags,
      parseResourceFromData d = (Some grant, [])
      /\ DeleteGrant d meta tr
         = (Done diags, tr ++ [Exec (SQLRevokeStatement grant)])
      /\ (diags = [] <->
          ExecReply db tr (SQLRevokeStatement grant) = None
          \/ isNonExistingGrant (ExecReply db tr (SQLRevokeStatement grant))
             = true).
Proof.
  intros d meta db userOrRole tr Hdb Hid.
  destruct (parseResourceFromData_Some T d Hid) as (grant & Hparse & _).
  exists grant. unfold DeleteGrant. rewrite Hdb, Hparse.
  unfold bind, deref, ret, ExecContext. cbn beta iota.
  destruct (ExecReply db tr (SQLRevokeStatement grant)) as [err|] eqn:Ereply.
  - destruct (isNonExistingGrant (Some err)) eqn:Enone; cbn [negb];
      eexists; (split; [reflexivity|]); (split; [reflexivity|]).
    + split; [intros _; now right|reflexivity].
    + unfold diag.Errorf. split; [discriminate|].
      intros [H|H]; discriminate H.
  - eexists. split; [reflexivity|]. split; [reflexivity|].
    split; [intros _; now left|reflexivity].
Qed.

(** The delete of the resource of the diff scenario on a server that
    accepts every statement. *)
Lemma DeleteGrant_one_statement_example :
  exists grant diags,
    parseResourceFromData (T := asciiTables) dDiff = (Some grant, [])
    /\ DeleteGrant (T := asciiTables) dDiff
         {| getDatabaseFromMeta := Ok acceptAll;
            versionGreaterThan_8_0_0 := true |} []
       = (Done diags, [] ++ [Exec (SQLRevokeStatement grant)])
    /\ (diags = [] <->
        ExecReply acceptAll [] (SQLRevokeStatement grant) = None
        \/ isNonExistingGrant (ExecReply acceptAll [] (SQLRevokeStatement grant))
           = true).
Proof.
  apply (@DeleteGrant_one_statement asciiTables dDiff
           {| getDatabaseFromMeta := Ok acceptAll;
              versionGreaterThan_8_0_0 := true |}
           acceptAll bob []); reflexivity.
Defined.

(* ================================================================= *)
(** ** Quoting of the database *)

Lemma HasSuffix_app (s suffix : gostring) :
  strings.HasSuffix (s ++ suffix) suffix = true.
Proof.
  unfold strings.HasSuffix. rewrite rev_app_distr. apply HasPrefix_app.
Qed.

Lemma quoted_not_star (s : gostring) : streq (go "`" ++ s) (go "*") = false.
Proof. reflexivity. Qed.

(** X13. The quoting of the database is idempotent: the quoted database of
    a table grant or of a routine grant is the wildcard or ends with a
    backtick, and a grant for the quoted database has the same quoted
    database, so a name is never quoted twice. *)
Theorem GetDatabase_idempotent :
  (forall t,
      (TablePrivilegeGrant.GetDatabase t = go "*"
       \/ strings.HasSuffix (TablePrivilegeGrant.GetDatabase t) (go "`") = true)
      /\ TablePrivilegeGrant.GetDatabase
           {| TablePrivilegeGrant.Database := TablePrivilegeGrant.GetDatabase t;
              TablePrivilegeGrant.Table := TablePrivilegeGrant.Table t;
              TablePrivilegeGrant.Privileges := TablePrivilegeGrant.Privileges t;
              TablePrivilegeGrant.Grant := TablePrivilegeGrant.Grant t;
              TablePrivilegeGrant.UserOrRole := TablePrivilegeGrant.UserOrRole t;
              TablePrivilegeGrant.TLSOption := TablePrivilegeGrant.TLSOption t |}
         = TablePrivilegeGrant.GetDatabase t)
  /\ (forall p,
        (ProcedurePrivilegeGrant.GetDatabase p = go "*"
         \/ strings.HasSuffix (ProcedurePrivilegeGrant.GetDatabase p) (go "`")
            = true)
        /\ ProcedurePrivilegeGrant.GetDatabase
             {| ProcedurePrivilegeGrant.Database :=
                  ProcedurePrivilegeGrant.GetDatabase p;
                ProcedurePrivilegeGrant.ObjectT :=
                  ProcedurePrivilegeGrant.ObjectT p;
                ProcedurePrivilegeGrant.CallableName :=
                  ProcedurePrivilegeGrant.CallableName p;
                ProcedurePrivilegeGrant.Privileges :=
                  ProcedurePrivilegeGrant.Privileges p;
                ProcedurePrivilegeGrant.Grant := ProcedurePrivilegeGrant.Grant p;
                ProcedurePrivilegeGrant.UserOrRole :=
                  ProcedurePrivilegeGrant.UserOrRole p;
                ProcedurePrivilegeGrant.TLSOption :=
                  ProcedurePrivilegeGrant.TLSOption p |}
           = ProcedurePrivilegeGrant.GetDatabase p).
Proof.
  assert (Hquote : forall Database,
             let quoted :=
               if negb (streq Database (go "*"))
                  && negb (strings.HasSuffix Database (go "`"))
               then go "`" ++ Database ++ go "`"
               else Database in
             (quoted = go "*" \/ strings.HasSuffix quoted (go "`") = true)
             /\ (if negb (streq quoted (go "*"))
                    && negb (strings.HasSuffix quoted (go "`"))
                 then go "`" ++ quoted ++ go "`"
                 else quoted) = quoted).
  { intros Database.
    destruct (streq Database (go "*")) eqn:Estar; cbn [negb andb].
    - rewrite Estar. cbn [negb andb]. apply streq_eq in Estar. now split; [left|].
    - destruct (strings.HasSuffix Database (go "`")) eqn:Esuffix; cbn [negb andb].
      + rewrite Estar, Esuffix. cbn [negb andb]. now split; [right|].
      + cbv zeta. rewrite quoted_not_star.
        rewrite (app_assoc (go "`") Database (go "`")), HasSuffix_app.
        cbn [negb andb]. now split; [right|]. }
  split.
  - intros t. exact (Hquote (TablePrivilegeGrant.Database t)).
  - intros p. exact (Hquote (ProcedurePrivilegeGrant.Database p)).
Qed.

(* ================================================================= *)
(** ** The placeholder privilege *)

(** X14. The placeholder privilege is never among the canonical
    privileges, and canonicalizing drops a privilege exactly when its
    canonical form is the placeholder: the canonical list is the list of
    the canonical forms without the placeholders, in the order given. *)
Theorem normalizePerms_without_usage (T : CaseTables) :
  forall perms,
    ~ In (go "USAGE") (normalizePerms perms)
    /\ normalizePerms perms
       = filter (fun perm => negb (streq perm (go "USAGE")))
                (map normalizePerm perms)
    /\ length (normalizePerms perms) <= length perms.
Proof.
  intros perms. unfold normalizePerms.
  assert (Hfilter : forall grants,
             removeUselessPerms grants
             = filter (fun perm => negb (streq perm (go "USAGE"))) grants).
  { induction grants as [|grant grants IH]; [reflexivity|].
    cbn [removeUselessPerms filter].
    destruct (negb (streq grant (go "USAGE"))); now rewrite IH. }
  rewrite Hfilter. split; [|split; [reflexivity|]].
  - intros Hin. apply filter_In in Hin. destruct Hin as [_ Hin].
    now rewrite streq_refl in Hin.
  - rewrite <- (length_map normalizePerm perms). apply filter_length_le.
Qed.

(* ================================================================= *)
(** ** Rows of routine grants *)

Lemma run_succeedsWhere (a : Regexp) : covers a a.
Proof.
  unfold covers, succeedsWhere.
  induction a as [|p|a1 IH1 a2 IH2|a1 IH1 a2 IH2|p|i a IH| | |];
    intros k1 k2 Hk prev s c1 c2.
  - apply Hk.
  - rewrite !regexp_facts.run_Class. destruct s as [|x s]; [tauto|].
    destruct (p x); [apply Hk|tauto].
  - rewrite !regexp_facts.run_Cat. apply IH1. intros prev' s' c1' c2'.
    now apply IH2.
  - cbn [run]. intros H.
    destruct (run a1 prev s c1 k1) eqn:E1.
    + assert (H1 : run a1 prev s c2 k2 <> None)
        by (apply (IH1 k1 k2 Hk prev s c1 c2); congruence).
      now destruct (run a1 prev s c2 k2).
    + destruct (run a1 prev s c2 k2); [discriminate|].
      now apply (IH2 k1 k2 Hk prev s c1 c2).
  - revert prev. induction s as [|x s IHs]; intros prev.
    + rewrite !regexp_facts.run_Star_nil. apply Hk.
    + rewrite !regexp_facts.run_Star_cons. destruct (p x); [|apply Hk].
      intros H. destruct (run (Star p) (Some x) s c1 k1) eqn:E1.
      * assert (H1 : run (Star p) (Some x) s c2 k2 <> None)
          by (apply IHs; congruence).
        now destruct (run (Star p) (Some x) s c2 k2).
      * destruct (run (Star p) (Some x) s c2 k2); [discriminate|].
        now apply (Hk prev (x :: s) c1 c2).
  - rewrite !regexp_facts.run_Capture. apply IH.
    intros prev' s' c1' c2'. apply Hk.
  - cbn [run]. destruct prev; [tauto|apply Hk].
  - cbn [run]. destruct s; [apply Hk|tauto].
  - cbn [run]. destruct (xorb _ _); [apply Hk|tauto].
Qed.

Lemma covers_Cat (a b1 b2 : Regexp) :
  covers b1 b2 -> covers (Cat a b1) (Cat a b2).
Proof.
  intros Hb k1 k2 Hk prev s c1 c2. rewrite !regexp_facts.run_Cat.
  apply (@run_succeedsWhere a). now apply Hb.
Qed.

Lemma covers_Capture (i j : nat) (a : Regexp) :
  covers (Capture i a) (Capture j a).
Proof.
  intros k1 k2 Hk prev s c1 c2. rewrite !regexp_facts.run_Capture.
  apply (@run_succeedsWhere a). intros prev' s' c1' c2'. apply Hk.
Qed.

(** What a pattern consumes when it matches. *)
Lemma run_classesWithin (p : rune -> bool) (a : Regexp) :
  classesWithin p a ->
  forall prev s c k,
    run a prev s c k <> None ->
    exists w s' prev' c',
      s = w ++ s' /\ forallb p w = true /\ k prev' s' c' <> None.
Proof.
  induction a as [|q|a1 IH1 a2 IH2|a1 IH1 a2 IH2|q|i a IH| | |];
    intros Hw prev s c k H.
  - now exists [], s, prev, c.
  - rewrite regexp_facts.run_Class in H. destruct s as [|x s]; [tauto|].
    destruct (q x) eqn:Ex; [|tauto].
    exists [x], s, (Some x), c. cbn. now rewrite (Hw x Ex).
  - rewrite regexp_facts.run_Cat in H. destruct Hw as [Hw1 Hw2].
    apply (IH1 Hw1) in H. destruct H as (w1 & s1 & prev1 & c1 & -> & Hf1 & H).
    apply (IH2 Hw2) in H. destruct H as (w2 & s2 & prev2 & c2 & -> & Hf2 & H).
    exists (w1 ++ w2), s2, prev2, c2.
    rewrite app_assoc, forallb_app, Hf1, Hf2. auto.
  - cbn [run] in H. destruct Hw as [Hw1 Hw2].
    destruct (run a1 prev s c k) eqn:E1.
    + apply (IH1 Hw1 prev s c k). congruence.
    + now apply (IH2 Hw2 prev s c k).
  - cbn [classesWithin] in Hw. revert prev H.
    induction s as [|x s IHs]; intros prev H.
    + rewrite regexp_facts.run_Star_nil in H. now exists [], [], prev, c.
    + rewrite regexp_facts.run_Star_cons in H.
      destruct (q x) eqn:Ex; [|now exists [], (x :: s), prev, c].
      destruct (run (Star q) (Some x) s c k) eqn:E1;
        [|now exists [], (x :: s), prev, c].
      destruct (IHs (Some x)) as (w & s' & prev' & c' & -> & Hf & Hk);
        [congruence|].
      exists (x :: w), s', prev', c'. cbn. now rewrite (Hw x Ex), Hf.
  - rewrite regexp_facts.run_Capture in H. apply (IH Hw) in H.
    destruct H as (w & s' & prev' & c' & -> & Hf & H).
    exists w, s', prev'. eexists. split; [reflexivity|]. split; [exact Hf|].
    exact H.
  - cbn [run] in H. destruct prev; [tauto|]. now exists [], s, None, c.
  - cbn [run] in H. destruct s; [|tauto]. now exists [], [], prev, c.
  - cbn [run] in H. destruct (xorb _ _); [|tauto]. now exists [], s, prev, c.
Qed.

Lemma run_classesWithin_list (p : rune -> bool) (mids : list Regexp)
      (tail : Regexp) :
  Forall (classesWithin p) mids ->
  forall prev s c k,
    run (fold_right Cat tail mids) prev s c k <> None ->
    exists w s' prev' c',
      s = w ++ s' /\ forallb p w = true /\ run tail prev' s' c' k <> None.
Proof.
  induction 1 as [|mid mids Hmid _ IH]; intros prev s c k H.
  - now exists [], s, prev, c.
  - cbn [fold_right] in H. rewrite regexp_facts.run_Cat in H.
    apply (@run_classesWithin p mid Hmid) in H.
    destruct H as (w1 & s1 & prev1 & c1 & -> & Hf1 & H).
    apply IH in H. destruct H as (w2 & s2 & prev2 & c2 & -> & Hf2 & H).
    exists (w1 ++ w2), s2, prev2, c2.
    rewrite app_assoc, forallb_app, Hf1, Hf2. auto.
Qed.

(** A repetition can take any run of runes of its class that the rest of
    the pattern accepts the text after. *)
Lemma run_Star_complete (p : rune -> bool) (w s' : gostring) (c : captures)
      (k : continuation) :
  forallb p w = true ->
  (forall prev', k prev' s' c <> None) ->
  forall prev, run (Star p) prev (w ++ s') c k <> None.
Proof.
  intros Hw Hk. induction w as [|x w IH]; intros prev.
  - cbn [app]. destruct s' as [|y s'].
    + rewrite regexp_facts.run_Star_nil. apply Hk.
    + rewrite regexp_facts.run_Star_cons. destruct (p y); [|apply Hk].
      destruct (run (Star p) (Some y) s' c k); [discriminate|apply Hk].
  - cbn [forallb] in Hw. apply andb_true_iff in Hw. destruct Hw as [Hx Hw].
    cbn [app]. rewrite regexp_facts.run_Star_cons, Hx.
    specialize (IH Hw (Some x)).
    now destruct (run (Star p) (Some x) (w ++ s') c k).
Qed.

(** A group of one or more runes of a class, followed by patterns that
    consume runes of the class only, is covered by the group alone: the
    group can take what those patterns took. *)
Lemma covers_absorb (p : rune -> bool) (i : nat) (mids : list Regexp)
      (tail1 tail2 : Regexp) :
  Forall (classesWithin p) mids ->
  covers tail1 tail2 ->
  prevFree tail2 ->
  covers (Cat (Capture i (Plus p)) (fold_right Cat tail1 mids))
         (Cat (Capture i (Plus p)) tail2).
Proof.
  intros Hmids Htail Hfree k1 k2 Hk prev s c1 c2.
  rewrite !regexp_facts.run_Cat, !regexp_facts.run_Capture. unfold Plus.
  rewrite !regexp_facts.run_Cat, !regexp_facts.run_Class.
  destruct s as [|x s1]; [tauto|]. destruct (p x); [|tauto].
  intros H.
  apply (@run_classesWithin p (Star p) (fun r Hr => Hr)) in H.
  destruct H as (w1 & s2 & prev1 & c1' & -> & Hf1 & H).
  apply (@run_classesWithin_list p mids tail1 Hmids) in H.
  destruct H as (w2 & s3 & prev2 & c2' & -> & Hf2 & H).
  rewrite app_assoc. apply run_Star_complete.
  - now rewrite forallb_app, Hf1, Hf2.
  - intros prev'. rewrite (Hfree prev' prev2).
    now apply (Htail k1 k2 Hk prev2 s3 c2').
Qed.

Lemma run_procedureGrantRegex_roleGrantRegex (prev : option rune)
      (s : gostring) :
  run procedureGrantRegex prev s [] accept <> None ->
  run roleGrantRegex prev s [] accept <> None.
Proof.
  assert (Hcovers : covers procedureGrantRegex roleGrantRegex).
  { unfold procedureGrantRegex, roleGrantRegex, MustCompile. cbn [Cats].
    apply covers_Cat, covers_Cat.
    apply (@covers_absorb word_space_comma 1
             [Plus space; Lit (go "ON"); Plus space;
              Capture 2 (Alt (Lit (go "FUNCTION")) (Lit (go "PROCEDURE")));
              Plus space; Capture 3 (Plus word_space_comma)]).
    - assert (Hspace : forall r, space r = true -> word_space_comma r = true).
      { intros r Hr. unfold word_space_comma. rewrite Hr.
        now rewrite orb_true_r. }
      assert (Hlit : forall x r,
                 word_space_comma x = true -> N.eqb x r = true ->
                 word_space_comma r = true).
      { intros x r Hx Hr. apply N.eqb_eq in Hr. now subst r. }
      repeat constructor; try exact Hspace; try (intros r Hr; exact Hr);
        intros r; now apply Hlit.
    - apply covers_Cat, covers_Cat, covers_Cat, covers_Capture.
    - intros prev1 prev2 s1 c k. reflexivity. }
  apply (Hcovers accept accept). intros prev' s' c1 c2 _. discriminate.
Qed.

Lemma search_covers (a b : Regexp) :
  (forall prev s, run a prev s [] accept <> None ->
                  run b prev s [] accept <> None) ->
  forall s prev, search a prev s <> None -> search b prev s <> None.
Proof.
  intros Hab. induction s as [|x s IH]; intros prev H; cbn [search] in *.
  - destruct (run a prev [] [] accept) as [[s' c]|] eqn:Ea; [|tauto].
    assert (Hb : run b prev [] [] accept <> None) by (apply Hab; congruence).
    destruct (run b prev [] [] accept) as [[s1 c1]|]; [discriminate|tauto].
  - destruct (run b prev (x :: s) [] accept) as [[s1 c1]|] eqn:Eb;
      [discriminate|].
    destruct (run a prev (x :: s) [] accept) as [[s' c]|] eqn:Ea.
    + exfalso. apply (Hab prev (x :: s)); congruence.
    + now apply IH.
Qed.

Lemma FindStringSubmatch_procedure_role (grantStr : gostring) :
  length (FindStringSubmatch procedureGrantRegex grantStr) = 5 ->
  length (FindStringSubmatch roleGrantRegex grantStr) = 3.
Proof.
  intros H.
  destruct (FindStringSubmatch_length roleGrantRegex grantStr)
    as [[Hnone _]|Hlen]; [exfalso|exact Hlen].
  revert Hnone.
  apply (@search_covers procedureGrantRegex roleGrantRegex
           run_procedureGrantRegex_roleGrantRegex grantStr None).
  unfold FindStringSubmatch in H.
  destruct (search procedureGrantRegex None grantStr);
    [discriminate|discriminate H].
Qed.

Lemma parseGrantFromRow_not_procedure (T : CaseTables) (grantStr : gostring)
      (grant : MySQLGrant) :
  parseGrantFromRow grantStr = Ok (Some grant) ->
  TypeOf grant <> PtrProcedurePrivilegeGrant.
Proof.
  unfold parseGrantFromRow.
  destruct (strings.HasPrefix grantStr (go "REVOKE")); [discriminate|].
  match goal with
  | |- match ?u with Some _ => _ | None => _ end = _ -> _ =>
      destruct u as [userOrRole|]; [|discriminate]
  end.
  destruct (Nat.eqb (length (FindStringSubmatch roleGrantRegex grantStr)) 3)
    eqn:Erole.
  { intros H. inversion H. discriminate. }
  destruct (Nat.eqb (length (FindStringSubmatch procedureGrantRegex grantStr))
                    5) eqn:Eproc.
  { apply Nat.eqb_eq, FindStringSubmatch_procedure_role in Eproc.
    rewrite Eproc in Erole. discriminate Erole. }
  destruct (Nat.eqb (length (FindStringSubmatch tableGrantRegex grantStr)) 4);
    [|discriminate].
  intros H. inversion H. discriminate.
Qed.

Lemma showUserGrants_not_procedure (T : CaseTables) db userOrRole tr grants tr' :
  showUserGrants db userOrRole tr = (Done (Ok grants), tr') ->
  forall g, In g grants -> TypeOf g <> PtrProcedurePrivilegeGrant.
Proof.
  intros Hshow. apply showUserGrants_result in Hshow.
  destruct Hshow as (_ & r & Hr & Hgrants). inversion Hr. subst r.
  destruct (Hgrants grants eq_refl) as [->|(rows & _ & Hrows)];
    [intros g []|].
  refine (@showUserGrants_rows_invariant T
            (fun g => TypeOf g <> PtrProcedurePrivilegeGrant)
            userOrRole _ rows [] grants _ Hrows).
  - intros rawGrant parsedGrant Hrow _.
    now apply (@parseGrantFromRow_not_procedure T rawGrant).
  - intros g [].
Qed.

(** X15. No row is parsed into a routine grant. Wherever the pattern of
    the routine grants matches, the pattern of the role memberships, which
    is tried first, matches too: what stands between [GRANT] and [TO] in
    such a row is made of word runes, white space and commas only. So the
    live grants never hold a routine grant, and a routine grant a resource
    declares is never found in conflict. *)
Theorem parseGrantFromRow_never_procedure (T : CaseTables) :
  (forall grantStr,
      length (FindStringSubmatch procedureGrantRegex grantStr) = 5 ->
      length (FindStringSubmatch roleGrantRegex grantStr) = 3)
  /\ (forall grantStr grant,
        parseGrantFromRow grantStr = Ok (Some grant) ->
        TypeOf grant <> PtrProcedurePrivilegeGrant)
  /\ (forall db userOrRole tr grants tr',
        showUserGrants db userOrRole tr = (Done (Ok grants), tr') ->
        (forall g, In g grants -> TypeOf g <> PtrProcedurePrivilegeGrant)
        /\ forall p, hasConflictingGrants_loop (ProcedureG p) grants = false).
Proof.
  split; [exact FindStringSubmatch_procedure_role|].
  split; [exact (@parseGrantFromRow_not_procedure T)|].
  intros db userOrRole tr grants tr' Hshow.
  assert (Hgrants : forall g, In g grants ->
                              TypeOf g <> PtrProcedurePrivilegeGrant)
    by (now apply (@showUserGrants_not_procedure T db userOrRole tr grants tr')).
  split; [exact Hgrants|]. intros p.
  clear Hshow. induction grants as [|g grants IH]; [reflexivity|].
  cbn [hasConflictingGrants_loop].
  assert (Hg : TypeOf g <> PtrProcedurePrivilegeGrant)
    by (apply Hgrants; now left).
  assert (Hrest : hasConflictingGrants_loop (ProcedureG p) grants = false)
    by (apply IH; intros g' Hg'; apply Hgrants; now right).
  rewrite Hrest.
  destruct (negb (Bool.eqb (GrantOption (ProcedureG p)) (GrantOption g)));
    [reflexivity|].
  destruct g; cbn in *; congruence.
Qed.

(* ================================================================= *)
(** ** Rows without an identity *)

(** A pattern that starts with a rune of a class matches nowhere in a text
    without a rune of the class. *)
Lemma search_without_first (p : rune -> bool) (b : Regexp) (s : gostring) :
  (forall x, In x s -> p x = false) ->
  forall prev, search (Cat (Class p) b) prev s = None.
Proof.
  induction s as [|x s IH]; intros Hs prev; cbn [search];
    rewrite regexp_facts.run_Cat, regexp_facts.run_Class; [reflexivity|].
  rewrite (Hs x (or_introl eq_refl)). apply IH.
  intros y Hy. apply Hs. now right.
Qed.

Lemma showUserGrants_rows_Ok (T : CaseTables) (userOrRole : UserOrRole.t)
      (rows : list row) :
  forall grants result,
    showUserGrants_rows rows userOrRole grants = Ok result ->
    forall r, In r rows ->
              exists rawGrant parsed,
                r = Ok rawGrant /\ parseGrantFromRow rawGrant = Ok parsed.
Proof.
  induction rows as [|r0 rows IH]; intros grants result Hrun r Hr;
    [contradiction Hr|].
  cbn [showUserGrants_rows] in Hrun.
  destruct r0 as [rawGrant|err]; [|discriminate Hrun].
  destruct (parseGrantFromRow rawGrant) as [parsed|err] eqn:Eparse;
    [|discriminate Hrun].
  destruct Hr as [<-|Hr]; [now exists rawGrant, parsed|].
  destruct parsed as [parsedGrant|]; [|now apply (IH _ _ Hrun)].
  destruct (negb _) in Hrun; now apply (IH _ _ Hrun).
Qed.

(** X16. A row without a single quote names no identity: unless it starts
    with [REVOKE], and is skipped, it fails to parse. One row that is not
    read or not parsed fails the whole retrieval: when the loop over the
    rows gives the live grants, every row was read, and was a [REVOKE] row
    or had a single quote. *)
Theorem parseGrantFromRow_needs_quote (T : CaseTables) :
  (forall grantStr,
      ~ In (rn "'") grantStr ->
      parseGrantFromRow grantStr
      = if strings.HasPrefix grantStr (go "REVOKE") then Ok None
        else Err (failedToParse grantStr))
  /\ (forall rows userOrRole grants result,
        showUserGrants_rows rows userOrRole grants = Ok result ->
        forall r, In r rows ->
                  exists rawGrant,
                    r = Ok rawGrant
                    /\ (strings.HasPrefix rawGrant (go "REVOKE") = true
                        \/ In (rn "'") rawGrant)).
Proof.
  assert (Hquote : forall grantStr,
             ~ In (rn "'") grantStr ->
             parseGrantFromRow grantStr
             = if strings.HasPrefix grantStr (go "REVOKE") then Ok None
               else Err (failedToParse grantStr)).
  { intros grantStr Hnone. unfold parseGrantFromRow.
    destruct (strings.HasPrefix grantStr (go "REVOKE")); [reflexivity|].
    assert (Hclass : forall x, In x grantStr -> chr "'" x = false).
    { intros x Hx. unfold chr. apply N.eqb_neq. intros E. subst x.
      contradiction. }
    assert (Huser : FindStringSubmatch userHostRegex grantStr = []).
    { unfold FindStringSubmatch, userHostRegex, MustCompile. cbn [Cats].
      now rewrite (@search_without_first (chr "'") _ grantStr Hclass). }
    assert (Hrole : FindStringSubmatch roleRegex grantStr = []).
    { unfold FindStringSubmatch, roleRegex, MustCompile. cbn [Cats].
      now rewrite (@search_without_first (chr "'") _ grantStr Hclass). }
    rewrite Huser, Hrole. reflexivity. }
  split; [exact Hquote|].
  intros rows userOrRole grants result Hrun r Hr.
  destruct (@showUserGrants_rows_Ok T userOrRole rows grants result Hrun r Hr)
    as (rawGrant & parsed & -> & Hparse).
  exists rawGrant. split; [reflexivity|].
  destruct (in_dec N.eq_dec (rn "'") rawGrant) as [Hin|Hnone]; [now right|].
  left. rewrite (Hquote rawGrant Hnone) in Hparse.
  now destruct (strings.HasPrefix rawGrant (go "REVOKE")).
Qed.

(* ================================================================= *)
(** ** The tokenizer reads the rendered privileges back *)

Lemma splitOutsideParentheses_app (w : gostring) :
  forall inParentheses after rest,
    parenthesesAfter w inParentheses = Some after ->
    splitOutsideParentheses (w ++ rest) inParentheses
    = match splitOutsideParentheses rest after with
      | w' :: ws => (w ++ w') :: ws
      | [] => [w]
      end.
Proof.
  induction w as [|b w IH]; intros inP after rest H.
  - cbn in H. inversion H. subst after. cbn [app].
    now destruct (splitOutsideParentheses_cons rest inP) as (w' & ws & ->).
  - cbn [parenthesesAfter] in H. cbn [app splitOutsideParentheses].
    destruct (N.eqb b (rn ",") && negb inP); [discriminate H|].
    rewrite (@IH _ after rest H).
    now destruct (splitOutsideParentheses_cons rest after) as (w' & ws & ->).
Qed.

Lemma splitOutsideParentheses_Join (privs : list gostring) :
  (forall w, In w privs -> parenthesesAfter w false = Some false) ->
  splitOutsideParentheses (strings.Join privs (go ", ")) false
  = match privs with
    | [] => [[]]
    | w :: rest => w :: map (cons (rn " ")) rest
    end.
Proof.
  induction privs as [|w privs IH]; intros Hprivs; [reflexivity|].
  assert (Hw : parenthesesAfter w false = Some false)
    by (apply Hprivs; now left).
  destruct privs as [|w2 privs].
  - cbn [strings.Join map]. rewrite <- (app_nil_r w) at 1.
    rewrite (@splitOutsideParentheses_app w false false [] Hw). cbn.
    now rewrite app_nil_r.
  - rewrite Join_cons by discriminate.
    rewrite (@splitOutsideParentheses_app w false false _ Hw).
    change (go ", " ++ strings.Join (w2 :: privs) (go ", "))
      with (rn "," :: rn " " :: strings.Join (w2 :: privs) (go ", ")).
    cbn [splitOutsideParentheses].
    change (N.eqb (rn ",") (rn ",") && negb false) with true. cbv iota.
    change (N.eqb (rn " ") (rn ",") && negb false) with false. cbv iota.
    change (N.eqb (rn " ") (rn "(")) with false.
    change (N.eqb (rn " ") (rn ")")) with false. cbv iota zeta.
    rewrite IH by (intros w' Hw'; apply Hprivs; now right).
    now rewrite app_nil_r.
Qed.

Lemma extractPermTypes_split (g : gostring) :
  extractPermTypes g
  = map (dropWhile unicode.IsSpace) (splitOutsideParentheses g false).
Proof.
  unfold extractPermTypes. rewrite extractPermTypes_loop_spec. cbn [app].
  now destruct (splitOutsideParentheses_cons g false) as (w & ws & ->).
Qed.

Lemma oneToken_spec (w : gostring) :
  oneToken w = true ->
  parenthesesAfter w false = Some false /\ dropWhile unicode.IsSpace w = w.
Proof.
  unfold oneToken. intros H. apply andb_true_iff in H. destruct H as [H1 H2].
  split.
  - destruct (parenthesesAfter w false) as [[|]|]; try discriminate H1.
    reflexivity.
  - destruct w as [|b w]; [reflexivity|]. cbn [dropWhile].
    apply negb_true_iff in H2. now rewrite H2.
Qed.

(** X17. The tokenizer reads back the privileges as a statement renders
    them: for privileges whose commas are in parentheses, whose last
    parenthesis is closed and that do not start with white space, joining
    them with a comma and a space and tokenizing the result gives the
    privileges again. *)
Theorem extractPermTypes_Join :
  forall privs,
    privs <> [] ->
    forallb oneToken privs = true ->
    extractPermTypes (strings.Join privs (go ", ")) = privs.
Proof.
  intros privs Hne Hprivs.
  assert (Hall : forall w, In w privs -> oneToken w = true)
    by (now apply forallb_forall).
  rewrite extractPermTypes_split, splitOutsideParentheses_Join
    by (intros w Hw; now apply oneToken_spec, Hall).
  destruct privs as [|w rest]; [congruence|]. cbn [map].
  rewrite (proj2 (oneToken_spec w (Hall w (or_introl eq_refl)))). f_equal.
  rewrite map_map.
  rewrite <- (map_id rest) at 2. apply map_ext_in. intros w' Hw'.
  cbn [dropWhile]. change (unicode.IsSpace (rn " ")) with true. cbv iota.
  apply oneToken_spec, Hall. now right.
Qed.

(** The privileges of a statement with a column list. *)
Lemma extractPermTypes_Join_example :
  extractPermTypes
    (strings.Join [go "SELECT(A, B)"; go "INSERT"; go "ALL PRIVILEGES"]
                  (go ", "))
  = [go "SELECT(A, B)"; go "INSERT"; go "ALL PRIVILEGES"].
Proof.
  apply extractPermTypes_Join; [discriminate|reflexivity].
Defined.

(* ================================================================= *)
(** ** The order of the columns *)

Lemma sort_le_trans (a : gostring) :
  forall b c, sort.le a b = true -> sort.le b c = true -> sort.le a c = true.
Proof.
  induction a as [|x a IH]; intros [|y b] [|z c]; cbn [sort.le]; try easy.
  destruct (x <? y)%N eqn:Exy; destruct (y <? x)%N eqn:Eyx;
    destruct (y <? z)%N eqn:Eyz; destruct (z <? y)%N eqn:Ezy;
    destruct (x <? z)%N eqn:Exz; destruct (z <? x)%N eqn:Ezx;
    try easy; try (order_of_runes; lia).
  apply IH.
Qed.

Lemma sort_le_antisym (a : gostring) :
  forall b, sort.le a b = true -> sort.le b a = true -> a = b.
Proof.
  induction a as [|x a IH]; intros [|y b]; cbn [sort.le]; try easy.
  destruct (x <? y)%N eqn:Exy; destruct (y <? x)%N eqn:Eyx;
    try easy; try (order_of_runes; lia).
  intros Hab Hba. order_of_runes.
  assert (x = y) by lia. subst y. f_equal. now apply IH.
Qed.

Lemma insert_insert (x y : gostring) (l : list gostring) :
  sort.insert x (sort.insert y l) = sort.insert y (sort.insert x l).
Proof.
  induction l as [|z l IH]; cbn [sort.insert].
  - destruct (sort.le x y) eqn:Exy; destruct (sort.le y x) eqn:Eyx;
      try reflexivity.
    + now rewrite (sort_le_antisym x y Exy Eyx).
    + apply sort_le_total in Exy. congruence.
  - destruct (sort.le y z) eqn:Eyz; destruct (sort.le x z) eqn:Exz;
      cbn [sort.insert]; rewrite ?Eyz, ?Exz.
    + destruct (sort.le x y) eqn:Exy; destruct (sort.le y x) eqn:Eyx;
        try reflexivity.
      * now rewrite (sort_le_antisym x y Exy Eyx).
      * apply sort_le_total in Exy. congruence.
    + destruct (sort.le x y) eqn:Exy; [|reflexivity].
      rewrite (sort_le_trans x y z Exy Eyz) in Exz. discriminate Exz.
    + destruct (sort.le y x) eqn:Eyx; [|reflexivity].
      rewrite (sort_le_trans y x z Eyx Exz) in Eyz. discriminate Eyz.
    + now rewrite IH.
Qed.

Lemma Strings_Permutation (l1 l2 : list gostring) :
  Permutation l1 l2 -> sort.Strings l1 = sort.Strings l2.
Proof.
  induction 1 as [|x l1 l2 _ IH|x y l|l1 l2 l3 _ IH1 _ IH2];
    cbn [sort.Strings].
  - reflexivity.
  - now rewrite IH.
  - apply insert_insert.
  - now rewrite IH1.
Qed.

Lemma columnList_Join (name : gostring) (columns : list gostring) :
  forallb (notchr "(") name = true ->
  (forall w, In w columns -> forallb dot w = true) ->
  columnList (name ++ go "(" ++ strings.Join columns [rn ","] ++ go ")")
  = Some (name, strings.Join columns [rn ","]).
Proof.
  intros Hname Hcolumns.
  apply (columnList_intro name (strings.Join columns [rn ","]) Hname).
  apply forallb_forall. intros r Hr. apply Join_In in Hr.
  destruct Hr as [[<-|[]]|(w & Hw & Hr)]; [reflexivity|].
  specialize (Hcolumns w Hw). rewrite forallb_forall in Hcolumns.
  now apply Hcolumns.
Qed.

(** X18. The order in which a privilege lists its columns does not
    matter: a privilege with a column list is rewritten with the columns
    trimmed of spaces and backticks and put in the order of the sort, so
    two privileges whose column lists are permutations of each other are
    rewritten to the same text. The columns have no comma and no
    newline, the name before the list no opening parenthesis. *)
Theorem normalizeColumnOrder_Permutation :
  forall name columns1 columns2,
    forallb (notchr "(") name = true ->
    (forall w, In w columns1 ->
               forallb dot w = true /\ ~ In (rn ",") w) ->
    Permutation columns1 columns2 ->
    normalizeColumnOrder
      (name ++ go "(" ++ strings.Join columns1 [rn ","] ++ go ")")
    = normalizeColumnOrder
        (name ++ go "(" ++ strings.Join columns2 [rn ","] ++ go ")")
    /\ (columns1 <> [] ->
        normalizeColumnOrder
          (name ++ go "(" ++ strings.Join columns1 [rn ","] ++ go ")")
        = name ++ go "("
          ++ strings.Join
               (sort.Strings
                  (map (fun p => strings.Trim p (go "` ")) columns1))
               (go ", ")
          ++ go ")").
Proof.
  intros name columns1 columns2 Hname Hcolumns Hperm.
  assert (Hcolumns2 : forall w, In w columns2 ->
                                forallb dot w = true /\ ~ In (rn ",") w).
  { intros w Hw. apply Hcolumns.
    now apply (Permutation_in w (Permutation_sym Hperm)). }
  assert (Hform : forall columns,
             (forall w, In w columns ->
                        forallb dot w = true /\ ~ In (rn ",") w) ->
             columns <> [] ->
             normalizeColumnOrder
               (name ++ go "(" ++ strings.Join columns [rn ","] ++ go ")")
             = name ++ go "("
               ++ strings.Join
                    (sort.Strings
                       (map (fun p => strings.Trim p (go "` ")) columns))
                    (go ", ")
               ++ go ")").
  { intros columns Hcols Hne.
    rewrite normalizeColumnOrder_columnList, columnList_Join;
      [|exact Hname|intros w Hw; now apply Hcols].
    rewrite Split_Join; [reflexivity|exact Hne|].
    intros w Hw. now apply Hcols. }
  split; [|now apply Hform].
  destruct columns1 as [|w1 columns1].
  - apply Permutation_nil in Hperm. now subst columns2.
  - assert (Hne2 : columns2 <> []).
    { intros ->. apply Permutation_sym, Permutation_nil in Hperm.
      discriminate Hperm. }
    rewrite (Hform (w1 :: columns1) Hcolumns) by discriminate.
    rewrite (Hform columns2 Hcolumns2 Hne2).
    now rewrite (Strings_Permutation
                   (Permutation_map (fun p => strings.Trim p (go "` "))
                                    Hperm)).
Qed.

(** The columns [b], [a], [c] and the columns [a], [c], [b]. *)
Lemma normalizeColumnOrder_Permutation_example :
  normalizeColumnOrder (go "SELECT(`b`, a,c)")
  = normalizeColumnOrder (go "SELECT(a,c,`b`)")
  /\ ([go "`b`"; go " a"; go "c"] <> [] ->
      normalizeColumnOrder (go "SELECT(`b`, a,c)") = go "SELECT(a, b, c)").
Proof.
  apply (@normalizeColumnOrder_Permutation (go "SELECT")
           [go "`b`"; go " a"; go "c"] [go " a"; go "c"; go "`b`"]).
  - reflexivity.
  - intros w [<-|[<-|[<-|[]]]]; (split; [reflexivity|]);
      cbn; intuition discriminate.
  - apply (perm_trans (perm_swap (go " a") (go "`b`") [go "c"])).
    apply perm_skip. apply perm_swap.
Defined.

(* ================================================================= *)
(** ** What an import gives *)





(* ================================================================= *)
(** ** Statements read back *)

Lemma search_after (a : Regexp) (x : rune) (s : gostring) :
  search a (Some x) s <> None ->
  forall pre prev, search a prev (pre ++ x :: s) <> None.
Proof.
  intros H. induction pre as [|y pre IH]; intros prev; cbn [app search].
  - now destruct (run a prev (x :: s) [] accept) as [[s' c]|].
  - destruct (run a prev (y :: pre ++ x :: s) [] accept) as [[s' c]|];
      [discriminate|apply IH].
Qed.

Lemma MatchString_reGrant (pre : gostring) :
  MatchString reGrant (pre ++ go " WITH GRANT OPTION") = true
  /\ MatchString reGrant (pre ++ go " WITH ADMIN OPTION") = true.
Proof.
  unfold MatchString. split.
  - pose proof (@search_after reGrant (rn " ") (go "GRANT OPTION")) as H.
    specialize (H ltac:(vm_compute; discriminate) (pre ++ go " WITH") None).
    rewrite <- app_assoc in H.
    change (go " WITH" ++ rn " " :: go "GRANT OPTION")
      with (go " WITH GRANT OPTION") in H.
    now destruct (search reGrant None (pre ++ go " WITH GRANT OPTION")).
  - pose proof (@search_after reGrant (rn " ") (go "ADMIN OPTION")) as H.
    specialize (H ltac:(vm_compute; discriminate) (pre ++ go " WITH") None).
    rewrite <- app_assoc in H.
    change (go " WITH" ++ rn " " :: go "ADMIN OPTION")
      with (go " WITH ADMIN OPTION") in H.
    now destruct (search reGrant None (pre ++ go " WITH ADMIN OPTION")).
Qed.

(** X20. What the parser reads of the statements the generator renders:
    a revoke statement, full or partial, is skipped as a row, and the grant
    statement of a grant with the grant option is read with the grant
    option, for the three kinds of grants. *)
Theorem statements_read_back (T : CaseTables) :
  forall grant,
    parseGrantFromRow (SQLRevokeStatement grant) = Ok None
    /\ (forall partialRevoke privilegesToRevoke,
          PrivilegesPartiallyRevocable grant = Some partialRevoke ->
          parseGrantFromRow (partialRevoke privilegesToRevoke) = Ok None)
    /\ (GrantOption grant = true ->
        MatchString reGrant (SQLGrantStatement grant) = true).
Proof.
  intros grant.
  assert (Hrevoke : forall rest,
             parseGrantFromRow (go "REVOKE " ++ rest) = Ok None)
    by reflexivity.
  split; [destruct grant; apply Hrevoke|].
  split.
  - intros partialRevoke privilegesToRevoke H.
    destruct grant; inversion H; apply Hrevoke.
  - intros Hoption.
    destruct grant as [t|p|r]; cbn [GrantOption] in Hoption;
      cbn [SQLGrantStatement];
      unfold TablePrivilegeGrant.SQLGrantStatement,
             ProcedurePrivilegeGrant.SQLGrantStatement,
             RoleGrant.SQLGrantStatement;
      rewrite Hoption, !app_assoc; apply MatchString_reGrant.
Qed.

(* ================================================================= *)
(** ** The login of a parsed row *)

Lemma run_groupsWithin (i : nat) (p : rune -> bool) (a : Regexp) :
  groupsWithin i p a ->
  forall prev s c k r,
    capturedWithin i p c ->
    run a prev s c k = Some r ->
    exists w s' prev' c',
      s = w ++ s'
      /\ (classesWithin p a -> forallb p w = true)
      /\ capturedWithin i p c'
      /\ k prev' s' c' = Some r.
Proof.
  induction a as [|q|a1 IH1 a2 IH2|a1 IH1 a2 IH2|q|j a IH| | |];
    intros Hg prev s c k r Hc H.
  - now exists [], s, prev, c.
  - rewrite regexp_facts.run_Class in H. destruct s as [|x s]; [discriminate|].
    destruct (q x) eqn:Ex; [|discriminate].
    exists [x], s, (Some x), c. repeat split; try assumption.
    intros Hw. cbn. now rewrite (Hw x Ex).
  - rewrite regexp_facts.run_Cat in H. destruct Hg as [Hg1 Hg2].
    apply (IH1 Hg1 prev s c _ r Hc) in H.
    destruct H as (w1 & s1 & prev1 & c1 & -> & Hf1 & Hc1 & H).
    apply (IH2 Hg2 prev1 s1 c1 _ r Hc1) in H.
    destruct H as (w2 & s2 & prev2 & c2 & -> & Hf2 & Hc2 & H).
    exists (w1 ++ w2), s2, prev2, c2. rewrite app_assoc.
    repeat split; try assumption.
    intros [Hw1 Hw2]. now rewrite forallb_app, (Hf1 Hw1), (Hf2 Hw2).
  - cbn [run] in H. destruct Hg as [Hg1 Hg2].
    destruct (run a1 prev s c k) eqn:E1.
    + destruct (IH1 Hg1 prev s c k r Hc) as (w & s' & prev' & c' & Hs & Hf & H')
      ; [congruence|].
      exists w, s', prev', c'. split; [exact Hs|]. split; [|exact H'].
      intros [Hw1 _]. now apply Hf.
    + destruct (IH2 Hg2 prev s c k r Hc H) as (w & s' & prev' & c' & Hs & Hf & H').
      exists w, s', prev', c'. split; [exact Hs|]. split; [|exact H'].
      intros [_ Hw2]. now apply Hf.
  - revert prev H. induction s as [|x s IHs]; intros prev H.
    + rewrite regexp_facts.run_Star_nil in H. now exists [], [], prev, c.
    + rewrite regexp_facts.run_Star_cons in H.
      destruct (q x) eqn:Ex; [|now exists [], (x :: s), prev, c].
      destruct (run (Star q) (Some x) s c k) eqn:E1;
        [|now exists [], (x :: s), prev, c].
      destruct (IHs (Some x)) as (w & s' & prev' & c' & -> & Hf & Hc' & Hk);
        [congruence|].
      exists (x :: w), s', prev', c'. repeat split; try assumption.
      intros Hw. cbn. now rewrite (Hw x Ex), (Hf Hw).
  - rewrite regexp_facts.run_Capture in H. destruct Hg as [Hji Hg].
    apply (IH Hg prev s c _ r Hc) in H.
    destruct H as (w & s' & prev' & c' & -> & Hf & Hc' & H).
    exists w, s', prev'. eexists. split; [reflexivity|].
    split; [exact Hf|]. split; [|exact H].
    unfold capturedWithin. cbn [submatch].
    destruct (Nat.eqb i j) eqn:Eij; [|exact Hc'].
    apply Nat.eqb_eq in Eij. rewrite firstn_length_app.
    apply Hf, Hji. now symmetry.
  - cbn [run] in H. destruct prev; [discriminate|]. now exists [], s, None, c.
  - cbn [run] in H. destruct s; [|discriminate]. now exists [], [], prev, c.
  - cbn [run] in H. destruct (xorb _ _); [|discriminate].
    now exists [], s, prev, c.
Qed.

Lemma search_groupsWithin (i : nat) (p : rune -> bool) (a : Regexp) :
  groupsWithin i p a ->
  forall s prev s0 s' c,
    search a prev s = Some (s0, s', c) -> capturedWithin i p c.
Proof.
  intros Hg. induction s as [|x s IH]; intros prev s0 s' c H;
    cbn [search] in H.
  - destruct (run a prev [] [] accept) as [[s1 c1]|] eqn:Erun;
      [|discriminate].
    inversion H. subst.
    destruct (@run_groupsWithin i p a Hg prev [] [] accept (s', c)
                eq_refl Erun) as (w & s2 & prev' & c' & _ & _ & Hc & Hk).
    inversion Hk. now subst.
  - destruct (run a prev (x :: s) [] accept) as [[s1 c1]|] eqn:Erun.
    + inversion H. subst.
      destruct (@run_groupsWithin i p a Hg prev (x :: s) [] accept (s', c)
                  eq_refl Erun) as (w & s2 & prev' & c' & _ & _ & Hc & Hk).
      inversion Hk. now subst.
    + now apply (IH (Some x) s0 s' c).
Qed.

Lemma dropWhile_In (A : Type) (f : A -> bool) (l : list A) (x : A) :
  In x (dropWhile f l) -> In x l.
Proof.
  induction l as [|y l IH]; cbn [dropWhile]; [easy|].
  destruct (f y); [|easy]. intros H. right. now apply IH.
Qed.

Lemma Trim_In (s cutset : gostring) (r : rune) :
  In r (strings.Trim s cutset) -> In r s.
Proof.
  unfold strings.Trim, strings.TrimRight, strings.TrimLeft. intros H.
  apply in_rev, dropWhile_In, in_rev, dropWhile_In in H. exact H.
Qed.

(** The user and the host of the login of a parsed row have no single
    quote. *)
Lemma parseGrantFromRow_login (T : CaseTables) (grantStr : gostring)
      (grant : MySQLGrant) :
  parseGrantFromRow grantStr = Ok (Some grant) ->
  exists user host,
    GetUserOrRole grant = User user host
    /\ ~ In (rn "'") user /\ ~ In (rn "'") host.
Proof.
  assert (Hgroups : forall i,
             i = 1 \/ i = 3 ->
             forallb (notchr "'")
                     (index (FindStringSubmatch userHostRegex grantStr) i)
             = true).
  { intros i Hi. unfold FindStringSubmatch.
    destruct (search userHostRegex None grantStr) as [[[s0 s'] c]|] eqn:Esearch;
      [|now destruct Hi as [-> | ->]].
    assert (Hc : capturedWithin i (notchr "'") c).
    { apply (@search_groupsWithin i (notchr "'") userHostRegex)
        with (s := grantStr) (prev := @None rune) (s0 := s0) (s' := s');
        [|exact Esearch].
      unfold userHostRegex, MustCompile, Quest. cbn [Cats groupsWithin].
      destruct Hi as [-> | ->]; repeat split; try discriminate;
        intros _ r Hr; exact Hr. }
    destruct Hi as [-> | ->]; exact Hc. }
  assert (Htrim : forall i,
             i = 1 \/ i = 3 ->
             ~ In (rn "'")
                  (strings.Trim
                     (index (FindStringSubmatch userHostRegex grantStr) i)
                     (go "`' "))).
  { intros i Hi Hin. apply Trim_In in Hin.
    specialize (Hgroups i Hi). rewrite forallb_forall in Hgroups.
    specialize (Hgroups _ Hin). discriminate Hgroups. }
  intros Hparse.
  destruct (parseGrantFromRow_never_role T grantStr Hparse) as (user & host & Hid).
  exists user, host. split; [exact Hid|].
  revert Hparse. unfold parseGrantFromRow.
  destruct (strings.HasPrefix grantStr (go "REVOKE")); [discriminate|].
  destruct (Nat.eqb (length (FindStringSubmatch userHostRegex grantStr)) 4).
  - destruct (Nat.eqb (length (FindStringSubmatch roleGrantRegex grantStr)) 3);
      [|destruct (Nat.eqb (length (FindStringSubmatch procedureGrantRegex
                                     grantStr)) 5);
        [|destruct (Nat.eqb (length (FindStringSubmatch tableGrantRegex
                                       grantStr)) 4); [|discriminate]]];
      intros H; inversion H; subst grant; cbn in Hid; inversion Hid;
      split; apply Htrim; auto.
  - destruct (Nat.eqb (length (FindStringSubmatch roleRegex grantStr)) 1);
      [|discriminate].
    destruct (Nat.eqb (length (FindStringSubmatch roleGrantRegex grantStr)) 3);
      [|destruct (Nat.eqb (length (FindStringSubmatch procedureGrantRegex
                                     grantStr)) 5);
        [|destruct (Nat.eqb (length (FindStringSubmatch tableGrantRegex
                                       grantStr)) 4); [|discriminate]]];
      intros H; inversion H; subst grant; cbn in Hid; discriminate Hid.
Qed.

Lemma app_quote_inj (q : rune) (a a' b b' : gostring) :
  ~ In q a -> ~ In q a' ->
  a ++ q :: b = a' ++ q :: b' -> a = a' /\ b = b'.
Proof.
  revert a'. induction a as [|x a IH]; intros [|x' a'] Ha Ha' H;
    cbn [app] in H.
  - inversion H. now split.
  - inversion H. subst x'. exfalso. apply Ha'. now left.
  - inversion H. subst x. exfalso. apply Ha. now left.
  - inversion H. subst x'.
    destruct (IH a') as [-> ->]; try assumption.
    + intros Hin. apply Ha. now right.
    + intros Hin. apply Ha'. now right.
    + now split.
Qed.

Lemma SQLString_login_inj (user host user' host' : gostring) :
  ~ In (rn "'") user -> ~ In (rn "'") host ->
  ~ In (rn "'") user' -> ~ In (rn "'") host' ->
  UserOrRole.SQLString (User user host)
  = UserOrRole.SQLString (User user' host') ->
  user = user' /\ host = host'.
Proof.
  intros Hu Hh Hu' Hh' H. unfold UserOrRole.SQLString in H.
  apply app_inv_head in H.
  change (go "'@'") with (rn "'" :: go "@'") in H.
  change (go "'") with [rn "'"] in H. cbn [app] in H.
  apply app_quote_inj in H; [|assumption|assumption].
  destruct H as [-> H]. split; [reflexivity|].
  apply (app_inv_head (go "@'")) in H.
  apply app_quote_inj in H; [|assumption|assumption]. now destruct H.
Qed.

(** X21. For a login whose user and host have no single quote, every live
    grant retrieved is a grant of that very login: the user and the host
    of a parsed row have no single quote either, and for such names the
    rendering compared by the filter tells the logins apart. *)
Theorem showUserGrants_exact_login (T : CaseTables) :
  forall db user host tr grants tr',
    ~ In (rn "'") user ->
    ~ In (rn "'") host ->
    showUserGrants db (User user host) tr = (Done (Ok grants), tr') ->
    forall g, In g grants -> GetUserOrRole g = User user host.
Proof.
  intros db user host tr grants tr' Huser Hhost Hshow.
  apply showUserGrants_result in Hshow.
  destruct Hshow as (_ & r & Hr & Hgrants). inversion Hr. subst r.
  destruct (Hgrants grants eq_refl) as [->|(rows & _ & Hrows)];
    [intros g []|].
  refine (@showUserGrants_rows_invariant T
            (fun g => GetUserOrRole g = User user host)
            (User user host) _ rows [] grants _ Hrows).
  - intros rawGrant parsedGrant Hrow Hsame. apply streq_eq in Hsame.
    destruct (parseGrantFromRow_login T rawGrant Hrow)
      as (user' & host' & Hid & Huser' & Hhost').
    rewrite Hid in Hsame |- *.
    apply SQLString_login_inj in Hsame; try assumption.
    now destruct Hsame as [-> ->].
  - intros g [].
Qed.

(** The live grants of [bob] at any host, on a server that also lists a
    grant of [bob] at one address. *)
Lemma showUserGrants_exact_login_example :
  Forall (fun g => GetUserOrRole g = User (go "bob") (go "%"))
         [TableG {| TablePrivilegeGrant.Database := go "*.*";
                    TablePrivilegeGrant.Table := go "'bob'@'%'";
                    TablePrivilegeGrant.Privileges := [go "SELECT"];
                    TablePrivilegeGrant.Grant := false;
                    TablePrivilegeGrant.UserOrRole := bob;
                    TablePrivilegeGrant.TLSOption := [] |}].
Proof.
  apply Forall_forall.
  apply (@showUserGrants_exact_login asciiTables
           {| ExecReply := fun _ _ => None;
              QueryReply := fun _ _ =>
                Ok [Ok (go "GRANT SELECT ON *.* TO 'bob'@'%'");
                    Ok (go "GRANT INSERT ON *.* TO 'bob'@'10.0.0.1'")] |}
           (go "bob") (go "%") [] _ [Query (go "SHOW GRANTS FOR 'bob'@'%'")]).
  - cbn. intuition discriminate.
  - cbn. intuition discriminate.
  - vm_compute. reflexivity.
Defined.

(* ================================================================= *)
(** ** The spelling of a privilege *)

(** X22. The canonical form of a privilege does not depend on its spaces
    and backticks, nor on the case of its ASCII letters: a space or a
    backtick may be removed anywhere, and a small ASCII letter may be
    replaced by its capital, without changing the canonical form. *)
Theorem normalizePerm_spelling (T : CaseTables) :
  forall a b x,
    (spaceOrBacktick x = true ->
     normalizePerm (a ++ x :: b) = normalizePerm (a ++ b))
    /\ (((rn "a" <=? x) && (x <=? rn "z"))%N = true ->
        normalizePerm (a ++ x :: b) = normalizePerm (a ++ (x - 32)%N :: b)).
Proof.
  intros a b x. unfold normalizePerm. split; intros Hx.
  - assert (Hsame : ReplaceAllString spaceOrBacktick (a ++ x :: b) []
                    = ReplaceAllString spaceOrBacktick (a ++ b) []).
    { rewrite !ReplaceAllString_app. f_equal.
      unfold ReplaceAllString. cbn [flat_map]. now rewrite Hx. }
    now rewrite Hsame.
  - change (rn "a") with 97%N in Hx. change (rn "z") with 122%N in Hx.
    assert (Hrange : (97 <= x <= 122)%N).
    { apply andb_true_iff in Hx. destruct Hx as [H1 H2].
      apply N.leb_le in H1. apply N.leb_le in H2. lia. }
    assert (Hkeep : forall y, (65 <= y <= 122)%N -> y <> 96%N ->
                              spaceOrBacktick y = false).
    { intros y Hy Hy'. unfold spaceOrBacktick.
      change (rn " ") with 32%N. change (rn "`") with 96%N.
      apply orb_false_iff. split; apply N.eqb_neq; lia. }
    assert (Hupper : strings.ToUpper
                       (ReplaceAllString spaceOrBacktick (a ++ x :: b) [])
                     = strings.ToUpper
                         (ReplaceAllString spaceOrBacktick
                                           (a ++ (x - 32)%N :: b) [])).
    { rewrite !ReplaceAllString_app. unfold strings.ToUpper.
      rewrite !map_app. f_equal.
      unfold ReplaceAllString. cbn [flat_map].
      rewrite (Hkeep x), (Hkeep (x - 32)%N) by lia.
      cbn [app map]. f_equal. unfold unicode.ToUpper, unicode.MaxASCII.
      change (rn "a") with 97%N. change (rn "z") with 122%N.
      assert (H1 : (x <=? 127)%N = true) by (apply N.leb_le; lia).
      assert (H2 : (x - 32 <=? 127)%N = true) by (apply N.leb_le; lia).
      assert (H3 : (97 <=? x - 32)%N = false) by (apply N.leb_gt; lia).
      now rewrite H1, H2, Hx, H3. }
    now rewrite Hupper.
Qed.

(* ================================================================= *)
(** ** Column lists in the rows *)

Lemma splitOutsideParentheses_In (g : gostring) :
  forall inParentheses w r,
    In w (splitOutsideParentheses g inParentheses) -> In r w -> In r g.
Proof.
  induction g as [|x g IH]; intros inP w r Hw Hr;
    cbn [splitOutsideParentheses] in Hw.
  - destruct Hw as [<-|[]]. destruct Hr.
  - destruct (N.eqb x (rn ",") && negb inP).
    + destruct Hw as [<-|Hw]; [destruct Hr|]. right. now apply (IH inP w).
    + match type of Hw with
      | context [splitOutsideParentheses g ?b] =>
          pose proof (IH b) as IH';
          destruct (splitOutsideParentheses_cons g b) as (w0 & ws & E);
          rewrite E in Hw, IH'
      end.
      destruct Hw as [<-|Hw].
      * destruct Hr as [<-|Hr]; [now left|right].
        apply (IH' w0 r); [now left|exact Hr].
      * right. apply (IH' w r); [now right|exact Hr].
Qed.

Lemma extractPermTypes_In (g w : gostring) (r : rune) :
  In w (extractPermTypes g) -> In r w -> In r g.
Proof.
  rewrite extractPermTypes_split. intros Hw Hr.
  apply in_map_iff in Hw. destruct Hw as (w0 & <- & Hw0).
  apply dropWhile_In in Hr. now apply (@splitOutsideParentheses_In g false w0).
Qed.

Lemma removeUselessPerms_In (grants : list gostring) (grant : gostring) :
  In grant (removeUselessPerms grants) -> In grant grants.
Proof.
  induction grants as [|g grants IH]; cbn [removeUselessPerms]; [easy|].
  destruct (negb (streq g (go "USAGE"))); cbn [In]; intuition.
Qed.

Lemma ToUpper_word_space_comma (T : CaseTables) (x : rune) :
  word_space_comma x = true -> unicode.ToUpper x <> rn "(".
Proof.
  unfold word_space_comma, word, space. change (rn ",") with 44%N.
  change (rn "(") with 40%N. intros H.
  repeat (rewrite orb_true_iff in H || rewrite andb_true_iff in H
          || rewrite N.leb_le in H || rewrite N.eqb_eq in H).
  unfold unicode.ToUpper, unicode.MaxASCII.
  change (rn "a") with 97%N. change (rn "z") with 122%N.
  destruct (x <=? 127)%N eqn:Eascii.
  - destruct ((97 <=? x) && (x <=? 122))%N eqn:Eletter.
    + apply andb_true_iff in Eletter. destruct Eletter as [H1 H2].
      apply N.leb_le in H1. apply N.leb_le in H2. lia.
    + lia.
  - apply N.leb_gt in Eascii. lia.
Qed.

Lemma normalizeColumnOrder_without_parenthesis (perm : gostring) :
  ~ In (rn "(") perm -> normalizeColumnOrder perm = perm.
Proof.
  intros Hperm. rewrite normalizeColumnOrder_columnList. unfold columnList.
  assert (Hdrop : dropWhile (notchr "(") perm = []).
  { induction perm as [|x perm IH]; [reflexivity|]. cbn [dropWhile].
    assert (Hx : notchr "(" x = true).
    { unfold notchr. apply negb_true_iff, N.eqb_neq. intros E.
      apply Hperm. now left. }
    rewrite Hx. apply IH. intros Hin. apply Hperm. now right. }
  now rewrite Hdrop.
Qed.

Lemma normalizePerm_without_parenthesis (T : CaseTables) (perm : gostring) :
  (forall r, In r perm -> word_space_comma r = true) ->
  ~ In (rn "(") (normalizePerm perm).
Proof.
  intros Hperm. unfold normalizePerm.
  assert (Hupper : ~ In (rn "(")
                        (strings.ToUpper
                           (ReplaceAllString spaceOrBacktick perm []))).
  { unfold strings.ToUpper. intros Hin. apply in_map_iff in Hin.
    destruct Hin as (x & Hx & Hin). apply ReplaceAllString_In in Hin.
    destruct Hin as [Hin _].
    now apply (ToUpper_word_space_comma T x (Hperm x Hin)). }
  destruct (streq _ (go "ALL") || streq _ (go "ALLPRIVILEGES")).
  - rewrite normalizeColumnOrder_without_parenthesis;
      cbn; intuition discriminate.
  - now rewrite normalizeColumnOrder_without_parenthesis.
Qed.

(** X23. No privilege of a parsed table grant has a column list: the
    privileges of a row are what the table pattern takes between [GRANT]
    and [ON], word runes, white space and commas, so no canonical
    privilege of the grant has a parenthesis. A row that grants a
    privilege on columns is no match of any pattern and fails to parse. *)
Theorem parsed_privileges_without_columns (T : CaseTables) :
  (forall grantStr t,
      parseGrantFromRow grantStr = Ok (Some (TableG t)) ->
      forall priv, In priv (TablePrivilegeGrant.Privileges t) ->
                   ~ In (rn "(") priv)
  /\ parseGrantFromRow
       (go "GRANT SELECT (a, b) ON `app`.`users` TO 'bob'@'%'")
     = Err (failedToParse
              (go "GRANT SELECT (a, b) ON `app`.`users` TO 'bob'@'%'")).
Proof.
  split; [|vm_compute; reflexivity].
  intros grantStr t.
  assert (Hgroup : forall r,
             In r (index (FindStringSubmatch tableGrantRegex grantStr) 1) ->
             word_space_comma r = true).
  { unfold FindStringSubmatch.
    destruct (search tableGrantRegex None grantStr) as [[[s0 s'] c]|]
      eqn:Esearch; [|intros r []].
    assert (Hc : capturedWithin 1 word_space_comma c).
    { apply (@search_groupsWithin 1 word_space_comma tableGrantRegex)
        with (s := grantStr) (prev := @None rune) (s0 := s0) (s' := s');
        [|exact Esearch].
      unfold tableGrantRegex, MustCompile, Plus.
      cbn [Cats groupsWithin classesWithin].
      repeat (split || intro); try discriminate; assumption. }
    unfold capturedWithin in Hc. rewrite forallb_forall in Hc. exact Hc. }
  unfold parseGrantFromRow.
  destruct (strings.HasPrefix grantStr (go "REVOKE")); [discriminate|].
  match goal with
  | |- match ?u with Some _ => _ | None => _ end = _ -> _ =>
      destruct u as [userOrRole|]; [|discriminate]
  end.
  destruct (Nat.eqb (length (FindStringSubmatch roleGrantRegex grantStr)) 3);
    [discriminate|].
  destruct (Nat.eqb (length (FindStringSubmatch procedureGrantRegex grantStr))
                    5); [discriminate|].
  destruct (Nat.eqb (length (FindStringSubmatch tableGrantRegex grantStr)) 4);
    [|discriminate].
  intros H. inversion H. subst t. clear H. cbn [TablePrivilegeGrant.Privileges].
  intros priv Hpriv. unfold normalizePerms in Hpriv.
  apply removeUselessPerms_In, in_map_iff in Hpriv.
  destruct Hpriv as (w & <- & Hw).
  apply normalizePerm_without_parenthesis. intros r Hr.
  apply Hgroup. now apply (@extractPermTypes_In _ w r).
Qed.

(* ================================================================= *)
(** ** The TLS option of a row *)

Lemma run_Lit_HasPrefix (l : gostring) (a : Regexp) :
  forall prev s c k,
    strings.HasPrefix s l = false -> run (Cat (Lit l) a) prev s c k = None.
Proof.
  induction l as [|y l IH]; intros prev s c k H.
  - now destruct s.
  - cbn [Lit]. rewrite !regexp_facts.run_Cat, regexp_facts.run_Class.
    destruct s as [|x s]; [reflexivity|]. cbn [strings.HasPrefix] in H.
    rewrite N.eqb_sym. destruct (N.eqb x y); [|reflexivity].
    cbn [andb] in H. exact (IH (Some x) s c k H).
Qed.

Lemma run_Lit_app (l : gostring) (a : Regexp) :
  forall prev rest c k,
    exists prev',
      run (Cat (Lit l) a) prev (l ++ rest) c k = run a prev' rest c k.
Proof.
  induction l as [|y l IH]; intros prev rest c k.
  - now exists prev.
  - cbn [Lit app]. rewrite !regexp_facts.run_Cat, regexp_facts.run_Class.
    rewrite N.eqb_refl. exact (IH (Some y) rest c k).
Qed.

(** A repetition before something that never fails takes all the runes of
    its class. *)
Lemma run_Star_greedy (p : rune -> bool) (k : continuation) :
  (forall prev s c, k prev s c <> None) ->
  forall s prev c,
    exists prev', run (Star p) prev s c k = k prev' (dropWhile p s) c.
Proof.
  intros Hk. induction s as [|x s IH]; intros prev c.
  - now exists prev.
  - rewrite regexp_facts.run_Star_cons. cbn [dropWhile].
    destruct (p x); [|now exists prev].
    destruct (IH (Some x) c) as (prev' & E). exists prev'. rewrite E.
    specialize (Hk prev' (dropWhile p s) c).
    now destruct (k prev' (dropWhile p s) c).
Qed.

(** A repetition before something that fails at every later position gives
    up all the runes it took. *)
Lemma run_Star_fallback (p : rune -> bool) (k : continuation) (c : captures) :
  forall b prev,
    (forall b1 b2 prev', b = b1 ++ b2 -> b1 <> [] -> k prev' b2 c = None) ->
    run (Star p) prev b c k = k prev b c.
Proof.
  induction b as [|x b IH]; intros prev Hlater; [reflexivity|].
  rewrite regexp_facts.run_Star_cons. destruct (p x); [|reflexivity].
  rewrite IH.
  - rewrite (Hlater [x] b (Some x)); [reflexivity|reflexivity|discriminate].
  - intros b1 b2 prev' -> Hb1. apply (Hlater (x :: b1) b2 prev');
      [reflexivity|discriminate].
Qed.

(** A repetition goes back to the last position where the rest of the
    pattern matches. *)
Lemma run_Star_backtrack (p : rune -> bool) (k : continuation) (c : captures)
      (b : gostring) (r : gostring * captures) :
  (forall prev, k prev b c = Some r) ->
  (forall b1 b2 prev', b = b1 ++ b2 -> b1 <> [] -> k prev' b2 c = None) ->
  forall a prev,
    forallb p a = true -> run (Star p) prev (a ++ b) c k = Some r.
Proof.
  intros Hhere Hlater. induction a as [|x a IH]; intros prev Ha.
  - cbn [app]. rewrite run_Star_fallback by exact Hlater. apply Hhere.
  - cbn [forallb] in Ha. apply andb_true_iff in Ha. destruct Ha as [Hx Ha].
    cbn [app]. rewrite regexp_facts.run_Star_cons, Hx.
    now rewrite (IH (Some x) Ha).
Qed.

Lemma dropWhile_all (A : Type) (f : A -> bool) (l : list A) :
  forallb f l = true -> dropWhile f l = [].
Proof.
  induction l as [|x l IH]; [reflexivity|]. cbn [forallb dropWhile].
  intros H. apply andb_true_iff in H. destruct H as [Hx Hl].
  rewrite Hx. now apply IH.
Qed.

Lemma Contains_suffix (b1 b2 substr : gostring) :
  strings.Contains (b1 ++ b2) substr = false ->
  strings.HasPrefix b2 substr = false.
Proof.
  induction b1 as [|x b1 IH]; cbn [app].
  - destruct b2; cbn [strings.Contains]; intros H;
      apply orb_false_iff in H; now destruct H.
  - cbn [strings.Contains]. intros H. apply orb_false_iff in H.
    destruct H as [_ H]. now apply IH.
Qed.

Lemma forallb_dropWhile (A : Type) (f g : A -> bool) (l : list A) :
  forallb f l = true -> forallb f (dropWhile g l) = true.
Proof.
  induction l as [|x l IH]; [reflexivity|]. cbn [forallb dropWhile].
  intros H. destruct (g x); [|exact H].
  apply andb_true_iff in H. now apply IH.
Qed.

Lemma suffix_cases (x : rune) (l b1 b2 : gostring) :
  x :: l = b1 ++ b2 -> b1 <> [] ->
  l = b2 \/ exists b1', b1' <> [] /\ l = b1' ++ b2.
Proof.
  destruct b1 as [|y b1]; [congruence|]. cbn [app]. intros H _.
  injection H as _ H. destruct b1 as [|z b1]; [now left|].
  right. exists (z :: b1). split; [discriminate|exact H].
Qed.

(** What the pattern of the TLS requirement finds in a row of one line
    whose last [REQUIRE] is followed by white space. *)
Lemma FindStringSubmatch_reRequire (pre rest : gostring) (sp : rune) :
  forallb dot (pre ++ go "REQUIRE" ++ sp :: rest) = true ->
  space sp = true ->
  strings.Contains (sp :: rest) (go "REQUIRE") = false ->
  FindStringSubmatch reRequire (pre ++ go "REQUIRE" ++ sp :: rest)
  = [pre ++ go "REQUIRE" ++ sp :: rest; dropWhile space rest].
Proof.
  intros Hline Hsp Hlast.
  assert (Hrun : run reRequire None (pre ++ go "REQUIRE" ++ sp :: rest) []
                     accept
                 = Some ([], [(1, dropWhile space rest)])).
  { unfold reRequire, MustCompile. cbn [Cats].
    rewrite regexp_facts.run_Cat.
    rewrite forallb_app in Hline. apply andb_true_iff in Hline.
    destruct Hline as [Hpre Hrest].
    apply run_Star_backtrack; [| |exact Hpre].
    - intros prev.
      destruct (@run_Lit_app (go "REQUIRE")
                  (Cat (Plus space) (Capture 1 (Star dot)))
                  prev (sp :: rest) [] accept) as (prev1 & ->).
      unfold Plus.
      rewrite !regexp_facts.run_Cat, regexp_facts.run_Class, Hsp.
      destruct (@run_Star_greedy space
                  (fun prev' s' c' => run (Capture 1 (Star dot)) prev' s' c'
                                          accept))
        with (s := rest) (prev := Some sp) (c := @nil (nat * gostring))
        as (prev2 & ->).
      { intros prev' s' c'. rewrite regexp_facts.run_Capture.
        destruct (@run_Star_greedy dot
                    (fun prev'' s'' c'' =>
                       accept prev'' s''
                              ((1, firstn (length s' - length s'') s') :: c'')))
          with (s := s') (prev := prev') (c := c') as (prev3 & ->);
          discriminate. }
      cbv beta. rewrite regexp_facts.run_Capture.
      destruct (@run_Star_greedy dot
                  (fun prev'' s'' c'' =>
                     accept prev'' s''
                            ((1, firstn (length (dropWhile space rest)
                                         - length s'')
                                        (dropWhile space rest)) :: c'')))
        with (s := dropWhile space rest) (prev := prev2)
             (c := @nil (nat * gostring)) as (prev3 & ->);
        [discriminate|].
      assert (Hdots : forallb dot (dropWhile space rest) = true).
      { apply forallb_dropWhile.
        change (go "REQUIRE" ++ sp :: rest)
          with (go "REQUIRE" ++ [sp] ++ rest) in Hrest.
        rewrite !forallb_app in Hrest.
        apply andb_true_iff in Hrest. destruct Hrest as [_ Hrest].
        apply andb_true_iff in Hrest. now destruct Hrest. }
      rewrite (dropWhile_all _ _ Hdots). unfold accept. cbn [length].
      now rewrite Nat.sub_0_r, firstn_all.
    - intros b1 b2 prev' Hb Hb1. apply run_Lit_HasPrefix.
      assert (Hq : N.eqb sp (rn "Q") = false).
      { apply N.eqb_neq. intros ->. discriminate Hsp. }
      change (go "REQUIRE" ++ sp :: rest)
        with (rn "R" :: rn "E" :: rn "Q" :: rn "U" :: rn "I" :: rn "R"
              :: rn "E" :: sp :: rest) in Hb.
      destruct (@suffix_cases _ _ _ _ Hb Hb1) as [<-|(b3 & Hb3 & E3)]; [reflexivity|].
      destruct (@suffix_cases _ _ _ _ E3 Hb3) as [<-|(b4 & Hb4 & E4)]; [reflexivity|].
      destruct (@suffix_cases _ _ _ _ E4 Hb4) as [<-|(b5 & Hb5 & E5)]; [reflexivity|].
      destruct (@suffix_cases _ _ _ _ E5 Hb5) as [<-|(b6 & Hb6 & E6)]; [reflexivity|].
      destruct (@suffix_cases _ _ _ _ E6 Hb6) as [<-|(b7 & Hb7 & E7)];
        [change (rn "Q") with 81%N in Hq; cbn; now rewrite Hq|].
      destruct (@suffix_cases _ _ _ _ E7 Hb7) as [<-|(b8 & Hb8 & E8)]; [reflexivity|].
      destruct (@suffix_cases _ _ _ _ E8 Hb8) as [<-|(b9 & Hb9 & E9)];
        [now apply (Contains_suffix [] (sp :: rest))|].
      apply (Contains_suffix b9). now rewrite <- E9. }
  unfold FindStringSubmatch.
  assert (Hsearch : search reRequire None (pre ++ go "REQUIRE" ++ sp :: rest)
                    = Some (pre ++ go "REQUIRE" ++ sp :: rest, [],
                            [(1, dropWhile space rest)])).
  { destruct (pre ++ go "REQUIRE" ++ sp :: rest); cbn [search];
      now rewrite Hrun. }
  rewrite Hsearch. cbn [length]. now rewrite Nat.sub_0_r, firstn_all.
Qed.

Lemma search_reRequire_None (s : gostring) :
  strings.Contains s (go "REQUIRE") = false ->
  forall prev, search reRequire prev s = None.
Proof.
  assert (Hrun : forall s prev,
             strings.Contains s (go "REQUIRE") = false ->
             run reRequire prev s [] accept = None).
  { intros s0 prev H. unfold reRequire, MustCompile. cbn [Cats].
    rewrite regexp_facts.run_Cat, run_Star_fallback.
    - apply run_Lit_HasPrefix. now apply (Contains_suffix [] s0).
    - intros b1 b2 prev' -> _. apply run_Lit_HasPrefix.
      now apply (Contains_suffix b1 b2). }
  induction s as [|x s IH]; intros H prev; cbn [search];
    rewrite (Hrun _ prev H); [reflexivity|].
  apply IH. cbn [strings.Contains] in H. apply orb_false_iff in H.
  now destruct H.
Qed.

(** X24. The TLS option of a parsed row of one line is all the text after
    the last [REQUIRE] and the white space that follows it, to the end of
    the row, so it takes in a grant option clause that follows the
    requirement; a parsed row without the text [REQUIRE] has the empty
    TLS option. *)
Theorem parsed_tls_option (T : CaseTables) :
  (forall pre sp rest grant,
      forallb dot (pre ++ go "REQUIRE" ++ sp :: rest) = true ->
      space sp = true ->
      strings.Contains (sp :: rest) (go "REQUIRE") = false ->
      parseGrantFromRow (pre ++ go "REQUIRE" ++ sp :: rest) = Ok (Some grant) ->
      tlsOptionOf grant = dropWhile space rest)
  /\ (forall grantStr grant,
        strings.Contains grantStr (go "REQUIRE") = false ->
        parseGrantFromRow grantStr = Ok (Some grant) ->
        tlsOptionOf grant = []).
Proof.
  assert (Hparse : forall grantStr grant,
             parseGrantFromRow grantStr = Ok (Some grant) ->
             tlsOptionOf grant
             = if Nat.eqb (length (FindStringSubmatch reRequire grantStr)) 2
               then index (FindStringSubmatch reRequire grantStr) 1
               else []).
  { intros grantStr grant. unfold parseGrantFromRow.
    destruct (strings.HasPrefix grantStr (go "REVOKE")); [discriminate|].
    match goal with
    | |- match ?u with Some _ => _ | None => _ end = _ -> _ =>
        destruct u as [userOrRole|]; [|discriminate]
    end.
    destruct (Nat.eqb (length (FindStringSubmatch roleGrantRegex grantStr)) 3);
      [|destruct (Nat.eqb (length (FindStringSubmatch procedureGrantRegex
                                     grantStr)) 5);
        [|destruct (Nat.eqb (length (FindStringSubmatch tableGrantRegex
                                       grantStr)) 4); [|discriminate]]];
      intros H; inversion H; reflexivity. }
  split.
  - intros pre sp rest grant Hline Hsp Hlast H.
    rewrite (Hparse _ _ H), (FindStringSubmatch_reRequire _ _ _ Hline Hsp Hlast).
    reflexivity.
  - intros grantStr grant Hnone H. rewrite (Hparse _ _ H).
    unfold FindStringSubmatch. now rewrite (search_reRequire_None _ Hnone).
Qed.

(** The statement of a table grant with the grant option and the TLS
    requirement [SSL], parsed back. *)
Lemma parsed_tls_option_example :
  exists grant,
    parseGrantFromRow (T := asciiTables)
      (SQLGrantStatement (T := asciiTables) gRequire)
    = Ok (Some grant)
    /\ SQLGrantStatement (T := asciiTables) gRequire
       = go "GRANT SELECT ON `app`.`users` TO 'bob'@'%' REQUIRE SSL WITH GRANT OPTION"
    /\ tlsOptionOf grant = go "SSL WITH GRANT OPTION".
Proof.
  eexists. split; [vm_compute; reflexivity|]. split; [reflexivity|].
  apply (proj1 (parsed_tls_option asciiTables)
           (go "GRANT SELECT ON `app`.`users` TO 'bob'@'%' ")
           (rn " ") (go "SSL WITH GRANT OPTION"));
    vm_compute; reflexivity.
Defined.
